(** * excel_viewer: the tabular ingestion engine and its query operations

    A shallow embedding of the repository's library code

      - lib/xlsxUtils  (isValidHeaderRow, normalizeHeader, parseWorksheetRobust)
      - lib/xlsxParser (detectColumnType, analyzeColumns, parseExcelFile,
                        filterData, sortData)
      - lib/csvParser  (parseMileage, sortVehicles)

    together with the part of the JavaScript run time these functions rest
    on: strings as sequences of UTF-16 code units, numbers, the conversions
    String(v) and Number(v), parseInt, objects with ordered keys and
    Array.prototype.sort. *)

From Stdlib Require Import String Ascii.
From Stdlib Require Import List ZArith NArith QArith Qround Qabs Bool Lia Lqa.
From Stdlib Require Import Permutation Sorted DecimalString.
From Stdlib Require Qcanon.
Import ListNotations.

Close Scope Q_scope.
Close Scope string_scope.
Local Open Scope Z_scope.

(* ================================================================== *)
(** ** JavaScript strings *)
(* ================================================================== *)

Module JS.

(** A string value is a finite sequence of 16-bit code units. *)
Definition JsString := list N.

(** An ASCII literal of the source, as code units. *)
Definition str (s : string) : JsString :=
  map N_of_ascii (list_ascii_of_string s).

Fixpoint str_eqb (a b : JsString) : bool :=
  match a, b with
  | [], [] => true
  | x :: a', y :: b' => N.eqb x y && str_eqb a' b'
  | _, _ => false
  end.

(** String.fromCharCode: the argument is reduced by ToUint16. *)
Definition fromCharCode (n : Z) : JsString := [Z.to_N (n mod 65536)].

(** WhiteSpace and LineTerminator of ECMAScript: what [trim] strips and what
    the pattern \s matches. *)
Definition isWhiteSpace (c : N) : bool :=
  ((9 <=? c) && (c <=? 13) || (c =? 32) || (c =? 160) || (c =? 5760)
   || ((8192 <=? c) && (c <=? 8202)) || (c =? 8232) || (c =? 8233)
   || (c =? 8239) || (c =? 8287) || (c =? 12288) || (c =? 65279))%N.

Fixpoint dropWhile {A} (p : A -> bool) (l : list A) : list A :=
  match l with
  | [] => []
  | x :: t => if p x then dropWhile p t else l
  end.

Definition trimStart (s : JsString) : JsString := dropWhile isWhiteSpace s.
Definition trimEnd (s : JsString) : JsString :=
  rev (dropWhile isWhiteSpace (rev s)).
Definition trim (s : JsString) : JsString := trimEnd (trimStart s).

Fixpoint startsWith (p s : JsString) : bool :=
  match p, s with
  | [], _ => true
  | x :: p', y :: s' => N.eqb x y && startsWith p' s'
  | _ :: _, [] => false
  end.

(** String.prototype.includes. *)
Fixpoint includes (s p : JsString) : bool :=
  startsWith p s || match s with [] => false | _ :: t => includes t p end.

(** split on a single code unit (String.prototype.split with a one-character
    separator): never returns the empty list. *)
Fixpoint split (sep : N) (s : JsString) : list JsString :=
  match s with
  | [] => [[]]
  | c :: t =>
      if N.eqb c sep then [] :: split sep t
      else match split sep t with
           | [] => [[c]]
           | w :: ws => (c :: w) :: ws
           end
  end.

(** parts.join(sep) for a one-character separator. *)
Fixpoint join (sep : N) (parts : list JsString) : JsString :=
  match parts with
  | [] => []
  | p :: rest =>
      match rest with
      | [] => p
      | _ :: _ => p ++ sep :: join sep rest
      end
  end.

(** ASCII case folding, as the patterns /km/i and /.../gi of the source need
    it: k and m have no other case variants under the pattern rules. *)
Definition asciiLower (c : N) : N :=
  if ((65 <=? c) && (c <=? 90))%N then (c + 32)%N else c.

Fixpoint startsWith_ci (p s : JsString) : bool :=
  match p, s with
  | [], _ => true
  | x :: p', y :: s' => N.eqb (asciiLower x) (asciiLower y) && startsWith_ci p' s'
  | _ :: _, [] => false
  end.

(** replace(/[,\s]/g, ''): every comma and every white space is removed. *)
Definition stripSeparators (s : JsString) : JsString :=
  filter (fun c => negb (N.eqb c 44 || isWhiteSpace c)) s.

(* ------------------------------------------------------------------ *)
(** ** Numbers *)

(** A Number is NaN, an infinity, or a finite double, which is written as the
    rational it denotes.  The two zeros are not told apart: comparing and
    subtracting numbers does not tell them apart either, and where the code
    divides by a number that can be -0 the sign of the zero is carried
    beside it (see [num_div]). *)
Inductive JsNum : Type :=
| NaN
| NegInf
| Fin (q : Q)
| PosInf.

Definition numZ (z : Z) : JsNum := Fin (inject_Z z).

Definition isNaN (n : JsNum) : bool :=
  match n with NaN => true | _ => false end.

(** x < y on numbers; false as soon as one side is NaN. *)
Definition num_lt (x y : JsNum) : bool :=
  match x, y with
  | NaN, _ | _, NaN => false
  | NegInf, NegInf => false
  | NegInf, _ => true
  | _, NegInf => false
  | PosInf, _ => false
  | Fin _, PosInf => true
  | Fin a, Fin b => match Qcompare a b with Lt => true | _ => false end
  end.

Definition num_gt (x y : JsNum) : bool := num_lt y x.

(** x === y on numbers. *)
Definition num_eq (x y : JsNum) : bool :=
  match x, y with
  | NegInf, NegInf | PosInf, PosInf => true
  | Fin a, Fin b => Qeq_bool a b
  | _, _ => false
  end.

(** x - y.  The machine rounds the difference of two doubles; rounding keeps
    its sign, and the callers only look at the sign of a difference. *)
Definition num_sub (x y : JsNum) : JsNum :=
  match x, y with
  | NaN, _ | _, NaN => NaN
  | PosInf, PosInf | NegInf, NegInf => NaN
  | PosInf, _ | _, NegInf => PosInf
  | NegInf, _ | _, PosInf => NegInf
  | Fin a, Fin b => Fin (Qminus a b)
  end.

Definition num_neg (x : JsNum) : JsNum :=
  match x with
  | NaN => NaN
  | NegInf => PosInf
  | PosInf => NegInf
  | Fin a => Fin (Qopp a)
  end.

(** Rounding of a rational to the nearest double, ties to even, with gradual
    underflow and overflow to infinity. *)
Definition pow2 (k : Z) : Q :=
  if 0 <=? k then inject_Z (2 ^ k) else Qinv (inject_Z (2 ^ (- k))).

Definition floor_log2 (a : Q) : Z :=
  let e0 := Z.log2 (Qnum a) - Z.log2 (Zpos (Qden a)) in
  if Qle_bool (pow2 e0) a then e0 else e0 - 1.

Definition round_half_even (a : Q) : Z :=
  let f := Qfloor a in
  match Qcompare (Qminus a (inject_Z f)) (1 # 2) with
  | Lt => f
  | Gt => f + 1
  | Eq => if Z.even f then f else f + 1
  end.

Definition round_double (q : Q) : JsNum :=
  match Qcompare q (inject_Z 0) with
  | Eq => Fin (inject_Z 0)
  | c =>
      let a := Qabs q in
      let p := Z.max (floor_log2 a) (-1022) - 52 in
      let v := Qmult (inject_Z (round_half_even (Qdiv a (pow2 p)))) (pow2 p) in
      if Qle_bool (pow2 1024) v
      then match c with Lt => NegInf | _ => PosInf end
      else Fin (Qred (match c with Lt => Qopp v | _ => v end))
  end.

(* ------------------------------------------------------------------ *)
(** ** Numeric literals in strings *)

Definition digitVal (c : N) : option Z :=
  if ((48 <=? c) && (c <=? 57))%N then Some (Z.of_N c - 48) else None.

Definition hexVal (c : N) : option Z :=
  if ((48 <=? c) && (c <=? 57))%N then Some (Z.of_N c - 48)
  else if ((97 <=? c) && (c <=? 102))%N then Some (Z.of_N c - 87)
  else if ((65 <=? c) && (c <=? 70))%N then Some (Z.of_N c - 55)
  else None.

(** The longest prefix of digits (read by [dv]) and the rest. *)
Fixpoint spanDigits (dv : N -> option Z) (s : JsString) : list Z * JsString :=
  match s with
  | [] => ([], [])
  | c :: t =>
      match dv c with
      | Some d => let (ds, r) := spanDigits dv t in (d :: ds, r)
      | None => ([], s)
      end
  end.

Definition digitsValue (base : Z) (ds : list Z) : Z :=
  fold_left (fun a d => a * base + d) ds 0.

Definition scale10 (m e : Z) : Q :=
  if 0 <=? e then inject_Z (m * 10 ^ e)
  else Qmake m (Z.to_pos (10 ^ (- e))).

(** An optional sign: the factor and the rest. *)
Definition takeSign (s : JsString) : Z * JsString :=
  match s with
  | 43%N :: t => (1, t)
  | 45%N :: t => (-1, t)
  | _ => (1, s)
  end.

(** ExponentPart (optional): [Some (e, rest)], or [None] when an e/E is there
    without digits after it. *)
Definition takeExponent (s : JsString) : option (Z * JsString) :=
  match s with
  | c :: t =>
      if (N.eqb c 101 || N.eqb c 69)%N then
        let (sg, t') := takeSign t in
        match spanDigits digitVal t' with
        | ([], _) => None
        | (ds, r) => Some (sg * digitsValue 10 ds, r)
        end
      else Some (0, s)
  | [] => Some (0, [])
  end.

(** StrUnsignedDecimalLiteral that is not Infinity: the exact value. *)
Definition unsignedDecimal (s : JsString) : option Q :=
  let (ip, r1) := spanDigits digitVal s in
  let (fp, r2) :=
    match r1 with
    | 46%N :: t => spanDigits digitVal t
    | _ => ([], r1)
    end in
  match ip, fp with
  | [], [] => None
  | _, _ =>
      match takeExponent r2 with
      | Some (e, []) =>
          Some (scale10 (digitsValue 10 (ip ++ fp)) (e - Z.of_nat (length fp)))
      | _ => None
      end
  end.

Definition radixLiteral (dv : N -> option Z) (base : Z) (s : JsString) : JsNum :=
  match spanDigits dv s with
  | ((_ :: _) as ds, []) => round_double (inject_Z (digitsValue base ds))
  | _ => NaN
  end.

Definition octVal (c : N) : option Z :=
  if ((48 <=? c) && (c <=? 55))%N then Some (Z.of_N c - 48) else None.
Definition binVal (c : N) : option Z :=
  if ((48 <=? c) && (c <=? 49))%N then Some (Z.of_N c - 48) else None.

(** StringToNumber: Number(s) for a string s. *)
Definition StringToNumber (s : JsString) : JsNum :=
  match trim s with
  | [] => numZ 0
  | 48%N :: 120%N :: t | 48%N :: 88%N :: t => radixLiteral hexVal 16 t
  | 48%N :: 111%N :: t | 48%N :: 79%N :: t => radixLiteral octVal 8 t
  | 48%N :: 98%N :: t | 48%N :: 66%N :: t => radixLiteral binVal 2 t
  | t =>
      let (sg, u) := takeSign t in
      if str_eqb u (str "Infinity") then (if sg <? 0 then NegInf else PosInf)
      else match unsignedDecimal u with
           | Some q => round_double (Qmult (inject_Z sg) q)
           | None => NaN
           end
  end.

(** parseInt(s, 10): leading white space, a sign, then the longest run of
    decimal digits; NaN when there is none. *)
Definition parseInt10 (s : JsString) : JsNum :=
  let (sg, u) := takeSign (trimStart s) in
  match spanDigits digitVal u with
  | ([], _) => NaN
  | (ds, _) => round_double (inject_Z (sg * digitsValue 10 ds))
  end.

(* ------------------------------------------------------------------ *)
(** ** Values *)

(** The properties of Object.prototype, which every record object
    inherits: the prototype itself under __proto__, and built-in functions
    under the other names. *)
Inductive Member : Type :=
| MProto | MConstructor | MHasOwnProperty | MIsPrototypeOf
| MPropertyIsEnumerable | MToLocaleString | MToString | MValueOf
| MDefineGetter | MDefineSetter | MLookupGetter | MLookupSetter.

Definition memberName (m : Member) : JsString :=
  match m with
  | MProto => str "__proto__"
  | MConstructor => str "constructor"
  | MHasOwnProperty => str "hasOwnProperty"
  | MIsPrototypeOf => str "isPrototypeOf"
  | MPropertyIsEnumerable => str "propertyIsEnumerable"
  | MToLocaleString => str "toLocaleString"
  | MToString => str "toString"
  | MValueOf => str "valueOf"
  | MDefineGetter => str "__defineGetter__"
  | MDefineSetter => str "__defineSetter__"
  | MLookupGetter => str "__lookupGetter__"
  | MLookupSetter => str "__lookupSetter__"
  end.

Definition members : list Member :=
  [MProto; MConstructor; MHasOwnProperty; MIsPrototypeOf; MPropertyIsEnumerable;
   MToLocaleString; MToString; MValueOf; MDefineGetter; MDefineSetter;
   MLookupGetter; MLookupSetter].

(** The member of Object.prototype that a property name finds, if any. *)
Definition inherited (k : JsString) : option Member :=
  find (fun m => str_eqb (memberName m) k) members.

(** The values a cell, a record field or a filter constraint can hold:
    the primitives, Date objects (with their time value, NaN for an
    invalid date), and the values that reading an inherited property gives:
    [JMember MProto] is the object Object.prototype, the other members are
    functions. *)
Inductive JsValue : Type :=
| JUndefined
| JNull
| JBool (b : bool)
| JNum (n : JsNum)
| JStr (s : JsString)
| JDate (t : JsNum)
| JMember (m : Member).

(** What the host environment supplies and the repository only calls:
    Unicode lower-casing, the collation behind localeCompare(_, 'ko-KR')
    (only the sign of its result is meaningful), the date parser behind
    new Date(string) (its time value; NaN on an invalid date), the text
    of a number and of a Date object, and the text of a built-in function
    (of the form function name() { [native code] }, its white space left to
    the engine). *)
Record Host : Type := {
  toLowerCase : JsString -> JsString;
  localeCompare : JsString -> JsString -> Z;
  parseDate : JsString -> JsNum;
  numberToString : JsNum -> JsString;
  dateToString : JsNum -> JsString;
  functionToString : Member -> JsString
}.

(** String(v). *)
Definition ToString (h : Host) (v : JsValue) : JsString :=
  match v with
  | JUndefined => str "undefined"
  | JNull => str "null"
  | JBool true => str "true"
  | JBool false => str "false"
  | JNum n => numberToString h n
  | JStr s => s
  | JDate t => dateToString h t
  | JMember MProto => str "[object Object]"
  | JMember m => functionToString h m
  end.

(** Number(v).  An object without a numeric text is NaN: the text of
    Object.prototype and of a function is not a numeric literal. *)
Definition ToNumber (v : JsValue) : JsNum :=
  match v with
  | JUndefined => NaN
  | JNull => numZ 0
  | JBool true => numZ 1
  | JBool false => numZ 0
  | JNum n => n
  | JStr s => StringToNumber s
  | JDate t => t
  | JMember _ => NaN
  end.

(** A string value given by an ASCII literal. *)
Definition text (s : string) : JsValue := JStr (str s).

(** A string without white space at either end. *)
Definition trimmedText (v : JsValue) : Prop :=
  exists t, v = JStr t /\ trim t = t.

(** v === null || v === undefined *)
Definition isNullish (v : JsValue) : bool :=
  match v with JUndefined | JNull => true | _ => false end.

(** v === '' *)
Definition isEmptyString (v : JsValue) : bool :=
  match v with JStr [] => true | _ => false end.

(** v === lit, for a string literal of the source. *)
Definition isString (lit : JsString) (v : JsValue) : bool :=
  match v with JStr s => str_eqb s lit | _ => false end.

(* ------------------------------------------------------------------ *)
(** ** Objects used as records *)

(** A record object: an ordinary object, whose prototype is
    Object.prototype, given by its own properties in the order of their
    creation.

    Reading o[k] finds the own property, else the member of Object.prototype
    of that name, else undefined.

    Assigning o[k] = v changes an own property in its place; a new key goes
    last, except __proto__: without an own property of that name the
    assignment runs the setter of Object.prototype, which creates no
    property (and leaves the prototype as it is when v is a primitive or the
    prototype itself, the only values the code assigns).

    Object.keys lists the keys that are array indices first, in ascending
    order, then the other keys in the order of their creation. *)
Definition JsObject := list (JsString * JsValue).

Definition protoKey : JsString := memberName MProto.

Fixpoint obj_get (o : JsObject) (k : JsString) : JsValue :=
  match o with
  | [] => match inherited k with Some m => JMember m | None => JUndefined end
  | (k', v) :: o' => if str_eqb k' k then v else obj_get o' k
  end.

Fixpoint obj_set (o : JsObject) (k : JsString) (v : JsValue) : JsObject :=
  match o with
  | [] => if str_eqb k protoKey then [] else [(k, v)]
  | (k', v') :: o' =>
      if str_eqb k' k then (k', v) :: o' else (k', v') :: obj_set o' k v
  end.

(** The own keys in the order of their creation. *)
Definition own_keys (o : JsObject) : list JsString := map fst o.

(** An array index: the canonical text of a whole number from 0 to
    2^32 - 2. *)
Definition arrayIndex (k : JsString) : option Z :=
  match k with
  | [] => None
  | c :: t =>
      if N.eqb c 48 && negb (str_eqb t []) then None
      else match spanDigits digitVal k with
           | (ds, []) =>
               let n := digitsValue 10 ds in
               if n <=? 4294967294 then Some n else None
           | _ => None
           end
  end.

Fixpoint insertByIndex (i : Z) (e : JsString * JsValue)
    (l : list (Z * (JsString * JsValue))) : list (Z * (JsString * JsValue)) :=
  match l with
  | [] => [(i, e)]
  | (j, e') :: l' =>
      if i <? j then (i, e) :: l else (j, e') :: insertByIndex i e l'
  end.

(** The own properties whose key is an array index, in ascending order. *)
Fixpoint indexEntries (o : JsObject) : list (Z * (JsString * JsValue)) :=
  match o with
  | [] => []
  | e :: o' =>
      match arrayIndex (fst e) with
      | Some i => insertByIndex i e (indexEntries o')
      | None => indexEntries o'
      end
  end.

(** The other own properties, in the order of their creation. *)
Fixpoint nameEntries (o : JsObject) : JsObject :=
  match o with
  | [] => []
  | e :: o' =>
      match arrayIndex (fst e) with
      | Some _ => nameEntries o'
      | None => e :: nameEntries o'
      end
  end.

(** Object.entries, Object.keys and Object.values *)
Definition obj_entries (o : JsObject) : JsObject :=
  map snd (indexEntries o) ++ nameEntries o.
Definition obj_keys (o : JsObject) : list JsString := map fst (obj_entries o).
Definition obj_values (o : JsObject) : list JsValue := map snd (obj_entries o).

(** A run of assignments o[key x] = val x, for x along a list. *)
Definition assignAll {X} (key : X -> JsString) (val : X -> JsValue)
    (l : list X) (o : JsObject) : JsObject :=
  fold_left (fun acc x => obj_set acc (key x) (val x)) l o.

(** arr.map((x, idx) => f x idx) *)
Fixpoint mapi_from {A B} (f : A -> nat -> B) (i : nat) (l : list A) : list B :=
  match l with
  | [] => []
  | x :: t => f x i :: mapi_from f (S i) t
  end.
Definition mapi {A B} (f : A -> nat -> B) (l : list A) : list B :=
  mapi_from f 0 l.

(* ------------------------------------------------------------------ *)
(** ** Array.prototype.sort *)

(** The language asks for a stable sort and leaves the algorithm open.  It is
    modelled as straight insertion from the left: each element in turn is put
    behind the sorted part and moves towards the front for as long as the
    comparator, called with the moving element first, answers a negative
    number.  A comparator result that is NaN counts as zero. *)
Section Sort.
Context {A : Type}.
Variable comparefn : A -> A -> JsNum.

Definition negative (v : JsNum) : bool := num_lt v (numZ 0).

(** [sorted_rev] is the sorted part, last element first. *)
Fixpoint sink (x : A) (sorted_rev : list A) : list A :=
  match sorted_rev with
  | [] => [x]
  | y :: ys =>
      if negative (comparefn x y) then y :: sink x ys
      else x :: sorted_rev
  end.

Definition sort (l : list A) : list A :=
  rev (fold_left (fun sorted_rev x => sink x sorted_rev) l []).

(** A second model, to tell what depends on the algorithm: sorting by
    merging runs, as the engines' merge sorts do.  Of two runs the left one
    holds the earlier elements; the head of the right run goes first only
    when the comparator, called with it first, answers a negative number. *)
Fixpoint merge (left : list A) : list A -> list A :=
  fix merge_right (right : list A) : list A :=
    match left, right with
    | [], _ => right
    | _, [] => left
    | a :: left', b :: right' =>
        if negative (comparefn b a) then b :: merge_right right'
        else a :: merge left' right
    end.

(** The pending runs, the newest first; a run of 2^k elements at place k. *)
Fixpoint pushRun (stack : list (option (list A))) (run : list A)
  : list (option (list A)) :=
  match stack with
  | [] => [Some run]
  | None :: stack' => Some run :: stack'
  | Some older :: stack' => None :: pushRun stack' (merge older run)
  end.

Fixpoint collapse (stack : list (option (list A))) (newer : list A) : list A :=
  match stack with
  | [] => newer
  | None :: stack' => collapse stack' newer
  | Some older :: stack' => collapse stack' (merge older newer)
  end.

Definition mergeSort (l : list A) : list A :=
  collapse (fold_left (fun stack x => pushRun stack [x]) l []) [].
End Sort.

(* ------------------------------------------------------------------ *)
(** ** More of the language: arithmetic, truthiness, slices *)

(** x + y, rounded as the machine rounds. *)
Definition num_add (x y : JsNum) : JsNum :=
  match x, y with
  | NaN, _ | _, NaN => NaN
  | PosInf, NegInf | NegInf, PosInf => NaN
  | PosInf, _ | _, PosInf => PosInf
  | NegInf, _ | _, NegInf => NegInf
  | Fin a, Fin b => round_double (Qplus a b)
  end.

Definition signOf (q : Q) : comparison := Qcompare q (inject_Z 0).

(** x * y. *)
Definition num_mul (x y : JsNum) : JsNum :=
  match x, y with
  | NaN, _ | _, NaN => NaN
  | Fin a, Fin b => round_double (Qmult a b)
  | Fin a, i | i, Fin a =>
      match signOf a with
      | Eq => NaN
      | Gt => i
      | Lt => num_neg i
      end
  | PosInf, PosInf | NegInf, NegInf => PosInf
  | PosInf, NegInf | NegInf, PosInf => NegInf
  end.

(** x / y.  The numbers of the model have one zero, and a division by zero
    is the one place where the sign of a zero shows: [negativeZero] says
    that a zero divisor y is -0 (it is not looked at otherwise). *)
Definition num_div (x y : JsNum) (negativeZero : bool) : JsNum :=
  match x, y with
  | NaN, _ | _, NaN => NaN
  | Fin a, Fin b =>
      match signOf b with
      | Eq =>
          match signOf a with
          | Eq => NaN
          | Gt => if negativeZero then NegInf else PosInf
          | Lt => if negativeZero then PosInf else NegInf
          end
      | _ => round_double (Qdiv a b)
      end
  | Fin _, _ => numZ 0
  | i, Fin b =>
      match signOf b with
      | Lt => num_neg i
      | Eq => if negativeZero then num_neg i else i
      | Gt => i
      end
  | _, _ => NaN
  end.

(** Math.round: the nearest integer, a tie going up. *)
Definition mathRound (x : JsNum) : JsNum :=
  match x with
  | Fin a => Fin (inject_Z (Qfloor (Qplus a (1 # 2))))
  | _ => x
  end.

(** Math.ceil *)
Definition mathCeil (x : JsNum) : JsNum :=
  match x with
  | Fin a => Fin (inject_Z (Qceiling a))
  | _ => x
  end.

(** Math.min and Math.max of two numbers: NaN as soon as one is NaN. *)
Definition mathMin (x y : JsNum) : JsNum :=
  if isNaN x || isNaN y then NaN else if num_lt y x then y else x.
Definition mathMax (x y : JsNum) : JsNum :=
  if isNaN x || isNaN y then NaN else if num_lt x y then y else x.

(** The truth value of a value in a condition. *)
Definition truthy (v : JsValue) : bool :=
  match v with
  | JUndefined | JNull => false
  | JBool b => b
  | JNum n => negb (isNaN n || num_eq n (numZ 0))
  | JStr s => negb (str_eqb s [])
  | JDate _ | JMember _ => true
  end.

(** ToIntegerOrInfinity of a number, as slice reads its arguments: NaN is 0,
    a fraction is cut off; [inr] stands for an infinity, [true] for the
    positive one. *)
Definition toInteger (x : JsNum) : Z + bool :=
  match x with
  | NaN => inl 0
  | Fin a => inl (Z.quot (Qnum a) (Zpos (Qden a)))
  | PosInf => inr true
  | NegInf => inr false
  end.

(** The place in an array of [len] elements that a start or end argument of
    slice denotes: counted from the end when negative, kept within 0..len. *)
Definition relativeIndex (len : Z) (x : JsNum) : Z :=
  match toInteger x with
  | inr true => len
  | inr false => 0
  | inl k => if k <? 0 then Z.max (len + k) 0 else Z.min k len
  end.

(** arr.slice(start, end) *)
Definition slice {A} (l : list A) (start stop : JsNum) : list A :=
  let len := Z.of_nat (List.length l) in
  let k := relativeIndex len start in
  let final := relativeIndex len stop in
  firstn (Z.to_nat (final - k)) (skipn (Z.to_nat k) l).

(** parseInt(s) without a radix: base 16 after a 0x prefix, else base 10.
    For a text such as "-0" the result is the negative zero, which the
    numbers of the model do not tell from 0: [parsesNegativeZero] below
    tells it. *)
Definition parseIntAuto (s : JsString) : JsNum :=
  let (sg, u) := takeSign (trimStart s) in
  match u with
  | 48%N :: 120%N :: t | 48%N :: 88%N :: t =>
      match spanDigits hexVal t with
      | ([], _) => NaN
      | (ds, _) => round_double (inject_Z (sg * digitsValue 16 ds))
      end
  | _ =>
      match spanDigits digitVal u with
      | ([], _) => NaN
      | (ds, _) => round_double (inject_Z (sg * digitsValue 10 ds))
      end
  end.

(** parseInt(s) is -0: a minus sign before digits that denote zero. *)
Definition parsesNegativeZero (s : JsString) : bool :=
  let (sg, _) := takeSign (trimStart s) in
  (sg <? 0) && num_eq (parseIntAuto s) (numZ 0).

(** String.prototype.endsWith *)
Definition endsWith (s suffix : JsString) : bool :=
  startsWith (rev suffix) (rev s).

End JS.

Import JS.

(* ================================================================== *)
(** ** lib/xlsxUtils *)
(* ================================================================== *)

Module XlsxUtils.

(** The options object; an absent option is [None] and takes its default. *)
Record XLSXParseOptions : Type := {
  minHeaderColumns : option Z;
  maxHeaderSearchRows : option Z;
  skipEmptyRows : option bool;
  fallbackColumnPrefix : option JsString
}.

Definition noOptions : XLSXParseOptions :=
  {| minHeaderColumns := None; maxHeaderSearchRows := None;
     skipEmptyRows := None; fallbackColumnPrefix := None |}.

Definition orDefault {A} (o : option A) (d : A) : A :=
  match o with Some a => a | None => d end.

(** The result of parseWorksheetRobust (XLSXParseResult without sheetName). *)
Record XLSXParseResult : Type := {
  data : list JsObject;
  columns : list JsString;
  headerRowIndex : Z;
  totalRawRows : Z
}.

Section WithHost.
Variable h : Host.

(** The callback of row.filter in isValidHeaderRow. *)
Definition headerCellCounts (cell : JsValue) : bool :=
  if isNullish cell then false
  else
    let cellStr := trim (ToString h cell) in
    negb (str_eqb cellStr []) && negb (str_eqb cellStr (str "undefined")).

Definition nonEmptyCount (row : list JsValue) : Z :=
  Z.of_nat (List.length (filter headerCellCounts row)).

Definition isValidHeaderRow (row : list JsValue) (minColumns : Z) : bool :=
  match row with
  | [] => false
  | _ => nonEmptyCount row >=? minColumns
  end.

(** `${fallbackPrefix} ${String.fromCharCode(65 + columnIndex)}` *)
Definition fallbackName (fallbackPrefix : JsString) (columnIndex : nat) : JsString :=
  fallbackPrefix ++ str " " ++ fromCharCode (65 + Z.of_nat columnIndex).

Definition normalizeHeader (header : JsValue) (columnIndex : nat)
    (fallbackPrefix : JsString) : JsString :=
  if isNullish header then fallbackName fallbackPrefix columnIndex
  else
    let headerStr := trim (ToString h header) in
    if str_eqb headerStr [] || str_eqb headerStr (str "undefined")
    then fallbackName fallbackPrefix columnIndex
    else headerStr.

Definition normalizeRow (fallbackPrefix : JsString) (row : list JsValue)
  : list JsString :=
  mapi (fun cell idx => normalizeHeader cell idx fallbackPrefix) row.

(** The search loop: rows i, i+1, ... of the window, left at the first
    valid header row. *)
Fixpoint findHeaderRow (minColumns : Z) (i : nat) (window : list (list JsValue))
  : option (nat * list JsValue) :=
  match window with
  | [] => None
  | row :: rest =>
      if isValidHeaderRow row minColumns then Some (i, row)
      else findHeaderRow minColumns (S i) rest
  end.

Definition searchLimit (maxRows : Z) (rawData : list (list JsValue)) : Z :=
  Z.min maxRows (Z.of_nat (List.length rawData)).

(** headerRowIndex and headers as they stand after the search and the
    first-row fallback. *)
Definition discoverHeader (rawData : list (list JsValue))
    (minColumns maxRows : Z) (fallbackPrefix : JsString) : Z * list JsString :=
  match findHeaderRow minColumns 0
          (firstn (Z.to_nat (searchLimit maxRows rawData)) rawData) with
  | Some (i, row) => (Z.of_nat i, normalizeRow fallbackPrefix row)
  | None =>
      match rawData with
      | firstRow :: _ => (0, normalizeRow fallbackPrefix firstRow)
      | [] => (-1, [])
      end
  end.

(** value !== null && value !== undefined && String(value).trim() !== '' *)
Definition hasText (value : JsValue) : bool :=
  negb (isNullish value) && negb (str_eqb (trim (ToString h value)) []).

Definition hasData (row : list JsValue) : bool := existsb hasText row.

(** The text stored for a cell: trimmed, the empty string when missing. *)
Definition cellText (value : JsValue) : JsValue :=
  if isNullish value then JStr [] else JStr (trim (ToString h value)).

Definition indexed {A} (l : list A) : list (A * nat) :=
  combine l (seq 0 (List.length l)).

(** headers.forEach((header, idx) => rowObject[header] = ...) *)
Definition makeRowObject (headers : list JsString) (row : list JsValue) : JsObject :=
  fold_left
    (fun rowObject hi => obj_set rowObject (fst hi) (cellText (nth (snd hi) row JUndefined)))
    (indexed headers) [].

(** The loop over the rows after the header row. *)
Fixpoint materialize (headers : list JsString) (skip : bool)
    (rows : list (list JsValue)) : list JsObject :=
  match rows with
  | [] => []
  | row :: rest =>
      if skip && negb (hasData row) then materialize headers skip rest
      else makeRowObject headers row :: materialize headers skip rest
  end.

Definition columnsWithData (headers : list JsString) (rows : list JsObject)
  : list JsString :=
  filter (fun col => existsb (fun row => hasText (obj_get row col)) rows) headers.

Definition finalColumns (headers : list JsString) (rows : list JsObject)
  : list JsString :=
  match columnsWithData headers rows with
  | [] => headers
  | cols => cols
  end.

Definition cleanRow (final : list JsString) (row : JsObject) : JsObject :=
  fold_left
    (fun acc col =>
       obj_set acc col
         (match obj_get row col with JUndefined => JStr [] | v => v end))
    final [].

(** parseWorksheetRobust, from the grid that XLSX.utils.sheet_to_json
    (header: 1, defval: '', raw: false, blankrows: false) returns for the
    worksheet.  With blankrows: false that grid holds no empty row. *)
Definition parseWorksheetRobust (rawData : list (list JsValue))
    (options : XLSXParseOptions) : XLSXParseResult :=
  let minColumns := orDefault (minHeaderColumns options) 2 in
  let maxRows := orDefault (maxHeaderSearchRows options) 20 in
  let skip := orDefault (skipEmptyRows options) true in
  let prefix := orDefault (fallbackColumnPrefix options) (str "Column") in
  match rawData with
  | [] => {| data := []; columns := []; headerRowIndex := -1; totalRawRows := 0 |}
  | _ =>
      let (index, headers) := discoverHeader rawData minColumns maxRows prefix in
      match headers with
      | [] => {| data := []; columns := []; headerRowIndex := -1;
                 totalRawRows := Z.of_nat (List.length rawData) |}
      | _ =>
          let rows := materialize headers skip (skipn (Z.to_nat (index + 1)) rawData) in
          let final := finalColumns headers rows in
          {| data := map (cleanRow final) rows;
             columns := final;
             headerRowIndex := index;
             totalRawRows := Z.of_nat (List.length rawData) |}
      end
  end.
End WithHost.

End XlsxUtils.

(* ================================================================== *)
(** ** lib/xlsxParser *)
(* ================================================================== *)

Module XlsxParser.

Inductive ColumnType : Type :=
| TString | TNumber | TDate | TBoolean | TMixed.

Record ColumnMetadata : Type := {
  name : JsString;
  type : ColumnType;
  nullable : bool
}.

(** The four counters of detectColumnType. *)
Record Tally : Type := {
  numberCount : nat;
  dateCount : nat;
  booleanCount : nat;
  stringCount : nat
}.

Definition noTally : Tally :=
  {| numberCount := 0; dateCount := 0; booleanCount := 0; stringCount := 0 |}.

(** How many values a tally has counted. *)
Definition counted (t : Tally) : nat :=
  (numberCount t + dateCount t + booleanCount t + stringCount t)%nat.

(** replace(/원|만원|Km|km/gi, ''): at each position the alternatives are
    tried in order; 원 is code unit 50896 and 만 is 47564. *)
Fixpoint removeUnits (s : JsString) : JsString :=
  match s with
  | [] => []
  | c1 :: t1 =>
      if N.eqb c1 50896 then removeUnits t1
      else
        match t1 with
        | c2 :: t2 =>
            if (N.eqb c1 47564 && N.eqb c2 50896)
               || (N.eqb (asciiLower c1) 107 && N.eqb (asciiLower c2) 109)
            then removeUnits t2
            else c1 :: removeUnits t1
        | [] => [c1]
        end
  end.

(** v !== null && v !== undefined && v !== '' *)
Definition nonNull (v : JsValue) : bool :=
  negb (isNullish v) && negb (isEmptyString v).

(** ratio >= 0.8 for ratio = count / total with total > 0.  Both operands are
    array lengths (below 2^32), so the rounded quotient is at least the double
    nearest to 0.8 exactly when 5 * count >= 4 * total. *)
Definition reachesThreshold (count total : nat) : bool :=
  (4 * total <=? 5 * count)%nat.

(** The ingestion result. *)
Record Metadata : Type := {
  fileName : JsString;
  fileType : JsString;
  totalRows : nat;
  totalColumns : nat
}.

Record ParseResult : Type := {
  data : list JsObject;
  columns : list ColumnMetadata;
  metadata : Metadata;
  error : option JsString
}.

(** How a call into a library ends: with a value, or by throwing (the
    message of the Error, when the thrown value is one). *)
Inductive Completion (A : Type) : Type :=
| Returns (a : A)
| Throws (message : option JsString).
Arguments Returns {A} a.
Arguments Throws {A} message.

(** The text parseCSV hands to Papa.parse, from the decoded content: a
    leading byte order mark is dropped, then a first line that is blank or
    made of commas only, then the commas (and white space behind them) that
    end a line. *)
Definition onlyCommas (line : JsString) : bool :=
  negb (str_eqb line []) && forallb (N.eqb 44) line.

Definition stripTrailingCommas (line : JsString) : JsString :=
  match dropWhile isWhiteSpace (rev line) with
  | 44%N :: r => rev (dropWhile (N.eqb 44) r)
  | _ => line
  end.

Definition csvContent (decoded : JsString) : JsString :=
  let content := match decoded with 65279%N :: t => t | _ => decoded end in
  let content :=
    match split 10 content with
    | first :: rest =>
        if str_eqb (trim first) [] || onlyCommas first then join 10 rest
        else content
    | [] => content
    end in
  join 10 (map stripTrailingCommas (split 10 content)).

(** A filter constraint: a primitive (or Date) value, or an object, given by
    its properties min and max (undefined when absent). *)
Inductive FilterValue : Type :=
| FValue (v : JsValue)
| FObject (min max : JsValue).

Inductive Direction : Type := asc | desc.

Section WithHost.
Variable h : Host.

(** One turn of the loop over the non-empty values. *)
Definition tallyStep (t : Tally) (value : JsValue) : Tally :=
  let countBoolean :=
    {| numberCount := numberCount t; dateCount := dateCount t;
       booleanCount := S (booleanCount t); stringCount := stringCount t |} in
  let countNumber :=
    {| numberCount := S (numberCount t); dateCount := dateCount t;
       booleanCount := booleanCount t; stringCount := stringCount t |} in
  let countDate :=
    {| numberCount := numberCount t; dateCount := S (dateCount t);
       booleanCount := booleanCount t; stringCount := stringCount t |} in
  let countString :=
    {| numberCount := numberCount t; dateCount := dateCount t;
       booleanCount := booleanCount t; stringCount := S (stringCount t) |} in
  if match value with JBool _ => true | _ => false end
     || isString (str "true") value || isString (str "false") value
     || isString (str "TRUE") value || isString (str "FALSE") value
  then countBoolean
  else if match value with JNum n => negb (isNaN n) | _ => false end
  then countNumber
  else
    match value with
    | JStr s =>
        let cleaned := removeUnits (stripSeparators s) in
        if negb (str_eqb cleaned []) && negb (isNaN (StringToNumber cleaned))
        then countNumber
        else if negb (isNaN (parseDate h s)) then countDate
        else countString
    | JDate t' => if negb (isNaN t') then countDate else countString
    | _ => countString
    end.

Definition tally (nonNullValues : list JsValue) : Tally :=
  fold_left tallyStep nonNullValues noTally.

Definition detectColumnType (values : list JsValue) : ColumnType :=
  let nonNullValues := filter nonNull values in
  match nonNullValues with
  | [] => TString
  | _ =>
      let t := tally nonNullValues in
      let total := List.length nonNullValues in
      if reachesThreshold (numberCount t) total then TNumber
      else if reachesThreshold (dateCount t) total then TDate
      else if reachesThreshold (booleanCount t) total then TBoolean
      else if reachesThreshold (stringCount t) total then TString
      else TMixed
  end.

(** analyzeColumns; the optional uniqueValues field is left out. *)
Definition analyzeColumns (rows : list JsObject) : list ColumnMetadata :=
  match rows with
  | [] => []
  | first :: _ =>
      map (fun colName =>
             let values := map (fun row => obj_get row colName) rows in
             let nonNullValues := filter nonNull values in
             {| name := colName;
                type := detectColumnType values;
                nullable := (List.length nonNullValues <? List.length values)%nat |})
          (obj_keys first)
  end.

(** parseXLSX: the data of parseXLSXBuffer under the fixed options. *)
Definition parseXLSX (rawData : list (list JsValue)) : list JsObject :=
  XlsxUtils.data
    (XlsxUtils.parseWorksheetRobust h rawData
       {| XlsxUtils.minHeaderColumns := Some 2;
          XlsxUtils.maxHeaderSearchRows := Some 20;
          XlsxUtils.skipEmptyRows := Some true;
          XlsxUtils.fallbackColumnPrefix := Some (str "Column") |}).

(** fileName.split('.').pop()?.toLowerCase() || '' *)
Definition extensionOf (file : JsString) : JsString :=
  toLowerCase h (last (split 46 file) []).

Definition failure (file : JsString) (message : JsString) : ParseResult :=
  {| data := []; columns := [];
     metadata := {| fileName := file; fileType := extensionOf file;
                    totalRows := 0; totalColumns := 0 |};
     error := Some message |}.

(** values.some(val => val !== null && val !== undefined && val !== '') *)
Definition rowNotEmpty (row : JsObject) : bool :=
  existsb nonNull (obj_values row).

(** parseExcelFile.  The buffer enters through two library calls, of which
    the extension picks one: [csv] is how parseCSV(buffer) ends (the
    results.data of Papa.parse with header: true, or a rejection), [xlsx]
    how reading the first sheet with sheet_to_json ends.  The parseDate
    time stamp of the metadata is left out. *)
Definition parseExcelFile (csv : Completion (list JsObject))
    (xlsx : Completion (list (list JsValue))) (file : JsString) : ParseResult :=
  let fileExtension := extensionOf file in
  let finish (rows : list JsObject) :=
    let rows' := filter rowNotEmpty rows in
    let cols := analyzeColumns rows' in
    {| data := rows'; columns := cols;
       metadata := {| fileName := file; fileType := fileExtension;
                      totalRows := List.length rows';
                      totalColumns := List.length cols |};
       error := None |} in
  let caught (message : option JsString) :=
    failure file (match message with
                  | Some m => m
                  | None => str "Unknown error during parsing"
                  end) in
  if str_eqb fileExtension (str "csv") then
    match csv with
    | Returns rows => finish rows
    | Throws m => caught m
    end
  else if str_eqb fileExtension (str "xlsx") || str_eqb fileExtension (str "xls") then
    match xlsx with
    | Returns rawData => finish (parseXLSX rawData)
    | Throws m => caught m
    end
  else failure file (str "Unsupported file type").

(** The body of the loop over Object.entries(filters), for one entry:
    [true] when the row passes this constraint. *)
Definition passes (row : JsObject) (key : JsString) (value : FilterValue) : bool :=
  match value with
  | FValue v =>
      if isNullish v || isEmptyString v then true
      else
        let rowValue := obj_get row key in
        match v with
        | JStr s =>
            includes (toLowerCase h (ToString h rowValue)) (toLowerCase h s)
        | JNum n =>
            match rowValue with JNum r => num_eq r n | _ => false end
        | _ => true
        end
  | FObject min max =>
      match min, max with
      | JUndefined, _ | _, JUndefined => true
      | _, _ =>
          let numValue := ToNumber (obj_get row key) in
          negb (num_lt numValue (ToNumber min) || num_gt numValue (ToNumber max))
      end
  end.

Definition filterData (rows : list JsObject)
    (filters : list (JsString * FilterValue)) : list JsObject :=
  filter (fun row => forallb (fun kv => passes row (fst kv) (snd kv)) filters) rows.

(** The comparator handed to sort by sortData. *)
Definition compareRecords (sortBy : JsString) (direction : Direction)
    (a b : JsObject) : JsNum :=
  let aVal := obj_get a sortBy in
  let bVal := obj_get b sortBy in
  if isNullish aVal then numZ 1
  else if isNullish bVal then numZ (-1)
  else
    let aNum := ToNumber aVal in
    let bNum := ToNumber bVal in
    let comparison :=
      if negb (isNaN aNum) && negb (isNaN bNum) then num_sub aNum bNum
      else numZ (localeCompare h (ToString h aVal) (ToString h bVal)) in
    match direction with
    | asc => comparison
    | desc => num_neg comparison
    end.

Definition sortData (rows : list JsObject) (sortBy : JsString)
    (direction : Direction) : list JsObject :=
  sort (compareRecords sortBy direction) rows.
End WithHost.

End XlsxParser.

(* ================================================================== *)
(** ** lib/csvParser and types/vehicle *)
(* ================================================================== *)

Module CsvParser.

(** The Vehicle interface; 변속기 is its optional field. *)
Record Vehicle : Type := {
  출품번호 : JsString;
  차량명 : JsString;
  출품가 : JsNum;
  연식 : JsNum;
  주행거리 : JsString;
  색상 : JsString;
  연료 : JsString;
  변속기 : option JsString;
  평가점 : JsString
}.

(** keyof Vehicle *)
Inductive VehicleKey : Type :=
| K출품번호 | K차량명 | K출품가 | K연식 | K주행거리
| K색상 | K연료 | K변속기 | K평가점.

(** a[sortBy] *)
Definition field (v : Vehicle) (k : VehicleKey) : JsValue :=
  match k with
  | K출품번호 => JStr (출품번호 v)
  | K차량명 => JStr (차량명 v)
  | K출품가 => JNum (출품가 v)
  | K연식 => JNum (연식 v)
  | K주행거리 => JStr (주행거리 v)
  | K색상 => JStr (색상 v)
  | K연료 => JStr (연료 v)
  | K변속기 => match 변속기 v with Some s => JStr s | None => JUndefined end
  | K평가점 => JStr (평가점 v)
  end.

(** replace(/km/i, ''): the first occurrence only. *)
Fixpoint removeFirstKm (s : JsString) : JsString :=
  match s with
  | [] => []
  | c1 :: t1 =>
      match t1 with
      | c2 :: t2 =>
          if N.eqb (asciiLower c1) 107 && N.eqb (asciiLower c2) 109 then t2
          else c1 :: removeFirstKm t1
      | [] => [c1]
      end
  end.

(** x || 0 on a number: NaN and zero are the falsy numbers. *)
Definition orZero (x : JsNum) : JsNum :=
  if isNaN x || num_eq x (numZ 0) then numZ 0 else x.

(** parseMileage; [None] is a null or undefined argument. *)
Definition parseMileage (mileageStr : option JsString) : JsNum :=
  match mileageStr with
  | None | Some [] => numZ 0
  | Some s =>
      let cleaned := removeFirstKm (stripSeparators s) in
      orZero (parseInt10 cleaned)
  end.

Import XlsxParser.

Section WithHost.
Variable h : Host.

Definition asMileage (v : JsValue) : option JsString :=
  match v with JStr s => Some s | _ => None end.

(** The comparator handed to sort by sortVehicles. *)
Definition compareVehicles (sortBy : VehicleKey) (direction : Direction)
    (a b : Vehicle) : JsNum :=
  let aVal := field a sortBy in
  let bVal := field b sortBy in
  let comparison :=
    match sortBy with
    | K주행거리 =>
        num_sub (parseMileage (asMileage aVal)) (parseMileage (asMileage bVal))
    | _ =>
        match aVal, bVal with
        | JNum x, JNum y => num_sub x y
        | JStr x, JStr y => numZ (localeCompare h x y)
        | _, _ => numZ 0
        end
    end in
  match direction with
  | asc => comparison
  | desc => num_neg comparison
  end.

Definition sortVehicles (vehicles : list Vehicle) (sortBy : VehicleKey)
    (direction : Direction) : list Vehicle :=
  sort (compareVehicles sortBy direction) vehicles.
End WithHost.

(** *** The rest of lib/csvParser *)

(** parsePrice; [None] is a null or undefined argument. *)
Definition parsePrice (priceStr : option JsString) : JsNum :=
  match priceStr with
  | None | Some [] => numZ 0
  | Some s => orZero (parseInt10 (filter (fun c => negb (N.eqb c 44)) s))
  end.

(** The keys of a raw row. *)
Definition key출품번호 : JsString := [52636; 54408; 48264; 54840]%N.
Definition key차량명 : JsString := [52264; 47049; 47749]%N.
Definition key출품가 : JsString := [52636; 54408; 44032]%N.
Definition key연식 : JsString := [50672; 49885]%N.
Definition key주행거리 : JsString := [51452; 54665; 44144; 47532]%N.
Definition key색상 : JsString := [49353; 49345]%N.
Definition key연료 : JsString := [50672; 47308]%N.
Definition key변속기 : JsString := [48320; 49549; 44592]%N.
Definition key평가점 : JsString := [54217; 44032; 51216]%N.

(** A raw row is an object of the parser; its fields are read as strings.
    Calling a string method on a value that is not a string throws, which
    transformVehicleData catches to return null: [None] below. *)

(** v.trim() on a value the guard has found truthy. *)
Definition trimOf (v : JsValue) : option JsString :=
  match v with
  | JStr s => Some (trim s)
  | _ => None
  end.

(** v?.trim() || fallback *)
Definition trimOr (v : JsValue) (fallback : JsString) : option JsString :=
  match v with
  | JUndefined | JNull => Some fallback
  | JStr s => Some (match trim s with [] => fallback | t => t end)
  | _ => None
  end.

(** parsePrice(v) for the value found in the row. *)
Definition parsePriceOf (v : JsValue) : option JsNum :=
  if negb (truthy v) then Some (numZ 0)
  else match v with
       | JStr s => Some (parsePrice (Some s))
       | _ => None
       end.

Section Transform.
Variable h : Host.

(** transformVehicleData *)
Definition transformVehicleData (row : JsObject) : option Vehicle :=
  if negb (truthy (obj_get row key출품번호)) || negb (truthy (obj_get row key차량명))
  then None
  else
    match trimOf (obj_get row key출품번호), trimOf (obj_get row key차량명),
          parsePriceOf (obj_get row key출품가),
          trimOr (obj_get row key주행거리) (str "0 Km"),
          trimOr (obj_get row key색상) [], trimOr (obj_get row key연료) [],
          trimOr (obj_get row key변속기) [], trimOr (obj_get row key평가점) [] with
    | Some number, Some name, Some price, Some mileage,
      Some colour, Some fuel, Some gear, Some grade =>
        Some {| 출품번호 := number; 차량명 := name; 출품가 := price;
                연식 := orZero (parseInt10 (ToString h (obj_get row key연식)));
                주행거리 := mileage; 색상 := colour; 연료 := fuel;
                변속기 := Some gear; 평가점 := grade |}
    | _, _, _, _, _, _, _, _ => None
    end.

(** data.map(transformVehicleData).filter(v => v !== null) *)
Fixpoint toVehicles (rows : list JsObject) : list Vehicle :=
  match rows with
  | [] => []
  | row :: rest =>
      match transformVehicleData row with
      | Some v => v :: toVehicles rest
      | None => toVehicles rest
      end
  end.
End Transform.

(** VehicleStats.  The two count tables are objects, written and read by
    name like any other: a name that Object.prototype also has finds the
    inherited member on the first read. *)
Record YearRange : Type := { min : JsNum; max : JsNum }.

Record VehicleStats : Type := {
  totalVehicles : nat;
  averagePrice : JsNum;
  averageMileage : JsNum;
  yearRange : YearRange;
  fuelTypes : JsObject;
  transmissionTypes : JsObject
}.

(** v || 0 *)
Definition orZeroValue (v : JsValue) : JsValue :=
  if truthy v then v else JNum (numZ 0).

(** What the forEach of calculateStats keeps up to date. *)
Record Running : Type := {
  totalPrice : JsNum;
  totalMileage : JsNum;
  range : YearRange;
  fuels : JsObject;
  gears : JsObject
}.

Section Stats.
Variable h : Host.

(** v + 1: the sum of two numbers, and the text of v followed by "1" when v
    is a string or an object (a Date, Object.prototype or a function turns
    into its text). *)
Definition plusOne (v : JsValue) : JsValue :=
  match v with
  | JUndefined => JNum NaN
  | JNull => JNum (numZ 1)
  | JBool true => JNum (numZ 2)
  | JBool false => JNum (numZ 1)
  | JNum n => JNum (num_add n (numZ 1))
  | JStr s => JStr (s ++ str "1")
  | JDate _ | JMember _ => JStr (ToString h v ++ str "1")
  end.

(** table[k] = (table[k] || 0) + 1 *)
Definition countUp (table : JsObject) (k : JsString) : JsObject :=
  obj_set table k (plusOne (orZeroValue (obj_get table k))).

Definition tellVehicle (r : Running) (vehicle : Vehicle) : Running :=
  {| totalPrice := num_add (totalPrice r) (출품가 vehicle);
     totalMileage := num_add (totalMileage r) (parseMileage (Some (주행거리 vehicle)));
     range :=
       if num_gt (연식 vehicle) (numZ 0)
       then {| min := mathMin (min (range r)) (연식 vehicle);
               max := mathMax (max (range r)) (연식 vehicle) |}
       else range r;
     fuels :=
       match 연료 vehicle with
       | [] => fuels r
       | fuel => countUp (fuels r) fuel
       end;
     gears :=
       match 변속기 vehicle with
       | None | Some [] => gears r
       | Some gear => countUp (gears r) gear
       end |}.

Definition calculateStats (vehicles : list Vehicle) : VehicleStats :=
  let start :=
    {| totalPrice := numZ 0; totalMileage := numZ 0;
       range := {| min := PosInf; max := NegInf |}; fuels := []; gears := [] |} in
  match vehicles with
  | [] =>
      {| totalVehicles := 0; averagePrice := numZ 0; averageMileage := numZ 0;
         yearRange := range start; fuelTypes := []; transmissionTypes := [] |}
  | _ =>
      let r := fold_left tellVehicle vehicles start in
      let count := numZ (Z.of_nat (List.length vehicles)) in
      {| totalVehicles := List.length vehicles;
         averagePrice := mathRound (num_div (totalPrice r) count false);
         averageMileage := mathRound (num_div (totalMileage r) count false);
         yearRange :=
           if num_eq (min (range r)) PosInf
           then {| min := numZ 0; max := numZ 0 |}
           else range r;
         fuelTypes := fuels r;
         transmissionTypes := gears r |}
  end.
End Stats.

(** The filters object of filterVehicles; an absent property is [None]. *)
Record VehicleFilters : Type := {
  searchTerm : option JsString;
  minPrice : option JsNum;
  maxPrice : option JsNum;
  minYear : option JsNum;
  maxYear : option JsNum;
  fuelType : option JsString;
  transmission : option JsString
}.

Definition noFilters : VehicleFilters :=
  {| searchTerm := None; minPrice := None; maxPrice := None; minYear := None;
     maxYear := None; fuelType := None; transmission := None |}.

Section Filter.
Variable h : Host.

(** The callback of vehicles.filter: [true] when the vehicle stays. *)
Definition keepVehicle (filters : VehicleFilters) (vehicle : Vehicle) : bool :=
  match searchTerm filters with
  | Some ((_ :: _) as given) =>
      let term := toLowerCase h given in
      includes (toLowerCase h (차량명 vehicle)) term
      || includes (toLowerCase h (출품번호 vehicle)) term
  | _ => true
  end
  && match minPrice filters with
     | Some bound => negb (num_lt (출품가 vehicle) bound)
     | None => true
     end
  && match maxPrice filters with
     | Some bound => negb (num_gt (출품가 vehicle) bound)
     | None => true
     end
  && match minYear filters with
     | Some bound => negb (num_lt (연식 vehicle) bound)
     | None => true
     end
  && match maxYear filters with
     | Some bound => negb (num_gt (연식 vehicle) bound)
     | None => true
     end
  && match fuelType filters with
     | Some ((_ :: _) as fuel) => str_eqb (연료 vehicle) fuel
     | _ => true
     end
  && match transmission filters with
     | Some ((_ :: _) as gear) =>
         match 변속기 vehicle with
         | Some own => str_eqb own gear
         | None => false
         end
     | _ => true
     end.

Definition filterVehicles (vehicles : list Vehicle) (filters : VehicleFilters)
  : list Vehicle :=
  filter (keepVehicle filters) vehicles.
End Filter.

End CsvParser.

(** *** parseVehicleXLSX, with the ParseResult of types/vehicle *)

Module VehicleFile.
Import XlsxParser CsvParser.

Record ParseResult : Type := {
  data : list Vehicle;
  stats : VehicleStats;
  error : option JsString
}.

(** What the catch clause resolves with. *)
Definition failed (message : JsString) : ParseResult :=
  {| data := [];
     stats := {| totalVehicles := 0; averagePrice := numZ 0; averageMileage := numZ 0;
                 yearRange := {| min := numZ 0; max := numZ 0 |};
                 fuelTypes := []; transmissionTypes := [] |};
     error := Some message |}.

Section WithHost.
Variable h : Host.

(** parseVehicleXLSX; [xlsx] is how reading the first sheet of the buffer
    ends. *)
Definition parseVehicleXLSX (xlsx : Completion (list (list JsValue))) : ParseResult :=
  match xlsx with
  | Returns rawData =>
      let result :=
        XlsxUtils.parseWorksheetRobust h rawData
          {| XlsxUtils.minHeaderColumns := Some 2;
             XlsxUtils.maxHeaderSearchRows := Some 20;
             XlsxUtils.skipEmptyRows := Some true;
             XlsxUtils.fallbackColumnPrefix := Some (str "Column") |} in
      let vehicles := toVehicles h (XlsxUtils.data result) in
      {| data := vehicles; stats := calculateStats h vehicles; error := None |}
  | Throws m =>
      failed (match m with
              | Some message => message
              | None => str "Unknown error parsing XLSX"
              end)
  end.
End WithHost.

End VehicleFile.

(* ================================================================== *)
(** ** The two API routes: GET of the vehicle list, and the upload *)
(* ================================================================== *)

Module Routes.
Import XlsxParser CsvParser.

(** The object that GET hands to NextResponse.json. *)
Record CarsPage : Type := {
  data : list Vehicle;
  total : nat;
  page : JsNum;
  limit : JsNum;
  totalPages : JsNum
}.

(** JSON, as JSON.stringify writes the response: an object is the list of
    its properties in their order. *)
#[local] Unset Elimination Schemes.
Inductive Json : Type :=
| JsonNull
| JsonNumber (q : Q)
| JsonString (s : JsString)
| JsonArray (items : list Json)
| JsonObject (fields : list (JsString * Json)).
#[local] Set Elimination Schemes.

(** A number in JSON: NaN and the infinities are written null. *)
Definition jsonNumber (x : JsNum) : Json :=
  match x with
  | Fin q => JsonNumber q
  | _ => JsonNull
  end.

(** A vehicle in JSON; a property that is undefined is left out. *)
Definition jsonVehicle (v : Vehicle) : Json :=
  JsonObject
    ([ (key출품번호, JsonString (출품번호 v)); (key차량명, JsonString (차량명 v));
       (key출품가, jsonNumber (출품가 v)); (key연식, jsonNumber (연식 v));
       (key주행거리, JsonString (주행거리 v)); (key색상, JsonString (색상 v));
       (key연료, JsonString (연료 v)) ]
     ++ match 변속기 v with
        | Some gear => [(key변속기, JsonString gear)]
        | None => []
        end
     ++ [ (key평가점, JsonString (평가점 v)) ]).

Definition jsonBody (answer : CarsPage) : Json :=
  JsonObject
    [ (str "data", JsonArray (map jsonVehicle (data answer)));
      (str "total", JsonNumber (inject_Z (Z.of_nat (total answer))));
      (str "page", jsonNumber (page answer));
      (str "limit", jsonNumber (limit answer));
      (str "totalPages", jsonNumber (totalPages answer)) ].

(** body[name] of a JSON object that was read back. *)
Definition jsonField (body : Json) (name : JsString) : option Json :=
  match body with
  | JsonObject fields =>
      match find (fun kv => str_eqb (fst kv) name) fields with
      | Some kv => Some (snd kv)
      | None => None
      end
  | _ => None
  end.

(** A response: its status and its JSON body. *)
Record Response : Type := {
  status : Z;
  body : Json
}.

(** sortBy as keyof Vehicle: the key a query string names, if any. *)
Definition keyNamed (name : JsString) : option VehicleKey :=
  if str_eqb name key출품번호 then Some K출품번호
  else if str_eqb name key차량명 then Some K차량명
  else if str_eqb name key출품가 then Some K출품가
  else if str_eqb name key연식 then Some K연식
  else if str_eqb name key주행거리 then Some K주행거리
  else if str_eqb name key색상 then Some K색상
  else if str_eqb name key연료 then Some K연료
  else if str_eqb name key변속기 then Some K변속기
  else if str_eqb name key평가점 then Some K평가점
  else None.

(** searchParams.get(name) || fallback: a missing or empty parameter takes
    the fallback. *)
Definition paramOr (given : option JsString) (fallback : JsString) : JsString :=
  match given with
  | Some ((_ :: _) as s) => s
  | _ => fallback
  end.

(** The result of upload's parseFile. *)
Record UploadResult : Type := {
  records : list JsObject;
  columnNames : list JsString;
  problem : option JsString
}.

Section WithHost.
Variable h : Host.

(** The page that GET computes, from the vehicles that parseVehicleCSV
    returned and the five query parameters: filter by the search term, sort,
    cut out the page.  A sortBy that names no field of Vehicle makes every
    comparison 0; a sortOrder other than asc sorts descending. *)
Definition getCars (cars : list Vehicle)
    (pageParam limitParam sortByParam sortOrderParam searchParam : option JsString)
  : CarsPage :=
  let page := parseIntAuto (paramOr pageParam (str "1")) in
  let limit := parseIntAuto (paramOr limitParam (str "20")) in
  let sortBy := paramOr sortByParam key출품번호 in
  let sortOrder := paramOr sortOrderParam (str "asc") in
  let search := paramOr searchParam [] in
  let filteredCars :=
    filterVehicles h cars
      {| searchTerm := Some search; minPrice := None; maxPrice := None;
         minYear := None; maxYear := None; fuelType := None;
         transmission := None |} in
  let direction := if str_eqb sortOrder (str "asc") then asc else desc in
  let sortedCars :=
    match keyNamed sortBy with
    | Some key => sortVehicles h filteredCars key direction
    | None => sort (fun _ _ => numZ 0) filteredCars
    end in
  let startIndex := num_mul (num_add page (numZ (-1))) limit in
  let endIndex := num_add startIndex limit in
  {| data := slice sortedCars startIndex endIndex;
     total := List.length sortedCars;
     page := page;
     limit := limit;
     totalPages :=
       mathCeil (num_div (numZ (Z.of_nat (List.length sortedCars))) limit
                   (parsesNegativeZero (paramOr limitParam (str "20")))) |}.

(** GET, from what parseVehicleCSV resolved with: an error in the result
    is thrown and answered with status 500, anything else with the page
    written as JSON. *)
Definition GET (result : VehicleFile.ParseResult)
    (pageParam limitParam sortByParam sortOrderParam searchParam : option JsString)
  : Response :=
  match VehicleFile.error result with
  | Some (_ :: _) =>
      {| status := 500;
         body := JsonObject [(str "error", JsonString (str "Failed to parse CSV data"))] |}
  | _ =>
      {| status := 200;
         body := jsonBody (getCars (VehicleFile.data result) pageParam limitParam
                             sortByParam sortOrderParam searchParam) |}
  end.

(** parseFile of the upload route.  The file enters through library calls,
    of which the name picks one: [xlsx] is how reading the first sheet ends,
    [csv] how Papa.parse of the prepared text ends (its results.data, or an
    error reported to the error callback or thrown). *)
Definition parseFile (name : JsString)
    (xlsx : Completion (list (list JsValue)))
    (csv : Completion (list JsObject) + JsString) : UploadResult :=
  let fileName := toLowerCase h name in
  let caught (message : option JsString) :=
    {| records := []; columnNames := [];
       problem := Some (match message with
                        | Some m => m
                        | None => str "Unknown error parsing file"
                        end) |} in
  if endsWith fileName (str ".xlsx") || endsWith fileName (str ".xls") then
    match xlsx with
    | Returns rawData =>
        let result :=
          XlsxUtils.parseWorksheetRobust h rawData
            {| XlsxUtils.minHeaderColumns := Some 2;
               XlsxUtils.maxHeaderSearchRows := Some 20;
               XlsxUtils.skipEmptyRows := Some true;
               XlsxUtils.fallbackColumnPrefix := Some (str "Column") |} in
        if (List.length (XlsxUtils.data result) =? 0)%nat
           && (XlsxUtils.headerRowIndex result =? -1)
        then {| records := []; columnNames := [];
                problem := Some (str "No valid data found in file") |}
        else {| records := XlsxUtils.data result;
                columnNames := XlsxUtils.columns result;
                problem := None |}
    | Throws m => caught m
    end
  else if endsWith fileName (str ".csv") then
    match csv with
    | inl (Returns rows) =>
        {| records := rows;
           columnNames := match rows with [] => [] | first :: _ => obj_keys first end;
           problem := None |}
    | inl (Throws m) => caught m
    | inr message => {| records := []; columnNames := []; problem := Some message |}
    end
  else
    {| records := []; columnNames := [];
       problem := Some (str "Unsupported file format. Please upload CSV or XLSX files.") |}.
End WithHost.

End Routes.

(* ================================================================== *)
(** ** A host for ASCII data *)
(* ================================================================== *)

(** An instance of [Host] on which the definitions can be run: exact for
    lower-casing ASCII text and for the text of integers; it orders strings
    by code units and recognises no date. *)
Module AsciiHost.

Fixpoint codeUnitCompare (a b : JsString) : Z :=
  match a, b with
  | [], [] => 0
  | [], _ :: _ => -1
  | _ :: _, [] => 1
  | x :: a', y :: b' =>
      match N.compare x y with
      | Lt => -1
      | Gt => 1
      | Eq => codeUnitCompare a' b'
      end
  end.

Definition numberText (n : JsNum) : JsString :=
  match n with
  | NaN => str "NaN"
  | PosInf => str "Infinity"
  | NegInf => str "-Infinity"
  | Fin q =>
      let q' := Qred q in
      match Qden q' with
      | 1%positive => str (NilZero.string_of_int (Z.to_int (Qnum q')))
      | d => str (NilZero.string_of_int (Z.to_int (Qnum q')))
             ++ str "/" ++ str (NilZero.string_of_int (Z.to_int (Zpos d)))
      end
  end.

Definition functionText (m : Member) : JsString :=
  str "function "
  ++ match m with MConstructor => str "Object" | _ => memberName m end
  ++ str "() { [native code] }".

Definition host : Host :=
  {| toLowerCase := map asciiLower;
     localeCompare := codeUnitCompare;
     parseDate := fun _ => NaN;
     numberToString := numberText;
     dateToString := fun _ => str "Invalid Date";
     functionToString := functionText |}.

End AsciiHost.

(* ================================================================== *)
(** ** Sample inputs *)
(* ================================================================== *)

(** A grid as in Scenario B: one non-empty cell in each of rows 0-2, five in
    row 3, then data. *)
Definition scenarioB : list (list JsValue) :=
  let e := JStr [] in
  [ [text "Report"; e; e; e; e];
    [e; text "2025-10-11"; e; e; e];
    [e; e; JNull; text "  "; text "page 1"];
    [text "no"; text "name"; text "price"; text "year"; text "fuel"];
    [text "0001"; text "Avante"; text "1000"; text "2020"; text "LPG"] ].

Definition sampleVehicle (mileage : string) : CsvParser.Vehicle :=
  {| CsvParser.출품번호 := str "0001"; CsvParser.차량명 := str "Avante";
     CsvParser.출품가 := numZ 1000; CsvParser.연식 := numZ 2020;
     CsvParser.주행거리 := str mileage; CsvParser.색상 := []; CsvParser.연료 := [];
     CsvParser.변속기 := None; CsvParser.평가점 := [] |}.

(* ================================================================== *)
(** ** Facts about the run-time model *)
(* ================================================================== *)

Module JSFacts.

Lemma str_eqb_eq (a b : JsString) : str_eqb a b = true <-> a = b.
Proof.
  revert b; induction a as [|x a IH]; intros [|y b]; simpl; split;
    try congruence; try reflexivity.
  - intros H. apply andb_true_iff in H as [H1 H2].
    apply N.eqb_eq in H1. apply IH in H2. congruence.
  - intros H. injection H as -> ->. rewrite N.eqb_refl. simpl. now apply IH.
Qed.

Lemma str_eqb_refl (a : JsString) : str_eqb a a = true.
Proof. now apply str_eqb_eq. Qed.

Lemma str_eqb_neq (a b : JsString) : str_eqb a b = false <-> a <> b.
Proof.
  split.
  - intros H E. apply str_eqb_eq in E. congruence.
  - intros H. destruct (str_eqb a b) eqn:E; [|reflexivity].
    apply str_eqb_eq in E. contradiction.
Qed.

Lemma str_eqb_nil (a : JsString) :
  str_eqb a [] = match a with [] => true | _ => false end.
Proof. now destruct a. Qed.

(** *** trim *)

Section DropWhile.
Context {A : Type} (p : A -> bool).

Lemma dropWhile_suffix (l : list A) : exists pre, l = pre ++ dropWhile p l.
Proof.
  induction l as [|x l [pre IH]]; simpl.
  - now exists [].
  - destruct (p x).
    + exists (x :: pre). simpl. now f_equal.
    + now exists [].
Qed.

Lemma dropWhile_head (l : list A) :
  match dropWhile p l with [] => True | x :: _ => p x = false end.
Proof.
  induction l as [|x l IH]; simpl; [exact I|].
  destruct (p x) eqn:E; [exact IH | exact E].
Qed.

Lemma dropWhile_fixed (l : list A) :
  match l with [] => True | x :: _ => p x = false end -> dropWhile p l = l.
Proof. destruct l as [|x l]; simpl; [reflexivity|]. now intros ->. Qed.

Lemma dropWhile_idem (l : list A) :
  dropWhile p (dropWhile p l) = dropWhile p l.
Proof. apply dropWhile_fixed, dropWhile_head. Qed.

(** Stripping from the end leaves a prefix. *)
Lemma dropWhile_rev_prefix (l : list A) :
  exists suf, l = rev (dropWhile p (rev l)) ++ suf.
Proof.
  destruct (dropWhile_suffix (rev l)) as [pre E].
  exists (rev pre).
  rewrite <- rev_app_distr, <- E. now rewrite rev_involutive.
Qed.
End DropWhile.

Lemma trimEnd_idem (s : JsString) : trimEnd (trimEnd s) = trimEnd s.
Proof.
  unfold trimEnd. rewrite rev_involutive. now rewrite dropWhile_idem.
Qed.

Lemma trimStart_trimEnd (s : JsString) :
  trimStart s = s -> trimStart (trimEnd s) = trimEnd s.
Proof.
  intros E. unfold trimStart in *. apply dropWhile_fixed.
  destruct (dropWhile_rev_prefix isWhiteSpace s) as [suf P].
  fold (trimEnd s) in P.
  destruct (trimEnd s) as [|x r]; [exact I|].
  rewrite P in E. simpl in E.
  destruct (isWhiteSpace x) eqn:W; [|reflexivity].
  exfalso.
  destruct (dropWhile_suffix isWhiteSpace (r ++ suf)) as [pre Q].
  rewrite E in Q.
  apply (f_equal (@List.length N)) in Q.
  rewrite !length_app in Q. simpl in Q. rewrite length_app in Q. lia.
Qed.

Lemma trim_idem (s : JsString) : trim (trim s) = trim s.
Proof.
  unfold trim.
  rewrite (trimStart_trimEnd (trimStart s)).
  - apply trimEnd_idem.
  - unfold trimStart. apply dropWhile_idem.
Qed.

(** *** Objects *)

Lemma inherited_proto : inherited protoKey = Some MProto.
Proof. reflexivity. Qed.

Lemma inherited_name (k : JsString) (m : Member) :
  inherited k = Some m -> memberName m = k.
Proof.
  unfold inherited. intros H. apply find_some in H as [_ H]. now apply str_eqb_eq.
Qed.

Lemma inherited_member (m : Member) : inherited (memberName m) = Some m.
Proof. destruct m; reflexivity. Qed.

Lemma obj_get_absent (o : JsObject) (k : JsString) :
  ~ In k (own_keys o) ->
  obj_get o k = match inherited k with Some m => JMember m | None => JUndefined end.
Proof.
  induction o as [|[k' v] o IH]; simpl; [reflexivity|].
  intros H. destruct (str_eqb k' k) eqn:E.
  - apply str_eqb_eq in E. tauto.
  - apply IH. tauto.
Qed.

Lemma obj_get_own (o : JsObject) (k : JsString) :
  In k (own_keys o) -> In (obj_get o k) (map snd o).
Proof.
  induction o as [|[k' v] o IH]; simpl; [intros []|].
  intros H. destruct (str_eqb k' k) eqn:E; [now left|].
  right. apply IH. destruct H as [H | H]; [|exact H].
  apply str_eqb_neq in E. contradiction.
Qed.

Lemma own_keys_set (o : JsObject) (k : JsString) (v : JsValue) (x : JsString) :
  In x (own_keys (obj_set o k v))
  <-> In x (own_keys o) \/ (x = k /\ k <> protoKey).
Proof.
  induction o as [|[k' v'] o IH]; simpl.
  - destruct (str_eqb k protoKey) eqn:E; simpl.
    + apply str_eqb_eq in E. tauto.
    + apply str_eqb_neq in E. intuition congruence.
  - destruct (str_eqb k' k) eqn:E; simpl.
    + apply str_eqb_eq in E. subst. intuition.
    + rewrite IH. tauto.
Qed.

Lemma obj_set_NoDup (o : JsObject) (k : JsString) (v : JsValue) :
  NoDup (own_keys o) -> NoDup (own_keys (obj_set o k v)).
Proof.
  induction o as [|[k' v'] o IH]; simpl; intros H.
  - destruct (str_eqb k protoKey); [constructor|].
    constructor; [intros []|constructor].
  - inversion H as [|? ? Hn Hd]; subst.
    destruct (str_eqb k' k) eqn:E; simpl.
    + now constructor.
    + constructor; [|now apply IH].
      intros Hin. apply own_keys_set in Hin as [Hin | [-> _]]; [contradiction|].
      rewrite str_eqb_refl in E. discriminate.
Qed.

(** An assignment is read back, unless it went to the setter of
    __proto__. *)
Lemma obj_get_set_same (o : JsObject) (k : JsString) (v : JsValue) :
  k <> protoKey \/ In k (own_keys o) -> obj_get (obj_set o k v) k = v.
Proof.
  induction o as [|[k' v'] o IH]; simpl; intros H.
  - destruct H as [H | []]. apply str_eqb_neq in H. rewrite H. simpl.
    now rewrite str_eqb_refl.
  - destruct (str_eqb k' k) eqn:E; simpl; rewrite E; [reflexivity|].
    apply IH. destruct H as [H | [H | H]]; [now left | | now right].
    apply str_eqb_neq in E. contradiction.
Qed.

Lemma obj_set_proto (o : JsObject) (v : JsValue) :
  ~ In protoKey (own_keys o) -> obj_set o protoKey v = o.
Proof.
  induction o as [|[k' v'] o IH]; simpl; intros H; [reflexivity|].
  destruct (str_eqb k' protoKey) eqn:E.
  - apply str_eqb_eq in E. tauto.
  - f_equal. apply IH. tauto.
Qed.

Lemma obj_get_set_other (o : JsObject) (k x : JsString) (v : JsValue) :
  x <> k -> obj_get (obj_set o k v) x = obj_get o x.
Proof.
  intros Hx. induction o as [|[k' v'] o IH]; simpl.
  - destruct (str_eqb k protoKey); [reflexivity|]. simpl.
    destruct (str_eqb k x) eqn:E; [|reflexivity].
    apply str_eqb_eq in E. congruence.
  - destruct (str_eqb k' k) eqn:E; simpl.
    + apply str_eqb_eq in E. subst k'.
      destruct (str_eqb k x) eqn:E2; [|reflexivity].
      apply str_eqb_eq in E2. congruence.
    + destruct (str_eqb k' x); [reflexivity | exact IH].
Qed.

(** *** The order of Object.keys *)

Lemma insertByIndex_perm (i : Z) (e : JsString * JsValue)
    (l : list (Z * (JsString * JsValue))) :
  Permutation (insertByIndex i e l) ((i, e) :: l).
Proof.
  induction l as [|[j e'] l IH]; simpl; [reflexivity|].
  destruct (i <? j); [reflexivity|].
  rewrite IH. apply perm_swap.
Qed.

Lemma obj_entries_perm (o : JsObject) : Permutation (obj_entries o) o.
Proof.
  unfold obj_entries. induction o as [|e o IH]; simpl; [reflexivity|].
  destruct (arrayIndex (fst e)) as [i|].
  - rewrite (Permutation_map snd (insertByIndex_perm i e (indexEntries o))).
    simpl. now constructor.
  - rewrite <- Permutation_middle. now constructor.
Qed.

Lemma obj_keys_perm (o : JsObject) : Permutation (obj_keys o) (own_keys o).
Proof. apply Permutation_map, obj_entries_perm. Qed.

Lemma obj_keys_In (o : JsObject) (k : JsString) :
  In k (obj_keys o) <-> In k (own_keys o).
Proof.
  split; apply Permutation_in; [|symmetry]; apply obj_keys_perm.
Qed.

Lemma obj_keys_NoDup (o : JsObject) : NoDup (own_keys o) -> NoDup (obj_keys o).
Proof. apply Permutation_NoDup. symmetry. apply obj_keys_perm. Qed.

Lemma obj_values_In (o : JsObject) (v : JsValue) :
  In v (obj_values o) <-> In v (map snd o).
Proof.
  split; apply Permutation_in; [|symmetry]; apply Permutation_map, obj_entries_perm.
Qed.



(** Objects built by a run of assignments. *)
Section Assignments.
Context {X : Type} (key : X -> JsString) (val : X -> JsValue).

Lemma assignAll_keys (l : list X) (o : JsObject) (k : JsString) :
  In k (own_keys (assignAll key val l o))
  <-> In k (own_keys o) \/ (In k (map key l) /\ k <> protoKey).
Proof.
  revert o; induction l as [|x l IH]; intros o; simpl.
  - tauto.
  - unfold assignAll in *. simpl. rewrite IH, own_keys_set.
    intuition congruence.
Qed.

Lemma assignAll_NoDup (l : list X) (o : JsObject) :
  NoDup (own_keys o) -> NoDup (own_keys (assignAll key val l o)).
Proof.
  revert o; induction l as [|x l IH]; intros o H; simpl; [exact H|].
  apply IH. now apply obj_set_NoDup.
Qed.

(** No run of assignments gives an object its own __proto__. *)
Lemma assignAll_proto (l : list X) (o : JsObject) :
  ~ In protoKey (own_keys o) ->
  ~ In protoKey (own_keys (assignAll key val l o))
  /\ obj_get (assignAll key val l o) protoKey = JMember MProto.
Proof.
  intros H.
  assert (Hn : ~ In protoKey (own_keys (assignAll key val l o)))
    by (rewrite assignAll_keys; tauto).
  split; [exact Hn|]. now rewrite (obj_get_absent _ _ Hn).
Qed.

(** Every value read back under another name was put there by one of the
    assignments, or was there before. *)
Lemma assignAll_get (l : list X) (o : JsObject) (k : JsString) :
  k <> protoKey ->
  (exists x, In x l /\ key x = k /\ obj_get (assignAll key val l o) k = val x)
  \/ (~ In k (map key l) /\ obj_get (assignAll key val l o) k = obj_get o k).
Proof.
  intros Hk. revert o; induction l as [|x l IH]; intros o; simpl.
  - right. tauto.
  - destruct (IH (obj_set o (key x) (val x))) as [(y & Hy & Hky & Hg) | (Hn & Hg)].
    + left. exists y. tauto.
    + destruct (list_eq_dec N.eq_dec (key x) k) as [E | NE].
      * left. exists x. subst k. rewrite obj_get_set_same in Hg by now left. tauto.
      * right. rewrite obj_get_set_other in Hg by congruence.
        split; [|exact Hg]. intros [H|H]; congruence.
Qed.
End Assignments.

End JSFacts.

(* ================================================================== *)
(** ** Facts about numbers and about sort *)
(* ================================================================== *)

Module SortFacts.

Lemma Qcompare_Lt_iff (a b : Q) : Qcompare a b = Lt <-> Qlt a b.
Proof. symmetry. apply Qlt_alt. Qed.

Lemma Qcompare_Lt (a b : Q) : Qcompare a b = Lt -> Qlt a b.
Proof. apply Qcompare_Lt_iff. Qed.

Lemma num_lt_Fin (a b : Q) : num_lt (Fin a) (Fin b) = true <-> Qlt a b.
Proof.
  simpl. rewrite <- Qcompare_Lt_iff.
  destruct (Qcompare a b); split; congruence.
Qed.

Lemma num_lt_asym (x y : JsNum) : num_lt x y = true -> num_lt y x = false.
Proof.
  destruct x as [| |a|], y as [| |b|]; simpl; try congruence.
  intros H. destruct (Qcompare b a) eqn:E; try reflexivity.
  apply Qcompare_Lt in E.
  destruct (Qcompare a b) eqn:F; try discriminate.
  apply Qcompare_Lt in F. exfalso. lra.
Qed.

Lemma num_lt_cotrans (x y z : JsNum) :
  isNaN y = false -> num_lt x z = true ->
  num_lt x y = true \/ num_lt y z = true.
Proof.
  destruct x as [| |a|], y as [| |b|], z as [| |c|]; simpl;
    try congruence; try tauto.
  intros _ H.
  assert (Hac : Qlt a c) by now apply num_lt_Fin.
  destruct (Qlt_le_dec a b) as [L|L].
  - left. now apply (proj2 (num_lt_Fin a b)).
  - right. apply (proj2 (num_lt_Fin b c)). lra.
Qed.

(** The sign of a difference is the order of its operands. *)
Lemma negative_sub_Fin (a b : Q) :
  num_lt (Fin (Qminus a b)) (Fin (inject_Z 0)) = num_lt (Fin a) (Fin b).
Proof.
  apply eq_true_iff_eq. rewrite !num_lt_Fin. unfold inject_Z. split; intros H; lra.
Qed.

Lemma negative_sub (x y : JsNum) :
  isNaN x = false -> isNaN y = false ->
  negative (num_sub x y) = num_lt x y.
Proof.
  destruct x as [| |a|], y as [| |b|]; try (simpl; congruence); try reflexivity.
  intros _ _. apply negative_sub_Fin.
Qed.

Lemma Forall_perm {A} (P : A -> Prop) (l l' : list A) :
  Permutation l l' -> Forall P l -> Forall P l'.
Proof. intros H. exact (Permutation_Forall H). Qed.

Section Generic.
Context {A : Type} (comparefn : A -> A -> JsNum).

Lemma sink_perm (x : A) (l : list A) : Permutation (sink comparefn x l) (x :: l).
Proof.
  induction l as [|y l IH]; simpl; [reflexivity|].
  destruct (negative (comparefn x y)); [|reflexivity].
  rewrite IH. apply perm_swap.
Qed.

Lemma sinks_perm (l acc : list A) :
  Permutation (fold_left (fun s x => sink comparefn x s) l acc) (l ++ acc).
Proof.
  revert acc; induction l as [|x l IH]; intros acc; simpl; [reflexivity|].
  rewrite IH, sink_perm. symmetry. apply Permutation_middle.
Qed.

(** sort rearranges its argument. *)
Lemma sort_perm (l : list A) : Permutation (sort comparefn l) l.
Proof.
  unfold sort. rewrite <- Permutation_rev, sinks_perm. now rewrite app_nil_r.
Qed.
End Generic.

(** Elements that the comparator always sends behind the others. *)
Section Sinking.
Context {A : Type} (comparefn : A -> A -> JsNum) (late : A -> bool).
Hypothesis late_stays : forall x y, late x = true -> negative (comparefn x y) = false.
Hypothesis early_passes :
  forall x y, late x = false -> late y = true -> negative (comparefn x y) = true.

(** The sorted part, last element first: the late elements, then the rest. *)
Definition lateFirst (l : list A) : Prop :=
  exists ls es, l = ls ++ es /\ Forall (fun x => late x = true) ls
                /\ Forall (fun x => late x = false) es.

Lemma sink_past_late (x : A) (ls es : list A) :
  late x = false -> Forall (fun y => late y = true) ls ->
  sink comparefn x (ls ++ es) = ls ++ sink comparefn x es.
Proof.
  intros Hx Hl. induction Hl as [|y ls Hy _ IH]; simpl; [reflexivity|].
  rewrite (early_passes x y Hx Hy). now f_equal.
Qed.

Lemma sink_lateFirst (x : A) (l : list A) :
  lateFirst l -> lateFirst (sink comparefn x l).
Proof.
  intros (ls & es & -> & Hl & He).
  destruct (late x) eqn:Hx.
  - exists (x :: ls), es. split; [|split; [now constructor | exact He]].
    destruct ls as [|y ls]; simpl.
    + destruct es as [|y es]; simpl; [reflexivity|].
      now rewrite (late_stays x y Hx).
    + now rewrite (late_stays x y Hx).
  - exists ls, (sink comparefn x es). split; [now apply sink_past_late|].
    split; [exact Hl|].
    apply (Forall_perm _ (x :: es)).
    + symmetry. apply sink_perm.
    + now constructor.
Qed.

Lemma sinks_lateFirst (l acc : list A) :
  lateFirst acc -> lateFirst (fold_left (fun s x => sink comparefn x s) l acc).
Proof.
  revert acc; induction l as [|x l IH]; intros acc H; simpl; [exact H|].
  apply IH. now apply sink_lateFirst.
Qed.

(** In the sorted array the late elements form the tail. *)
Lemma sort_late_last (l : list A) :
  exists es ls, sort comparefn l = es ++ ls
                /\ Forall (fun x => late x = false) es
                /\ Forall (fun x => late x = true) ls.
Proof.
  destruct (sinks_lateFirst l []) as (ls & es & E & Hl & He).
  - exists [], []. repeat split; constructor.
  - exists (rev es), (rev ls). unfold sort. rewrite E, rev_app_distr.
    repeat split; now apply Forall_rev.
Qed.
End Sinking.

(** The same for the merging model. *)
Section Merging.
Context {A : Type} (comparefn : A -> A -> JsNum) (late : A -> bool).
Hypothesis late_stays : forall x y, late x = true -> negative (comparefn x y) = false.
Hypothesis early_passes :
  forall x y, late x = false -> late y = true -> negative (comparefn x y) = true.

Lemma merge_nil_r (l : list A) : merge comparefn l [] = l.
Proof. now destruct l. Qed.

Lemma merge_cons (a b : A) (l r : list A) :
  merge comparefn (a :: l) (b :: r)
  = if negative (comparefn b a) then b :: merge comparefn (a :: l) r
    else a :: merge comparefn l (b :: r).
Proof. reflexivity. Qed.

Lemma merge_perm (l r : list A) : Permutation (merge comparefn l r) (l ++ r).
Proof.
  revert r; induction l as [|a l IHl]; intros r; [now destruct r|].
  induction r as [|b r IHr]; [rewrite merge_nil_r, app_nil_r; reflexivity|].
  rewrite merge_cons. destruct (negative (comparefn b a)).
  - rewrite IHr. apply (Permutation_middle (a :: l) r b).
  - simpl. now rewrite IHl.
Qed.

(** No element with a value stands behind one without. *)
Fixpoint lateLast (l : list A) : Prop :=
  match l with
  | [] => True
  | x :: t => if late x then Forall (fun y => late y = true) t else lateLast t
  end.

Lemma lateLast_split (l : list A) :
  lateLast l ->
  exists es ls, l = es ++ ls /\ Forall (fun x => late x = false) es
                /\ Forall (fun x => late x = true) ls.
Proof.
  induction l as [|x l IH]; simpl.
  - intros _. exists [], []. repeat split; constructor.
  - destruct (late x) eqn:E; intros H.
    + exists [], (x :: l). repeat split; constructor; assumption.
    + destruct (IH H) as (es & ls & -> & He & Hl).
      exists (x :: es), ls. repeat split; [constructor|]; assumption.
Qed.

Lemma all_late_lateLast (l : list A) :
  Forall (fun x => late x = true) l -> lateLast l.
Proof. destruct 1 as [|x l Hx Hl]; simpl; [exact I|]. now rewrite Hx. Qed.

Lemma merge_lateLast (l r : list A) :
  lateLast l -> lateLast r -> lateLast (merge comparefn l r).
Proof.
  revert r; induction l as [|a l IHl]; intros r; [now destruct r|].
  induction r as [|b r IHr]; [now rewrite merge_nil_r|].
  intros Hl Hr. rewrite merge_cons.
  destruct (negative (comparefn b a)) eqn:C.
  - assert (Hb : late b = false).
    { destruct (late b) eqn:E; [|reflexivity]. now rewrite late_stays in C. }
    simpl. rewrite Hb. simpl in Hr. rewrite Hb in Hr. now apply IHr.
  - simpl. simpl in Hl. destruct (late a) eqn:Ea.
    + assert (Hb : late b = true).
      { destruct (late b) eqn:E; [reflexivity|]. now rewrite early_passes in C. }
      simpl in Hr. rewrite Hb in Hr.
      apply (Forall_perm _ (l ++ b :: r)).
      * symmetry. apply merge_perm.
      * apply Forall_app. split; [exact Hl | now constructor].
    + now apply IHl.
Qed.

Definition runsLateLast (stack : list (option (list A))) : Prop :=
  Forall (fun run => match run with Some r => lateLast r | None => True end) stack.

Lemma pushRun_lateLast (stack : list (option (list A))) (run : list A) :
  runsLateLast stack -> lateLast run -> runsLateLast (pushRun comparefn stack run).
Proof.
  revert run; induction stack as [|[older|] stack IH]; intros run Hs Hr; simpl.
  - now repeat constructor.
  - inversion Hs; subst. constructor; [exact I|].
    apply IH; [assumption | now apply merge_lateLast].
  - inversion Hs; subst. now constructor.
Qed.

Lemma collapse_lateLast (stack : list (option (list A))) (newer : list A) :
  runsLateLast stack -> lateLast newer -> lateLast (collapse comparefn stack newer).
Proof.
  revert newer; induction stack as [|[older|] stack IH]; intros newer Hs Hn; simpl.
  - exact Hn.
  - inversion Hs; subst. apply IH; [assumption | now apply merge_lateLast].
  - inversion Hs; subst. now apply IH.
Qed.

(** Sorted by merging, the late elements form the tail as well. *)
Lemma mergeSort_late_last (l : list A) :
  exists es ls, mergeSort comparefn l = es ++ ls
                /\ Forall (fun x => late x = false) es
                /\ Forall (fun x => late x = true) ls.
Proof.
  apply lateLast_split. unfold mergeSort. apply collapse_lateLast; [|exact I].
  assert (H : forall stack, runsLateLast stack ->
            runsLateLast (fold_left (fun st x => pushRun comparefn st [x]) l stack)).
  { induction l as [|x l IH]; intros stack Hs; simpl; [exact Hs|].
    apply IH, pushRun_lateLast; [exact Hs|].
    simpl. destruct (late x); [constructor | exact I]. }
  apply H. constructor.
Qed.
End Merging.

Lemma filter_length_perm {A} (f : A -> bool) (l l' : list A) :
  Permutation l l' -> List.length (filter f l) = List.length (filter f l').
Proof.
  induction 1 as [| x l l' _ IH | x y l | l l' l'' _ IH1 _ IH2]; simpl.
  - reflexivity.
  - destruct (f x); simpl; congruence.
  - destruct (f x), (f y); reflexivity.
  - congruence.
Qed.

(** Where the late elements sit is fixed by how many there are. *)
Lemma late_mask {A} (late : A -> bool) (es ls l : list A) :
  Forall (fun x => late x = false) es -> Forall (fun x => late x = true) ls ->
  Permutation (es ++ ls) l ->
  map late (es ++ ls)
  = repeat false (List.length l - List.length (filter late l))
    ++ repeat true (List.length (filter late l)).
Proof.
  intros He Hl P.
  rewrite <- (filter_length_perm late _ _ P), <- (Permutation_length P).
  rewrite map_app, filter_app, !length_app.
  assert (E1 : filter late es = []).
  { clear P. induction He as [|x es Hx _ IH]; simpl; [reflexivity|]. now rewrite Hx. }
  assert (E2 : filter late ls = ls).
  { clear P. induction Hl as [|x ls Hx _ IH]; simpl; [reflexivity|].
    rewrite Hx. now f_equal. }
  rewrite E1, E2. simpl.
  replace (List.length es + List.length ls - List.length ls)%nat
    with (List.length es) by lia.
  f_equal.
  - clear P E1. induction He as [|x es Hx _ IH]; simpl; [reflexivity|]. now rewrite Hx, IH.
  - clear P E2. induction Hl as [|x ls Hx _ IH]; simpl; [reflexivity|]. now rewrite Hx, IH.
Qed.

(** A comparator that is the difference of a numeric key. *)
Section Keyed.
Context {A : Type} (comparefn : A -> A -> JsNum) (key : A -> JsNum).
Hypothesis key_number : forall x, isNaN (key x) = false.
Hypothesis compare_key :
  forall x y, negative (comparefn x y) = num_lt (key x) (key y).

Definition notBelow (x y : A) : Prop := num_lt (key x) (key y) = false.
Definition notAbove (x y : A) : Prop := num_lt (key y) (key x) = false.

Lemma notBelow_trans (x y z : A) : notBelow x y -> notBelow y z -> notBelow x z.
Proof.
  unfold notBelow. intros H1 H2.
  destruct (num_lt (key x) (key z)) eqn:E; [|reflexivity].
  destruct (num_lt_cotrans _ (key y) _ (key_number y) E); congruence.
Qed.

Lemma sink_descending (x : A) (l : list A) :
  StronglySorted notBelow l -> StronglySorted notBelow (sink comparefn x l).
Proof.
  induction 1 as [|y l Hs IH Hall]; simpl.
  - constructor; constructor.
  - rewrite compare_key. destruct (num_lt (key x) (key y)) eqn:E.
    + constructor; [exact IH|].
      apply (Forall_perm _ (x :: l)).
      * symmetry. apply sink_perm.
      * constructor; [|exact Hall]. now apply num_lt_asym.
    + constructor; [now constructor|].
      constructor; [exact E|].
      eapply Forall_impl; [|exact Hall].
      intros z Hz. now apply (notBelow_trans x y z).
Qed.

Lemma sinks_descending (l acc : list A) :
  StronglySorted notBelow acc ->
  StronglySorted notBelow (fold_left (fun s x => sink comparefn x s) l acc).
Proof.
  revert acc; induction l as [|x l IH]; intros acc H; simpl; [exact H|].
  apply IH. now apply sink_descending.
Qed.

Lemma sorted_snoc (R : A -> A -> Prop) (l : list A) (x : A) :
  StronglySorted R l -> Forall (fun y => R y x) l -> StronglySorted R (l ++ [x]).
Proof.
  induction 1 as [|y l Hs IH Hall]; simpl; intros Hx.
  - constructor; constructor.
  - inversion Hx as [|? ? Hyx Hlx]; subst.
    constructor; [now apply IH|].
    apply Forall_app. split; [exact Hall | now constructor].
Qed.

Lemma sorted_rev (l : list A) :
  StronglySorted notBelow l -> StronglySorted notAbove (rev l).
Proof.
  induction 1 as [|y l Hs IH Hall]; simpl; [constructor|].
  apply sorted_snoc; [exact IH|].
  apply Forall_rev. exact Hall.
Qed.

(** The sorted array is in ascending order of the key. *)
Lemma sort_ascending (l : list A) : StronglySorted notAbove (sort comparefn l).
Proof.
  unfold sort. apply sorted_rev, sinks_descending. constructor.
Qed.
End Keyed.

End SortFacts.

(* ================================================================== *)
(** ** Header discovery (lib/xlsxUtils) *)
(* ================================================================== *)

Module HeaderFacts.
Import XlsxUtils.

Section WithHost.
Variable h : Host.

(** A valid header row is not empty and has the asked number of cells. *)
Lemma valid_row (row : list JsValue) (minColumns : Z) :
  isValidHeaderRow h row minColumns = true ->
  row <> [] /\ minColumns <= nonEmptyCount h row.
Proof.
  destruct row as [|c row]; [discriminate|].
  unfold isValidHeaderRow. rewrite Z.geb_le. split; [discriminate | assumption].
Qed.

Lemma valid_of_count (row : list JsValue) (minColumns : Z) :
  0 < minColumns \/ row <> [] ->
  minColumns <= nonEmptyCount h row ->
  isValidHeaderRow h row minColumns = true.
Proof.
  intros Hne Hc. destruct row as [|c row].
  - destruct Hne as [Hm | Hr]; [|contradiction]. unfold nonEmptyCount in Hc.
    simpl in Hc. lia.
  - unfold isValidHeaderRow. now apply Z.geb_le.
Qed.

Lemma invalid_of_count (row : list JsValue) (minColumns : Z) :
  nonEmptyCount h row < minColumns ->
  isValidHeaderRow h row minColumns = false.
Proof.
  intros Hc. destruct (isValidHeaderRow h row minColumns) eqn:V; [|reflexivity].
  apply valid_row in V. lia.
Qed.

Lemma findHeaderRow_Some (minColumns : Z) (window : list (list JsValue))
    (i0 k : nat) (row : list JsValue) :
  findHeaderRow h minColumns i0 window = Some (k, row) ->
  exists i, k = (i0 + i)%nat /\ nth_error window i = Some row
            /\ isValidHeaderRow h row minColumns = true
            /\ forall j r, (j < i)%nat -> nth_error window j = Some r ->
                           isValidHeaderRow h r minColumns = false.
Proof.
  revert i0; induction window as [|r0 window IH]; intros i0; simpl; [discriminate|].
  destruct (isValidHeaderRow h r0 minColumns) eqn:E.
  - intros [= <- <-]. exists 0%nat.
    split; [lia|]. split; [reflexivity|]. split; [exact E|].
    intros j r Hj. lia.
  - intros H. destruct (IH _ H) as (i & -> & Hn & Hv & Hfirst).
    exists (S i).
    split; [lia|]. split; [exact Hn|]. split; [exact Hv|].
    intros [|j] r Hj; simpl.
    + now intros [= <-].
    + apply Hfirst. lia.
Qed.

Lemma findHeaderRow_None (minColumns : Z) (window : list (list JsValue)) (i0 : nat) :
  findHeaderRow h minColumns i0 window = None <->
  forall r, In r window -> isValidHeaderRow h r minColumns = false.
Proof.
  revert i0; induction window as [|r0 window IH]; intros i0; simpl.
  - split; [intros _ r [] | reflexivity].
  - destruct (isValidHeaderRow h r0 minColumns) eqn:E.
    + split; [discriminate|]. intros H. rewrite (H r0) in E by now left. discriminate.
    + rewrite IH. split.
      * intros H r [<-|Hr]; auto.
      * intros H r Hr. apply H. now right.
Qed.

(** The search ends at the first valid row of the window. *)
Lemma findHeaderRow_first (minColumns : Z) (window : list (list JsValue))
    (i : nat) (row : list JsValue) :
  nth_error window i = Some row ->
  isValidHeaderRow h row minColumns = true ->
  (forall j r, (j < i)%nat -> nth_error window j = Some r ->
               isValidHeaderRow h r minColumns = false) ->
  findHeaderRow h minColumns 0 window = Some (i, row).
Proof.
  intros Hn Hv Hfirst.
  destruct (findHeaderRow h minColumns 0 window) as [[k row']|] eqn:E.
  - apply findHeaderRow_Some in E as (i' & -> & Hn' & Hv' & Hfirst'). simpl.
    destruct (Nat.lt_trichotomy i' i) as [L | [-> | L]].
    + rewrite (Hfirst _ _ L Hn') in Hv'. discriminate.
    + congruence.
    + rewrite (Hfirst' _ _ L Hn) in Hv. discriminate.
  - rewrite findHeaderRow_None in E.
    rewrite (E row) in Hv; [discriminate|]. eapply nth_error_In; eauto.
Qed.

Lemma In_firstn {A} (n : nat) (l : list A) (x : A) :
  In x (firstn n l) -> In x l.
Proof.
  intros H. rewrite <- (firstn_skipn n l). apply in_or_app. now left.
Qed.

Lemma mapi_from_length {A B} (f : A -> nat -> B) (i : nat) (l : list A) :
  List.length (mapi_from f i l) = List.length l.
Proof. revert i; induction l as [|x l IH]; intros i; simpl; auto. Qed.

Lemma normalizeRow_nonempty (prefix : JsString) (row : list JsValue) :
  row <> [] -> normalizeRow h prefix row <> [].
Proof. destruct row; [contradiction|]. discriminate. Qed.

Lemma window_nth (maxRows : Z) (rawData : list (list JsValue)) (j : nat) :
  nth_error (firstn (Z.to_nat (searchLimit maxRows rawData)) rawData) j
  = if Z.of_nat j <? searchLimit maxRows rawData then nth_error rawData j else None.
Proof.
  rewrite nth_error_firstn.
  destruct (Z.of_nat j <? searchLimit maxRows rawData) eqn:E.
  - apply Z.ltb_lt in E.
    destruct (Nat.ltb_spec j (Z.to_nat (searchLimit maxRows rawData))); [reflexivity | lia].
  - apply Z.ltb_ge in E.
    destruct (Nat.ltb_spec j (Z.to_nat (searchLimit maxRows rawData))); [lia | reflexivity].
Qed.

(** What parseWorksheetRobust returns once the header is known. *)
Lemma parse_headerRowIndex (rawData : list (list JsValue)) (options : XLSXParseOptions)
    (index : Z) (headers : list JsString) :
  rawData <> [] -> headers <> [] ->
  discoverHeader h rawData (orDefault (minHeaderColumns options) 2)
    (orDefault (maxHeaderSearchRows options) 20)
    (orDefault (fallbackColumnPrefix options) (str "Column")) = (index, headers) ->
  headerRowIndex (parseWorksheetRobust h rawData options) = index.
Proof.
  intros Hr Hh E. unfold parseWorksheetRobust.
  destruct rawData as [|r0 rest]; [contradiction|].
  rewrite E. destruct headers; [contradiction | reflexivity].
Qed.
End WithHost.

End HeaderFacts.

Section HeaderClaims.
Import XlsxUtils HeaderFacts.
Variable h : Host.

(** C4: header discovery scans the rows of the search window
    0 .. min(maxHeaderSearchRows, totalRows) - 1 in order and takes the
    first one whose number of cells that are neither null nor undefined,
    nor empty after trimming, nor the text "undefined", reaches
    minHeaderColumns (2 by default): that row's index is the returned
    headerRowIndex and its normalized cells are the headers.  (In a grid
    with one such cell in each of rows 0-2 and five in row 3, the index
    is 3.)  The minimum is positive, or else the row has a cell, as every
    row of a grid read with blankrows: false has. *)
Theorem header_is_first_qualifying_row
    (rawData : list (list JsValue)) (options : XLSXParseOptions)
    (i : nat) (row : list JsValue) :
  let minColumns := orDefault (minHeaderColumns options) 2 in
  let maxRows := orDefault (maxHeaderSearchRows options) 20 in
  let prefix := orDefault (fallbackColumnPrefix options) (str "Column") in
  0 < minColumns \/ row <> [] ->
  nth_error rawData i = Some row ->
  Z.of_nat i < searchLimit maxRows rawData ->
  minColumns <= nonEmptyCount h row ->
  (forall j r, (j < i)%nat -> nth_error rawData j = Some r ->
               nonEmptyCount h r < minColumns) ->
  headerRowIndex (parseWorksheetRobust h rawData options) = Z.of_nat i
  /\ discoverHeader h rawData minColumns maxRows prefix
     = (Z.of_nat i, normalizeRow h prefix row).
Proof.
  intros minColumns maxRows prefix Hwf Hn Hlim Hcount Hfirst.
  assert (Hvalid : isValidHeaderRow h row minColumns = true)
    by now apply valid_of_count.
  assert (E : discoverHeader h rawData minColumns maxRows prefix
              = (Z.of_nat i, normalizeRow h prefix row)).
  { unfold discoverHeader.
    rewrite (findHeaderRow_first h minColumns _ i row); [reflexivity | | | ].
    - rewrite window_nth. apply Z.ltb_lt in Hlim. now rewrite Hlim.
    - exact Hvalid.
    - intros j r Hj. rewrite window_nth.
      destruct (Z.of_nat j <? searchLimit maxRows rawData); [|discriminate].
      intros Hr. apply invalid_of_count. now apply (Hfirst j r Hj). }
  split; [|exact E].
  apply (parse_headerRowIndex h rawData options _ _) in E; auto.
  - intros ->. destruct i; discriminate.
  - apply normalizeRow_nonempty. now apply valid_row in Hvalid.
Qed.

(** C5: on a non-empty grid in which no row of the search window qualifies
    as header, row 0 is the header; so header discovery on a non-empty
    grid always yields a header row (headerRowIndex is never -1).  The
    first row has a cell, as every row of a grid read with blankrows: false
    has. *)
Theorem first_row_is_fallback_header
    (rawData : list (list JsValue)) (options : XLSXParseOptions)
    (firstRow : list JsValue) (rest : list (list JsValue)) :
  let minColumns := orDefault (minHeaderColumns options) 2 in
  let maxRows := orDefault (maxHeaderSearchRows options) 20 in
  let prefix := orDefault (fallbackColumnPrefix options) (str "Column") in
  rawData = firstRow :: rest ->
  firstRow <> [] ->
  0 <= headerRowIndex (parseWorksheetRobust h rawData options)
  /\ ((forall j r, Z.of_nat j < searchLimit maxRows rawData ->
                   nth_error rawData j = Some r ->
                   nonEmptyCount h r < minColumns) ->
      headerRowIndex (parseWorksheetRobust h rawData options) = 0
      /\ discoverHeader h rawData minColumns maxRows prefix
         = (0, normalizeRow h prefix firstRow)).
Proof.
  intros minColumns maxRows prefix Hraw Hfirst.
  assert (Hne : rawData <> []) by (rewrite Hraw; discriminate).
  split.
  - destruct (discoverHeader h rawData minColumns maxRows prefix) as [index headers] eqn:E.
    assert (0 <= index /\ headers <> []) as [Hi Hh].
    { unfold discoverHeader in E.
      destruct (findHeaderRow h minColumns 0 _) as [[k row]|] eqn:F.
      - injection E as <- <-. split; [lia|].
        apply findHeaderRow_Some in F as (i & _ & _ & Hv & _).
        apply normalizeRow_nonempty. now apply valid_row in Hv.
      - rewrite Hraw in E. injection E as <- <-. split; [lia|].
        now apply normalizeRow_nonempty. }
    now rewrite (parse_headerRowIndex h rawData options index headers).
  - intros Hnone.
    assert (E : discoverHeader h rawData minColumns maxRows prefix
                = (0, normalizeRow h prefix firstRow)).
    { unfold discoverHeader.
      replace (findHeaderRow h minColumns 0 _) with (@None (nat * list JsValue)).
      - now rewrite Hraw.
      - symmetry. apply findHeaderRow_None. intros r Hr.
        apply In_nth_error in Hr as [j Hj]. rewrite window_nth in Hj.
        destruct (Z.of_nat j <? searchLimit maxRows rawData) eqn:L; [|discriminate].
        apply Z.ltb_lt in L. apply invalid_of_count. now apply (Hnone j r). }
    split; [|exact E].
    apply (parse_headerRowIndex h rawData options _ _) in E; auto.
    now apply normalizeRow_nonempty.
Qed.
End HeaderClaims.

Lemma header_is_first_qualifying_row_witness :
  XlsxUtils.headerRowIndex
    (XlsxUtils.parseWorksheetRobust AsciiHost.host scenarioB XlsxUtils.noOptions) = 3
  /\ XlsxUtils.discoverHeader AsciiHost.host scenarioB 2 20 (str "Column")
     = (3, [str "no"; str "name"; str "price"; str "year"; str "fuel"]).
Proof.
  apply (header_is_first_qualifying_row AsciiHost.host scenarioB XlsxUtils.noOptions 3
           [text "no"; text "name"; text "price"; text "year"; text "fuel"]).
  - left. reflexivity.
  - reflexivity.
  - reflexivity.
  - vm_compute. discriminate.
  - intros [|[|[|j]]] r Hj; [| | |lia]; intros [= <-]; reflexivity.
Defined.

Lemma first_row_is_fallback_header_witness :
  let grid := [[text "only"]; [text "1"]; [text "2"]] in
  0 <= XlsxUtils.headerRowIndex
         (XlsxUtils.parseWorksheetRobust AsciiHost.host grid XlsxUtils.noOptions)
  /\ XlsxUtils.headerRowIndex
       (XlsxUtils.parseWorksheetRobust AsciiHost.host grid XlsxUtils.noOptions) = 0
  /\ XlsxUtils.discoverHeader AsciiHost.host grid 2 20 (str "Column")
     = (0, [str "only"]).
Proof.
  intros grid.
  destruct (first_row_is_fallback_header AsciiHost.host grid XlsxUtils.noOptions
              [text "only"] [[text "1"]; [text "2"]] eq_refl)
    as [H1 H2].
  - discriminate.
  - split; [exact H1|]. apply H2.
    intros [|[|[|j]]] r _ E; simpl in E;
      [| | | destruct j; discriminate E]; injection E as <-; reflexivity.
Defined.

Section NormalizeClaims.
Import XlsxUtils.

(** C6: normalizeHeader replaces a header cell that is null, undefined,
    empty after trimming or the text "undefined" by the fallback prefix, a
    space and the letter of the cell's own 0-based column index (code unit
    65 + index: A for 0, B for 1, ... Z for 25); any other cell keeps its
    trimmed text.  So the header row ["A", "", "B"] gives the column names
    ["A", "Column B", "B"]. *)
Theorem blank_header_gets_column_letter :
  (forall (h : Host) (header : JsValue) (i : nat) (prefix : JsString),
      isNullish header = true
      \/ trim (ToString h header) = []
      \/ trim (ToString h header) = str "undefined" ->
      normalizeHeader h header i prefix
      = prefix ++ str " " ++ fromCharCode (65 + Z.of_nat i))
  /\ (forall (h : Host) (header : JsValue) (i : nat) (prefix : JsString),
         isNullish header = false ->
         trim (ToString h header) <> [] ->
         trim (ToString h header) <> str "undefined" ->
         normalizeHeader h header i prefix = trim (ToString h header))
  /\ (forall i : nat, (i < 26)%nat ->
         fromCharCode (65 + Z.of_nat i)
         = [nth i (str "ABCDEFGHIJKLMNOPQRSTUVWXYZ") 0%N])
  /\ (forall h : Host,
         normalizeRow h (str "Column") [text "A"; JStr []; text "B"]
         = [str "A"; str "Column B"; str "B"]).
Proof.
  split; [|split; [|split]].
  - intros h header i prefix H. unfold normalizeHeader, fallbackName.
    destruct (isNullish header); [reflexivity|].
    destruct H as [H | [H | H]]; [discriminate | |]; rewrite H; reflexivity.
  - intros h header i prefix Hn H1 H2. unfold normalizeHeader. rewrite Hn.
    apply JSFacts.str_eqb_neq in H1, H2. now rewrite H1, H2.
  - intros i Hi.
    do 26 (destruct i as [|i]; [reflexivity|]). lia.
  - intros h. reflexivity.
Qed.
End NormalizeClaims.

(* ================================================================== *)
(** ** Row materialization and column pruning (lib/xlsxUtils) *)
(* ================================================================== *)

Module MaterializeFacts.
Import XlsxUtils JSFacts.

Lemma indexed_keys {A} (l : list A) : map fst (indexed l) = l.
Proof.
  unfold indexed. generalize 0%nat.
  induction l as [|x l IH]; intros i; simpl; [reflexivity|]. now rewrite IH.
Qed.

Section WithHost.
Variable h : Host.

Lemma cellText_trimmed (v : JsValue) : trimmedText (cellText h v).
Proof.
  unfold cellText. destruct (isNullish v).
  - now exists [].
  - exists (trim (ToString h v)). split; [reflexivity | apply trim_idem].
Qed.

Lemma hasText_trimmed (v : JsValue) :
  trimmedText v -> (hasText h v = true <-> v <> JStr []).
Proof.
  intros (t & -> & Ht). unfold hasText. simpl. rewrite Ht, str_eqb_nil.
  destruct t; simpl; split; congruence.
Qed.

Lemma hasText_prototype : hasText h (JMember MProto) = true.
Proof. reflexivity. Qed.

Lemma makeRowObject_keys (headers : list JsString) (row : list JsValue) (k : JsString) :
  In k (own_keys (makeRowObject h headers row)) <-> In k headers /\ k <> protoKey.
Proof.
  pose proof (assignAll_keys fst (fun hi => cellText h (nth (snd hi) row JUndefined))
                (indexed headers) [] k) as H.
  rewrite indexed_keys in H. simpl in H. unfold assignAll in H.
  unfold makeRowObject. tauto.
Qed.

Lemma makeRowObject_get (headers : list JsString) (row : list JsValue) (k : JsString) :
  In k headers -> k <> protoKey -> trimmedText (obj_get (makeRowObject h headers row) k).
Proof.
  intros Hk Hp. unfold makeRowObject.
  destruct (assignAll_get fst (fun hi => cellText h (nth (snd hi) row JUndefined))
              (indexed headers) [] k Hp) as [(x & _ & _ & E) | (Hn & _)].
  - unfold assignAll in E. rewrite E. apply cellText_trimmed.
  - rewrite indexed_keys in Hn. contradiction.
Qed.

(** Under __proto__ a record reads the prototype, whatever the cells hold. *)
Lemma makeRowObject_proto (headers : list JsString) (row : list JsValue) :
  obj_get (makeRowObject h headers row) protoKey = JMember MProto.
Proof.
  unfold makeRowObject.
  exact (proj2 (assignAll_proto fst (fun hi => cellText h (nth (snd hi) row JUndefined))
                  (indexed headers) [] (fun H => H))).
Qed.

Lemma materialize_In (headers : list JsString) (skip : bool)
    (rows : list (list JsValue)) (r : JsObject) :
  In r (materialize h headers skip rows) ->
  exists row, In row rows /\ r = makeRowObject h headers row.
Proof.
  induction rows as [|row rows IH]; simpl; [intros []|].
  destruct (skip && negb (hasData h row)).
  - intros H. destruct (IH H) as (row' & Hin & E). exists row'. tauto.
  - intros [<- | H].
    + exists row. tauto.
    + destruct (IH H) as (row' & Hin & E). exists row'. tauto.
Qed.

(** A record and a column of the header: the stored value is trimmed text. *)
Lemma materialized_cell (headers : list JsString) (skip : bool)
    (rows : list (list JsValue)) (r : JsObject) (c : JsString) :
  In r (materialize h headers skip rows) -> In c headers -> c <> protoKey ->
  trimmedText (obj_get r c).
Proof.
  intros Hr Hc Hp. apply materialize_In in Hr as (row & _ & ->).
  now apply makeRowObject_get.
Qed.

Lemma materialized_proto (headers : list JsString) (skip : bool)
    (rows : list (list JsValue)) (r : JsObject) :
  In r (materialize h headers skip rows) -> obj_get r protoKey = JMember MProto.
Proof.
  intros Hr. apply materialize_In in Hr as (row & _ & ->). apply makeRowObject_proto.
Qed.

Lemma columnsWithData_In (headers : list JsString) (rows : list JsObject) (c : JsString) :
  In c (columnsWithData h headers rows) <->
  In c headers /\ exists r, In r rows /\ hasText h (obj_get r c) = true.
Proof.
  unfold columnsWithData. rewrite filter_In, existsb_exists. tauto.
Qed.

Lemma cleanRow_keys (final : list JsString) (row : JsObject) (k : JsString) :
  In k (own_keys (cleanRow final row)) <-> In k final /\ k <> protoKey.
Proof.
  pose proof (assignAll_keys (fun col => col)
                (fun col => match obj_get row col with JUndefined => JStr [] | v => v end)
                final [] k) as H.
  rewrite map_id in H. simpl in H. unfold assignAll in H.
  unfold cleanRow. tauto.
Qed.

Lemma cleanRow_NoDup (final : list JsString) (row : JsObject) :
  NoDup (own_keys (cleanRow final row)).
Proof.
  unfold cleanRow.
  apply (assignAll_NoDup (fun col => col)
           (fun col => match obj_get row col with JUndefined => JStr [] | v => v end)).
  constructor.
Qed.

Lemma cleanRow_get (final : list JsString) (row : JsObject) (k : JsString) :
  k <> protoKey ->
  (In k final ->
   obj_get (cleanRow final row) k
   = match obj_get row k with JUndefined => JStr [] | v => v end)
  /\ (~ In k final -> obj_get (cleanRow final row) k = obj_get [] k).
Proof.
  intros Hp. unfold cleanRow.
  destruct (assignAll_get (fun col => col)
              (fun col => match obj_get row col with JUndefined => JStr [] | v => v end)
              final [] k Hp) as [(x & Hx & Hk & E) | (Hn & E)];
    unfold assignAll in E; rewrite E.
  - subst x. split; [reflexivity | contradiction].
  - rewrite map_id in Hn. split; [contradiction | reflexivity].
Qed.

Lemma cleanRow_proto (final : list JsString) (row : JsObject) :
  ~ In protoKey (own_keys (cleanRow final row))
  /\ obj_get (cleanRow final row) protoKey = JMember MProto.
Proof.
  unfold cleanRow.
  exact (assignAll_proto (fun col => col)
           (fun col => match obj_get row col with JUndefined => JStr [] | v => v end)
           final [] (fun H => H)).
Qed.

(** The result of parseWorksheetRobust in terms of its stages. *)
Lemma parse_stages (rawData : list (list JsValue)) (options : XLSXParseOptions)
    (index : Z) (headers : list JsString) :
  rawData <> [] -> headers <> [] ->
  discoverHeader h rawData (orDefault (minHeaderColumns options) 2)
    (orDefault (maxHeaderSearchRows options) 20)
    (orDefault (fallbackColumnPrefix options) (str "Column")) = (index, headers) ->
  let rows := materialize h headers (orDefault (skipEmptyRows options) true)
                (skipn (Z.to_nat (index + 1)) rawData) in
  columns (parseWorksheetRobust h rawData options) = finalColumns h headers rows
  /\ data (parseWorksheetRobust h rawData options)
     = map (cleanRow (finalColumns h headers rows)) rows.
Proof.
  intros Hr Hh E rows. unfold parseWorksheetRobust.
  destruct rawData as [|r0 rest]; [contradiction|].
  rewrite E. destruct headers; [contradiction|]. split; reflexivity.
Qed.

(** Without stages: the records of a result and its columns. *)
Lemma parse_result_shape (rawData : list (list JsValue)) (options : XLSXParseOptions) :
  exists rows, data (parseWorksheetRobust h rawData options)
               = map (cleanRow (columns (parseWorksheetRobust h rawData options))) rows.
Proof.
  unfold parseWorksheetRobust.
  destruct rawData as [|r0 rest]; [now exists []|].
  destruct (discoverHeader _ _ _ _ _) as [index headers].
  destruct headers; [now exists []|].
  eexists. reflexivity.
Qed.
End WithHost.

End MaterializeFacts.

Section PruningClaims.
Import XlsxUtils JSFacts MaterializeFacts.
Variable h : Host.

(** C7: after the rows are materialized, the columns in which every
    materialized record holds the empty string are dropped from the final
    column list and from every record; when that would drop every column,
    the full header list is kept.  So with at least one header the final
    column list is not empty, and when some column holds data, every
    surviving column other than __proto__ has a record with a non-empty
    text in it.  A header named __proto__ escapes the pass: no record gets
    such a key, reading it gives the prototype object, which counts as
    data, so the column stays whatever its cells hold.  The grid with the
    header row id, __proto__ and the data row 1, '' keeps both columns and
    gives the record {id: '1'}. *)
Theorem empty_columns_are_pruned
    (rawData : list (list JsValue)) (options : XLSXParseOptions)
    (index : Z) (headers : list JsString) :
  let rows := materialize h headers (orDefault (skipEmptyRows options) true)
                (skipn (Z.to_nat (index + 1)) rawData) in
  let result := parseWorksheetRobust h rawData options in
  let holdsData (c : JsString) := exists r, In r rows /\ obj_get r c <> JStr [] in
  rawData <> [] -> headers <> [] ->
  discoverHeader h rawData (orDefault (minHeaderColumns options) 2)
    (orDefault (maxHeaderSearchRows options) 20)
    (orDefault (fallbackColumnPrefix options) (str "Column")) = (index, headers) ->
  columns result <> []
  /\ data result = map (cleanRow (columns result)) rows
  /\ (forall r k, In r (data result) -> k <> protoKey ->
        (In k (obj_keys r) <-> In k (columns result)))
  /\ ((exists c, In c headers /\ holdsData c) ->
      (forall c, In c (columns result) <-> In c headers /\ holdsData c)
      /\ (forall c, In c (columns result) -> c <> protoKey ->
            exists r t, In r (data result) /\ obj_get r c = JStr t /\ t <> []))
  /\ ((forall c, In c headers -> ~ holdsData c) -> columns result = headers)
  /\ (In protoKey headers -> rows <> [] ->
      In protoKey (columns result)
      /\ forall r, In r (data result) ->
           ~ In protoKey (obj_keys r) /\ obj_get r protoKey = JMember MProto)
  /\ parseWorksheetRobust h
       [[text "id"; text "__proto__"]; [text "1"; JStr []]] noOptions
     = {| data := [[(str "id", text "1")]];
          columns := [str "id"; str "__proto__"];
          headerRowIndex := 0; totalRawRows := 2 |}.
Proof.
  intros rows result holdsData Hraw Hhead E.
  destruct (parse_stages h rawData options index headers Hraw Hhead E) as [Hc Hd].
  fold rows in Hc, Hd. fold result in Hc, Hd.
  assert (Hcell : forall c, In c headers ->
            (holdsData c <-> exists r, In r rows /\ hasText h (obj_get r c) = true)).
  { intros c Hin. unfold holdsData.
    destruct (list_eq_dec N.eq_dec c protoKey) as [-> | Hp].
    - split; intros (r & Hr & Hv); exists r; split; auto;
        rewrite (materialized_proto h headers _ _ r Hr); [reflexivity | discriminate].
    - split; intros (r & Hr & Hv); exists r; split; auto.
      + apply hasText_trimmed; [|exact Hv]. eapply materialized_cell; eauto.
      + apply hasText_trimmed in Hv; [exact Hv|]. eapply materialized_cell; eauto. }
  assert (Hwith : forall c, In c (columnsWithData h headers rows)
                            <-> In c headers /\ holdsData c).
  { intros c. rewrite columnsWithData_In. split; intros [Hin Hv]; split; auto;
      now apply (Hcell c Hin). }
  split; [|split; [|split; [|split; [|split; [|split]]]]].
  - rewrite Hc. unfold finalColumns.
    destruct (columnsWithData h headers rows); [exact Hhead | discriminate].
  - now rewrite Hd, Hc.
  - intros r k Hr Hp. rewrite Hd in Hr. apply in_map_iff in Hr as (r0 & <- & _).
    rewrite obj_keys_In, cleanRow_keys, Hc. tauto.
  - intros (c0 & Hin0 & Hv0).
    assert (Hfin : columns result = columnsWithData h headers rows).
    { rewrite Hc. unfold finalColumns.
      destruct (columnsWithData h headers rows) eqn:W; [|reflexivity].
      exfalso. exact (proj2 (Hwith c0) (conj Hin0 Hv0)). }
    split.
    + intros c. rewrite Hfin. apply Hwith.
    + intros c Hin Hp. pose proof Hin as Hin'. rewrite Hfin in Hin'.
      apply Hwith in Hin' as (Hh & r & Hr & Hv).
      destruct (materialized_cell h headers _ _ r c Hr Hh Hp) as (t & Ht & _).
      exists (cleanRow (columns result) r), t. split; [|split].
      * rewrite Hd, <- Hc. now apply in_map.
      * rewrite (proj1 (cleanRow_get _ r c Hp) Hin), Ht. reflexivity.
      * intros ->. now rewrite Ht in Hv.
  - intros Hnone. rewrite Hc. unfold finalColumns.
    destruct (columnsWithData h headers rows) as [|c l] eqn:W; [reflexivity|].
    exfalso. destruct (proj1 (Hwith c) (or_introl eq_refl)) as [Hin Hv].
    exact (Hnone c Hin Hv).
  - intros Hin Hrows.
    assert (Hkept : In protoKey (columnsWithData h headers rows)).
    { apply Hwith. split; [exact Hin|].
      destruct rows as [|r0 rest] eqn:R; [contradiction|].
      exists r0. split; [now left|].
      rewrite (materialized_proto h headers (orDefault (skipEmptyRows options) true)
                 (skipn (Z.to_nat (index + 1)) rawData) r0).
      - discriminate.
      - fold rows. rewrite R. now left. }
    split.
    + rewrite Hc. unfold finalColumns.
      destruct (columnsWithData h headers rows); [contradiction | exact Hkept].
    + intros r Hr. rewrite Hd in Hr. apply in_map_iff in Hr as (r0 & <- & _).
      rewrite obj_keys_In. apply cleanRow_proto.
  - reflexivity.
Qed.
End PruningClaims.

Lemma empty_columns_are_pruned_witness :
  let grid := [[text "id"; text "note"; text "km"]; [text "1"; JStr []; text " 20 "]] in
  let result := XlsxUtils.parseWorksheetRobust AsciiHost.host grid XlsxUtils.noOptions in
  In (str "km") (XlsxUtils.columns result)
  /\ ~ In (str "note") (XlsxUtils.columns result)
  /\ exists r t, In r (XlsxUtils.data result) /\ obj_get r (str "km") = JStr t /\ t <> [].
Proof.
  intros grid result.
  destruct (empty_columns_are_pruned AsciiHost.host grid XlsxUtils.noOptions 0
              [str "id"; str "note"; str "km"])
    as (_ & _ & _ & Hkept & _).
  - discriminate.
  - discriminate.
  - reflexivity.
  - destruct Hkept as [Hiff Hval].
    + exists (str "id"). split; [now left|].
      eexists. split; [left; reflexivity | discriminate].
    + assert (Hkm : In (str "km") (XlsxUtils.columns result)).
      { apply Hiff. split; [right; right; now left|].
        eexists. split; [left; reflexivity | discriminate]. }
      split; [exact Hkm|]. split.
      * intros Hnote. apply Hiff in Hnote as (_ & r & [<- | []] & Hv).
        apply Hv. reflexivity.
      * apply Hval; [exact Hkm | discriminate].
Defined.

(* ================================================================== *)
(** ** Column totality of the ingestion results *)
(* ================================================================== *)

Module IngestFacts.
Import XlsxParser.

Lemma analyzeColumns_names (h : Host) (rows : list JsObject) :
  map name (analyzeColumns h rows)
  = match rows with [] => [] | first :: _ => obj_keys first end.
Proof.
  unfold analyzeColumns. destruct rows as [|first rest]; [reflexivity|].
  rewrite map_map. simpl. apply map_id.
Qed.

Lemma parseExcelFile_csv (h : Host) (rows : list JsObject)
    (xlsx : Completion (list (list JsValue))) (file : JsString) :
  extensionOf h file = str "csv" ->
  data (parseExcelFile h (Returns rows) xlsx file) = filter rowNotEmpty rows
  /\ columns (parseExcelFile h (Returns rows) xlsx file)
     = analyzeColumns h (filter rowNotEmpty rows).
Proof.
  intros E. unfold parseExcelFile. rewrite E. simpl. split; reflexivity.
Qed.

Lemma parseExcelFile_xlsx (h : Host) (csv : Completion (list JsObject))
    (rawData : list (list JsValue)) (file : JsString) :
  extensionOf h file = str "xlsx" \/ extensionOf h file = str "xls" ->
  data (parseExcelFile h csv (Returns rawData) file)
  = filter rowNotEmpty (parseXLSX h rawData)
  /\ columns (parseExcelFile h csv (Returns rawData) file)
     = analyzeColumns h (filter rowNotEmpty (parseXLSX h rawData)).
Proof.
  intros [E | E]; unfold parseExcelFile; rewrite E; simpl; split; reflexivity.
Qed.

End IngestFacts.

Section TotalityClaims.
Import XlsxParser JSFacts MaterializeFacts IngestFacts.

(** C2, for the XLSX path: in the outcome of parseExcelFile for an
    .xlsx or .xls file every record of the returned data has exactly the
    names of the returned columns as its key set; in the result of
    parseWorksheetRobust every record has the final column list as its key
    set, a column named __proto__ left aside.  On the CSV path the records
    are the objects that the tokenizer built, less the empty ones, and the
    column list is the key list of the first of them. *)
Theorem xlsx_records_have_exactly_the_columns :
  (forall (h : Host) (rawData : list (list JsValue))
          (options : XlsxUtils.XLSXParseOptions) (r : JsObject),
      let result := XlsxUtils.parseWorksheetRobust h rawData options in
      In r (XlsxUtils.data result) ->
      NoDup (obj_keys r)
      /\ forall k, k <> protoKey ->
           (In k (obj_keys r) <-> In k (XlsxUtils.columns result)))
  /\ (forall (h : Host) (csv : Completion (list JsObject))
             (rawData : list (list JsValue)) (file : JsString) (r : JsObject),
         let result := parseExcelFile h csv (Returns rawData) file in
         extensionOf h file = str "xlsx" \/ extensionOf h file = str "xls" ->
         In r (data result) ->
         forall k, In k (obj_keys r) <-> In k (map name (columns result)))
  /\ (forall (h : Host) (rows : list JsObject)
             (xlsx : Completion (list (list JsValue))) (file : JsString),
         let result := parseExcelFile h (Returns rows) xlsx file in
         extensionOf h file = str "csv" ->
         data result = filter rowNotEmpty rows
         /\ map name (columns result)
            = match data result with [] => [] | first :: _ => obj_keys first end).
Proof.
  assert (Hsheet : forall h rawData options r,
             In r (XlsxUtils.data (XlsxUtils.parseWorksheetRobust h rawData options)) ->
             NoDup (obj_keys r)
             /\ forall k, In k (obj_keys r)
                          <-> In k (XlsxUtils.columns
                                      (XlsxUtils.parseWorksheetRobust h rawData options))
                              /\ k <> protoKey).
  { intros h rawData options r Hr.
    destruct (parse_result_shape h rawData options) as [rows E].
    rewrite E in Hr. apply in_map_iff in Hr as (r0 & <- & _).
    split; [apply obj_keys_NoDup, cleanRow_NoDup|].
    intros k. rewrite obj_keys_In. apply cleanRow_keys. }
  split; [|split].
  - intros h rawData options r result Hr.
    destruct (Hsheet h rawData options r Hr) as [Hn Hk].
    split; [exact Hn|]. intros k Hp. rewrite Hk. tauto.
  - intros h csv rawData file r result Hext Hr k.
    destruct (parseExcelFile_xlsx h csv rawData file Hext) as [Hd Hc].
    unfold result in *. rewrite Hc, analyzeColumns_names. rewrite Hd in Hr.
    assert (Hall : forall r', In r' (filter rowNotEmpty (parseXLSX h rawData)) ->
              forall k', In k' (obj_keys r')
                <-> In k' (XlsxUtils.columns
                             (XlsxUtils.parseWorksheetRobust h rawData
                                {| XlsxUtils.minHeaderColumns := Some 2;
                                   XlsxUtils.maxHeaderSearchRows := Some 20;
                                   XlsxUtils.skipEmptyRows := Some true;
                                   XlsxUtils.fallbackColumnPrefix := Some (str "Column") |}))
                    /\ k' <> protoKey).
    { intros r' Hr'. apply filter_In in Hr' as [Hr' _]. now apply Hsheet. }
    destruct (filter rowNotEmpty (parseXLSX h rawData)) as [|first rest] eqn:F;
      [contradiction|].
    rewrite (Hall r Hr k). symmetry. apply Hall. now left.
  - intros h rows xlsx file result Hext.
    destruct (parseExcelFile_csv h rows xlsx file Hext) as [Hd Hc].
    unfold result. rewrite Hc, Hd. split; [reflexivity | apply analyzeColumns_names].
Qed.

(** The outcome for a CSV file with the three lines a,b / 1,2 / 3.
    parseCSV leaves this text as it is, and Papa.parse (header: true) gives
    a row that is shorter than the header only the fields it has: the
    objects are {a: "1", b: "2"} and {a: "3"}.  The column list has a and b,
    the second record only the key a. *)
Lemma csv_record_lacks_a_column :
  exists (content : JsString) (rows : list JsObject) (r : JsObject),
    content = str "a,b" ++ [10%N] ++ str "1,2" ++ [10%N] ++ str "3"
    /\ csvContent content = content
    /\ rows = [ [(str "a", text "1"); (str "b", text "2")]; [(str "a", text "3")] ]
    /\ forall h : Host, toLowerCase h (str "csv") = str "csv" ->
         let result := parseExcelFile h (Returns rows) (Throws None) (str "t.csv") in
         In r (data result)
         /\ map name (columns result) = [str "a"; str "b"]
         /\ obj_keys r = [str "a"].
Proof.
  exists (str "a,b" ++ [10%N] ++ str "1,2" ++ [10%N] ++ str "3"),
         [ [(str "a", text "1"); (str "b", text "2")]; [(str "a", text "3")] ],
         [(str "a", text "3")].
  split; [reflexivity|]. split; [reflexivity|]. split; [reflexivity|].
  intros h Hlow result.
  destruct (parseExcelFile_csv h
              [ [(str "a", text "1"); (str "b", text "2")]; [(str "a", text "3")] ]
              (Throws None) (str "t.csv") Hlow) as [Hd Hc].
  unfold result. rewrite Hc, Hd, analyzeColumns_names.
  split; [|split]; [right; left|..]; reflexivity.
Qed.
End TotalityClaims.

Lemma xlsx_records_have_exactly_the_columns_witness :
  NoDup (obj_keys [(str "id", text "1"); (str "km", text "20")])
  /\ (In (str "km") (obj_keys [(str "id", text "1"); (str "km", text "20")])
      <-> In (str "km") [str "id"; str "km"]).
Proof.
  destruct (proj1 xlsx_records_have_exactly_the_columns AsciiHost.host
              [[text "id"; text "note"; text "km"]; [text "1"; JStr []; text " 20 "]]
              XlsxUtils.noOptions [(str "id", text "1"); (str "km", text "20")])
    as [H1 H2].
  - left. reflexivity.
  - split; [exact H1|]. apply (H2 (str "km")). discriminate.
Defined.

(* ================================================================== *)
(** ** Column type inference (lib/xlsxParser) *)
(* ================================================================== *)

Module TypeFacts.
Import XlsxParser.

(** Every turn of the loop raises one counter by one. *)
Lemma tallyStep_one (h : Host) (t : Tally) (value : JsValue) :
  (numberCount t <= numberCount (tallyStep h t value)
   /\ dateCount t <= dateCount (tallyStep h t value)
   /\ booleanCount t <= booleanCount (tallyStep h t value)
   /\ stringCount t <= stringCount (tallyStep h t value)
   /\ counted (tallyStep h t value) = S (counted t))%nat.
Proof.
  unfold tallyStep, counted.
  repeat match goal with
         | |- context [if ?c then _ else _] => destruct c
         | |- context [match ?v with JUndefined => _ | _ => _ end] => destruct v
         end; simpl; lia.
Qed.

Lemma tally_counted_from (h : Host) (values : list JsValue) (t : Tally) :
  counted (fold_left (tallyStep h) values t) = (counted t + List.length values)%nat.
Proof.
  revert t; induction values as [|v values IH]; intros t; simpl; [lia|].
  rewrite IH. destruct (tallyStep_one h t v) as (_ & _ & _ & _ & E). lia.
Qed.

Lemma tally_counted (h : Host) (values : list JsValue) :
  counted (tally h values) = List.length values.
Proof. unfold tally. now rewrite tally_counted_from. Qed.

(** The integer test of the model is the comparison of the share with 0.8. *)
Lemma reachesThreshold_share (count total : nat) :
  (0 < total)%nat ->
  reachesThreshold count total = true
  <-> Qle (8 # 10) (Qdiv (inject_Z (Z.of_nat count)) (inject_Z (Z.of_nat total))).
Proof.
  intros Ht. unfold reachesThreshold. rewrite Nat.leb_le.
  assert (Hp : Qlt (inject_Z 0) (inject_Z (Z.of_nat total))).
  { unfold Qlt, inject_Z. cbn [Qnum Qden]. lia. }
  split; intros H.
  - apply Qle_shift_div_l; [exact Hp|].
    unfold Qle, Qmult, inject_Z. cbn [Qnum Qden]. lia.
  - apply (Qmult_le_compat_r _ _ (inject_Z (Z.of_nat total))) in H;
      [|now apply Qlt_le_weak].
    unfold Qdiv in H. rewrite <- Qmult_assoc in H. rewrite (Qmult_comm (Qinv _)) in H.
    rewrite Qmult_inv_r in H.
    + unfold Qle, Qmult, inject_Z in H. cbn [Qnum Qden] in H. lia.
    + intros E. rewrite E in Hp. discriminate.
Qed.

(** With a non-empty value present, the type is read off the four tests. *)
Lemma detect_by_threshold (h : Host) (values : list JsValue) :
  filter nonNull values <> [] ->
  detectColumnType h values
  = let t := tally h (filter nonNull values) in
    let total := List.length (filter nonNull values) in
    if reachesThreshold (numberCount t) total then TNumber
    else if reachesThreshold (dateCount t) total then TDate
    else if reachesThreshold (booleanCount t) total then TBoolean
    else if reachesThreshold (stringCount t) total then TString
    else TMixed.
Proof.
  intros Hne. unfold detectColumnType.
  destruct (filter nonNull values); [contradiction | reflexivity].
Qed.

End TypeFacts.

Section TypeClaims.
Import XlsxParser TypeFacts.
Variable h : Host.

(** C9: detectColumnType puts every value that is not null, undefined or
    the empty string into exactly one of the counts boolean, number, date,
    string; a count whose share of the non-empty total is at least 0.8
    decides the type, the type is "mixed" when no share reaches 0.8, and
    "string" when there is no non-empty value. *)
Theorem column_type_by_majority (values : list JsValue) :
  let nonNullValues := filter nonNull values in
  let t := tally h nonNullValues in
  let total := List.length nonNullValues in
  let reaches (count : nat) :=
    Qle (8 # 10) (Qdiv (inject_Z (Z.of_nat count)) (inject_Z (Z.of_nat total))) in
  (numberCount t + dateCount t + booleanCount t + stringCount t = total)%nat
  /\ (forall (t0 : Tally) (v : JsValue),
         (numberCount t0 <= numberCount (tallyStep h t0 v)
          /\ dateCount t0 <= dateCount (tallyStep h t0 v)
          /\ booleanCount t0 <= booleanCount (tallyStep h t0 v)
          /\ stringCount t0 <= stringCount (tallyStep h t0 v)
          /\ counted (tallyStep h t0 v) = S (counted t0))%nat)
  /\ (nonNullValues = [] -> detectColumnType h values = TString)
  /\ (nonNullValues <> [] ->
      (reaches (numberCount t) -> detectColumnType h values = TNumber)
      /\ (reaches (dateCount t) -> detectColumnType h values = TDate)
      /\ (reaches (booleanCount t) -> detectColumnType h values = TBoolean)
      /\ (reaches (stringCount t) -> detectColumnType h values = TString)
      /\ (~ reaches (numberCount t) -> ~ reaches (dateCount t) ->
          ~ reaches (booleanCount t) -> ~ reaches (stringCount t) ->
          detectColumnType h values = TMixed)).
Proof.
  intros nonNullValues t total reaches.
  assert (Hsum : counted t = total) by apply tally_counted.
  split; [exact Hsum|]. split; [apply tallyStep_one|].
  split.
  - intros E. unfold detectColumnType. fold nonNullValues. now rewrite E.
  - intros Hne.
    assert (Hpos : (0 < total)%nat).
    { unfold total. destruct nonNullValues; [contradiction | simpl; lia]. }
    rewrite (detect_by_threshold h values Hne). fold nonNullValues t total.
    assert (Hr : forall c, reaches c <-> (4 * total <= 5 * c)%nat).
    { intros c. unfold reaches. rewrite <- (reachesThreshold_share c total Hpos).
      apply Nat.leb_le. }
    unfold counted in Hsum. unfold reachesThreshold.
    rewrite !Hr.
    destruct (Nat.leb_spec (4 * total) (5 * numberCount t));
      destruct (Nat.leb_spec (4 * total) (5 * dateCount t));
      destruct (Nat.leb_spec (4 * total) (5 * booleanCount t));
      destruct (Nat.leb_spec (4 * total) (5 * stringCount t));
      repeat split; intros; try reflexivity; exfalso; lia.
Qed.

(** C3, with the literals of the code: a value is counted as boolean
    exactly when it is a
    native boolean or one of the four strings "true", "false", "TRUE",
    "FALSE"; any other value, the mixed-case spellings included, leaves
    the boolean count as it was. *)
Theorem boolean_tally_is_by_exact_literal (t : Tally) (v : JsValue) :
  let booleanLiteral :=
    (exists b, v = JBool b) \/ v = text "true" \/ v = text "false"
    \/ v = text "TRUE" \/ v = text "FALSE" in
  (booleanLiteral ->
   tallyStep h t v
   = {| numberCount := numberCount t; dateCount := dateCount t;
        booleanCount := S (booleanCount t); stringCount := stringCount t |})
  /\ (~ booleanLiteral -> booleanCount (tallyStep h t v) = booleanCount t).
Proof.
  intros booleanLiteral. split.
  - intros [[b ->] | [-> | [-> | [-> | ->]]]]; reflexivity.
  - intros Hn. unfold tallyStep.
    destruct (_ || _ || _ || _ || _) eqn:C.
    + exfalso. apply Hn. unfold booleanLiteral.
      repeat (apply orb_true_iff in C as [C | C]).
      * destruct v; try discriminate. left. now eexists.
      * destruct v; try discriminate. apply JSFacts.str_eqb_eq in C. subst. tauto.
      * destruct v; try discriminate. apply JSFacts.str_eqb_eq in C. subst. tauto.
      * destruct v; try discriminate. apply JSFacts.str_eqb_eq in C. subst. tauto.
      * destruct v; try discriminate. apply JSFacts.str_eqb_eq in C. subst. tauto.
    + repeat match goal with
             | |- context [if ?c then _ else _] => destruct c
             | |- context [match ?x with JUndefined => _ | _ => _ end] => destruct x
             end; reflexivity.
Qed.

(** The string "True" equals "true" when case is ignored, and is not
    counted as boolean. *)
Lemma mixed_case_true_is_not_boolean :
  exists s : JsString,
    map asciiLower s = str "true"
    /\ forall (host : Host) (t : Tally),
         booleanCount (tallyStep host t (JStr s)) = booleanCount t.
Proof.
  exists (str "True"). split; [reflexivity|].
  intros host t. unfold tallyStep.
  repeat match goal with
         | |- context [if ?c then _ else _] => destruct c eqn:?
         end; try reflexivity.
  discriminate.
Qed.
End TypeClaims.

(* ================================================================== *)
(** ** Filtering and sorting (lib/xlsxParser, lib/csvParser) *)
(* ================================================================== *)

Module QueryFacts.
Import XlsxParser CsvParser SortFacts.

Lemma negative_numZ (z : Z) : negative (numZ z) = (z <? 0).
Proof.
  unfold negative, numZ. apply eq_true_iff_eq.
  rewrite num_lt_Fin, Z.ltb_lt. unfold Qlt, inject_Z. cbn [Qnum Qden]. lia.
Qed.

Lemma num_lt_NaN_r (x : JsNum) : num_lt x NaN = false.
Proof. now destruct x. Qed.

(** The comparator of sortData keeps a record without a value where it is
    and lets every other record pass it, in both directions. *)
Lemma compareRecords_missing_left (h : Host) (sortBy : JsString) (direction : Direction)
    (a b : JsObject) :
  isNullish (obj_get a sortBy) = true ->
  negative (compareRecords h sortBy direction a b) = false.
Proof. intros H. unfold compareRecords. now rewrite H. Qed.

Lemma compareRecords_missing_right (h : Host) (sortBy : JsString) (direction : Direction)
    (a b : JsObject) :
  isNullish (obj_get a sortBy) = false -> isNullish (obj_get b sortBy) = true ->
  negative (compareRecords h sortBy direction a b) = true.
Proof. intros Ha Hb. unfold compareRecords. now rewrite Ha, Hb. Qed.

Lemma orZero_number (x : JsNum) : isNaN (orZero x) = false.
Proof. unfold orZero. destruct x; reflexivity || (simpl; destruct (Qeq_bool _ _); reflexivity). Qed.

Lemma parseMileage_number (mileageStr : option JsString) :
  isNaN (parseMileage mileageStr) = false.
Proof.
  destruct mileageStr as [[|c s]|]; try reflexivity.
  unfold parseMileage. apply orZero_number.
Qed.

Lemma sorted_after {A} (R : A -> A -> Prop) (front back : list A) (b : A) :
  StronglySorted R (front ++ b :: back) -> Forall (R b) back.
Proof.
  induction front as [|x front IH]; simpl; intros H.
  - now inversion H.
  - inversion H; subst. now apply IH.
Qed.

End QueryFacts.

Section QueryClaims.
Import XlsxParser CsvParser SortFacts QueryFacts.
Variable h : Host.

(** C1, what filterData does with a value that is not a number: under a
    range constraint with both bounds present, a record whose value
    in the field is not a number after coercion passes the constraint: both
    comparisons with NaN are false.  Filtering by price in 1000..2000 keeps
    the record whose price is the text "abc" (and drops the one at 2500). *)
Theorem range_filter_keeps_non_numeric_record :
  (forall (row : JsObject) (key : JsString) (min max : JsValue),
      min <> JUndefined -> max <> JUndefined ->
      isNaN (ToNumber (obj_get row key)) = true ->
      passes h row key (FObject min max) = true)
  /\ filterData h
       [ [(str "price", text "abc")]; [(str "price", text "1500")];
         [(str "price", text "2500")] ]
       [(str "price", FObject (JNum (numZ 1000)) (JNum (numZ 2000)))]
     = [ [(str "price", text "abc")]; [(str "price", text "1500")] ].
Proof.
  split.
  - intros row key min max Hmin Hmax Hnan. unfold passes, num_gt.
    destruct (ToNumber (obj_get row key)); try discriminate.
    destruct min, max; try contradiction; cbn [ToNumber num_lt];
      rewrite ?num_lt_NaN_r; reflexivity.
  - reflexivity.
Qed.

(** C8: in the result of sortData, for either direction, every record whose
    sort field is null or undefined stands after every record that has a
    value there (also when the array is sorted by merging), and the places
    of those records are the same ascending and descending.  Sorting the
    values "43,437 Km", "1,200 Km", null ascending
    gives "1,200 Km", "43,437 Km", null (the two texts are not numbers and
    are ordered by the collation, which puts a leading 1 before a leading
    4). *)
Theorem nulls_sort_last_in_both_directions
    (rows : list JsObject) (sortBy : JsString) (direction : Direction) :
  let missing (r : JsObject) := isNullish (obj_get r sortBy) in
  let sorted := sortData h rows sortBy direction in
  Permutation sorted rows
  /\ (exists present absent,
         sorted = present ++ absent
         /\ Forall (fun r => missing r = false) present
         /\ Forall (fun r => missing r = true) absent)
  /\ (exists present absent,
         mergeSort (compareRecords h sortBy direction) rows = present ++ absent
         /\ Forall (fun r => missing r = false) present
         /\ Forall (fun r => missing r = true) absent)
  /\ map missing (sortData h rows sortBy asc)
     = map missing (sortData h rows sortBy desc)
  /\ (localeCompare h (str "1,200 Km") (str "43,437 Km") < 0 ->
      map (fun r => obj_get r (str "v"))
        (sortData h
           [ [(str "v", text "43,437 Km")]; [(str "v", text "1,200 Km")];
             [(str "v", JNull)] ]
           (str "v") asc)
      = [text "1,200 Km"; text "43,437 Km"; JNull]).
Proof.
  intros missing sorted.
  assert (Hlast : forall d,
             exists present absent,
               sortData h rows sortBy d = present ++ absent
               /\ Forall (fun r => missing r = false) present
               /\ Forall (fun r => missing r = true) absent).
  { intros d. unfold sortData.
    apply (sort_late_last (compareRecords h sortBy d) missing).
    - intros x y. apply compareRecords_missing_left.
    - intros x y. apply compareRecords_missing_right. }
  assert (Hmask : forall d,
             map missing (sortData h rows sortBy d)
             = repeat false (List.length rows - List.length (filter missing rows))
               ++ repeat true (List.length (filter missing rows))).
  { intros d. destruct (Hlast d) as (present & absent & E & Hp & Ha).
    rewrite E. apply late_mask; auto.
    rewrite <- E. apply sort_perm. }
  split; [apply sort_perm|]. split; [apply Hlast|].
  split.
  { apply (mergeSort_late_last (compareRecords h sortBy direction) missing).
    - intros x y. apply compareRecords_missing_left.
    - intros x y. apply compareRecords_missing_right. }
  split; [now rewrite !Hmask|].
  intros Hlt. unfold sortData, sort. simpl fold_left.
  assert (C : Qcompare (inject_Z (localeCompare h (str "1,200 Km") (str "43,437 Km")))
                (inject_Z 0) = Lt).
  { unfold Qcompare, inject_Z. cbn [Qnum Qden]. rewrite !Z.mul_1_r. exact Hlt. }
  rewrite C. reflexivity.
Qed.

(** C10: sortVehicles on 주행거리 compares the parseMileage values of the
    two records; parseMileage gives 0 for a null, empty or unparseable
    mileage.  So the ascending result is in ascending order of parseMileage,
    and no record of mileage 0 stands behind a record of positive
    mileage. *)
Theorem unparseable_mileage_sorts_as_zero (vehicles : list Vehicle) :
  let mileageOf (v : Vehicle) := parseMileage (Some (주행거리 v)) in
  let sorted := sortVehicles h vehicles K주행거리 asc in
  parseMileage None = numZ 0
  /\ parseMileage (Some []) = numZ 0
  /\ (forall s, parseInt10 (removeFirstKm (stripSeparators s)) = NaN ->
                parseMileage (Some s) = numZ 0)
  /\ (forall a b, compareVehicles h K주행거리 asc a b
                  = num_sub (mileageOf a) (mileageOf b))
  /\ Permutation sorted vehicles
  /\ StronglySorted (fun a b => num_lt (mileageOf b) (mileageOf a) = false) sorted
  /\ (forall front b back a,
         sorted = front ++ b :: back -> In a back ->
         num_lt (numZ 0) (mileageOf b) = true ->
         mileageOf a <> numZ 0).
Proof.
  intros mileageOf sorted.
  assert (Hsorted : StronglySorted
                      (fun a b => num_lt (mileageOf b) (mileageOf a) = false) sorted).
  { unfold sorted, sortVehicles.
    apply (sort_ascending (compareVehicles h K주행거리 asc) mileageOf).
    - intros x. apply parseMileage_number.
    - intros x y. apply negative_sub; apply parseMileage_number. }
  split; [reflexivity|]. split; [reflexivity|].
  split.
  { intros s Hs. unfold parseMileage. destruct s as [|c s]; [reflexivity|].
    now rewrite Hs. }
  split; [reflexivity|]. split; [apply sort_perm|]. split; [exact Hsorted|].
  intros front b back a E Ha Hb Hzero.
  rewrite E in Hsorted. apply sorted_after in Hsorted.
  rewrite Forall_forall in Hsorted. specialize (Hsorted a Ha). simpl in Hsorted.
  rewrite Hzero in Hsorted. congruence.
Qed.
End QueryClaims.

(* ================================================================== *)
(** ** The theorems at concrete inputs *)
(* ================================================================== *)

Lemma blank_header_gets_column_letter_witness :
  XlsxUtils.normalizeHeader AsciiHost.host (text "   ") 2 (str "Column") = str "Column C"
  /\ XlsxUtils.normalizeHeader AsciiHost.host (text " km ") 2 (str "Column") = str "km".
Proof.
  destruct blank_header_gets_column_letter as (Hblank & Hkeep & _ & _).
  split.
  - apply (Hblank AsciiHost.host (text "   ") 2%nat (str "Column")).
    right. left. reflexivity.
  - apply (Hkeep AsciiHost.host (text " km ") 2%nat (str "Column"));
      [reflexivity | discriminate | discriminate].
Defined.

Lemma column_type_by_majority_witness :
  XlsxParser.detectColumnType AsciiHost.host
    [text "1,200 Km"; text "43,437 Km"; JNum (numZ 7); text "12"; JStr []; text "n/a"]
  = XlsxParser.TNumber.
Proof.
  destruct (column_type_by_majority AsciiHost.host
              [text "1,200 Km"; text "43,437 Km"; JNum (numZ 7); text "12"; JStr [];
               text "n/a"])
    as (_ & _ & _ & H).
  apply H; [discriminate|]. vm_compute. discriminate.
Defined.

Lemma boolean_tally_is_by_exact_literal_witness :
  XlsxParser.booleanCount
    (XlsxParser.tallyStep AsciiHost.host XlsxParser.noTally (text "TRUE")) = 1%nat
  /\ XlsxParser.booleanCount
       (XlsxParser.tallyStep AsciiHost.host XlsxParser.noTally (text "True")) = 0%nat.
Proof.
  split.
  - rewrite (proj1 (boolean_tally_is_by_exact_literal AsciiHost.host XlsxParser.noTally
                      (text "TRUE"))); [reflexivity|].
    right. right. right. left. reflexivity.
  - apply (proj2 (boolean_tally_is_by_exact_literal AsciiHost.host XlsxParser.noTally
                    (text "True"))).
    intros [[b Hb] | [H | [H | [H | H]]]]; discriminate.
Defined.

Lemma nulls_sort_last_in_both_directions_witness :
  map (fun r => obj_get r (str "v"))
    (XlsxParser.sortData AsciiHost.host
       [ [(str "v", text "43,437 Km")]; [(str "v", text "1,200 Km")]; [(str "v", JNull)] ]
       (str "v") XlsxParser.asc)
  = [text "1,200 Km"; text "43,437 Km"; JNull].
Proof.
  apply (nulls_sort_last_in_both_directions AsciiHost.host [] [] XlsxParser.asc).
  reflexivity.
Defined.

Lemma unparseable_mileage_sorts_as_zero_witness :
  CsvParser.parseMileage (Some (str "unknown")) = numZ 0
  /\ map CsvParser.주행거리
       (CsvParser.sortVehicles AsciiHost.host
          [sampleVehicle "43,437 Km"; sampleVehicle "unknown"; sampleVehicle "1,200 Km";
           sampleVehicle "-"]
          CsvParser.K주행거리 XlsxParser.asc)
     = [str "unknown"; str "-"; str "1,200 Km"; str "43,437 Km"]
  /\ CsvParser.parseMileage (Some (str "43,437 Km")) <> numZ 0.
Proof.
  destruct (unparseable_mileage_sorts_as_zero AsciiHost.host
              [sampleVehicle "43,437 Km"; sampleVehicle "unknown";
               sampleVehicle "1,200 Km"; sampleVehicle "-"])
    as (_ & _ & Hnan & _ & _ & _ & Hbefore).
  split; [apply Hnan; reflexivity|]. split; [reflexivity|].
  apply (Hbefore [sampleVehicle "unknown"; sampleVehicle "-"]
           (sampleVehicle "1,200 Km") [sampleVehicle "43,437 Km"]
           (sampleVehicle "43,437 Km")).
  - reflexivity.
  - left. reflexivity.
  - reflexivity.
Defined.

(* ================================================================== *)
(** * Further properties of the code *)
(* ================================================================== *)

(** ** Rounding is exact on the integers below 2^53 *)

Module NumFacts.

Lemma pow2_nonneg (k : Z) : 0 <= k -> pow2 k = inject_Z (2 ^ k).
Proof. intros H. unfold pow2. now rewrite (proj2 (Z.leb_le 0 k) H). Qed.

Lemma Qdiv_1 (x : Q) : Qeq (Qdiv x (inject_Z 1)) x.
Proof.
  unfold Qdiv. change (Qinv (inject_Z 1)) with (inject_Z 1). apply Qmult_1_r.
Qed.

Lemma pow2_shift (n e : Z) :
  0 <= e <= 52 ->
  Qeq (Qdiv (inject_Z n) (pow2 (e - 52))) (inject_Z (n * 2 ^ (52 - e))).
Proof.
  intros He. destruct (Z.eq_dec e 52) as [->|Hne].
  - change (pow2 (52 - 52)) with (inject_Z 1). rewrite Qdiv_1.
    change (2 ^ (52 - 52)) with 1. now rewrite Z.mul_1_r.
  - unfold pow2. rewrite (proj2 (Z.leb_gt 0 (e - 52))) by lia.
    replace (- (e - 52)) with (52 - e) by lia.
    unfold Qdiv. rewrite Qinv_involutive. rewrite <- inject_Z_mult. reflexivity.
Qed.

Lemma pow2_unshift (n e : Z) :
  0 <= e <= 52 ->
  Qeq (Qmult (inject_Z (n * 2 ^ (52 - e))) (pow2 (e - 52))) (inject_Z n).
Proof.
  intros He. destruct (Z.eq_dec e 52) as [->|Hne].
  - change (pow2 (52 - 52)) with (inject_Z 1). rewrite Qmult_1_r.
    change (2 ^ (52 - 52)) with 1. now rewrite Z.mul_1_r.
  - unfold pow2. rewrite (proj2 (Z.leb_gt 0 (e - 52))) by lia.
    replace (- (e - 52)) with (52 - e) by lia.
    rewrite inject_Z_mult.
    assert (P : 0 < 2 ^ (52 - e)) by (apply Z.pow_pos_nonneg; lia).
    rewrite <- Qmult_assoc. rewrite Qmult_inv_r; [apply Qmult_1_r|].
    intros E. unfold Qeq, inject_Z in E. cbn [Qnum Qden] in E. lia.
Qed.

Lemma round_half_even_int (x : Q) (k : Z) :
  Qeq x (inject_Z k) -> round_half_even x = k.
Proof.
  intros E. unfold round_half_even.
  assert (F : Qfloor x = k) by (rewrite E; apply Qfloor_Z).
  rewrite F.
  assert (C : Qcompare (Qminus x (inject_Z k)) (1 # 2) = Lt).
  { apply (proj1 (Qlt_alt _ _)). rewrite E. lra. }
  now rewrite C.
Qed.

(** The steps of [round_double] on a positive integer below 2^53. *)
Lemma round_steps (n : Z) :
  0 < n < 2 ^ 53 ->
  let p := Z.max (floor_log2 (inject_Z n)) (-1022) - 52 in
  let v := Qmult (inject_Z (round_half_even (Qdiv (inject_Z n) (pow2 p)))) (pow2 p) in
  Qle_bool (pow2 1024) v = false /\ Qeq v (inject_Z n).
Proof.
  intros Hn.
  assert (L : floor_log2 (inject_Z n) = Z.log2 n).
  { unfold floor_log2. simpl Qnum. simpl Qden. simpl (Z.log2 1). rewrite Z.sub_0_r.
    assert (H2 : 0 <= Z.log2 n) by apply Z.log2_nonneg.
    rewrite pow2_nonneg by exact H2.
    assert (H : Qle_bool (inject_Z (2 ^ Z.log2 n)) (inject_Z n) = true).
    { apply Qle_bool_iff. rewrite <- Zle_Qle. apply Z.log2_spec. lia. }
    now rewrite H. }
  assert (He : 0 <= Z.log2 n <= 52).
  { split; [apply Z.log2_nonneg|].
    assert (Z.log2 n < 53) by (apply Z.log2_lt_pow2; lia). lia. }
  cbv zeta. rewrite L. rewrite Z.max_l by lia.
  rewrite (round_half_even_int _ (n * 2 ^ (52 - Z.log2 n))) by now apply pow2_shift.
  assert (V : Qeq (Qmult (inject_Z (n * 2 ^ (52 - Z.log2 n))) (pow2 (Z.log2 n - 52)))
                (inject_Z n)) by now apply pow2_unshift.
  split; [|exact V].
  destruct (Qle_bool _ _) eqn:B; [|reflexivity].
  apply Qle_bool_iff in B. rewrite V in B. rewrite pow2_nonneg in B by lia.
  rewrite <- Zle_Qle in B.
  assert (2 ^ 53 < 2 ^ 1024) by (apply Z.pow_lt_mono_r; lia). lia.
Qed.

Lemma Qred_int (x : Q) (n : Z) : Qeq x (inject_Z n) -> Qred x = inject_Z n.
Proof.
  intros E. rewrite (Qred_complete _ _ E). apply Qcanon.Qred_identity.
  apply Z.gcd_1_r.
Qed.

(** An integer below 2^53 in size is a double. *)
Lemma round_double_int (n : Z) :
  Z.abs n < 2 ^ 53 -> round_double (inject_Z n) = numZ n.
Proof.
  intros Hn. destruct (Z.lt_trichotomy n 0) as [Hneg | [-> | Hpos]].
  - unfold round_double.
    assert (C : Qcompare (inject_Z n) (inject_Z 0) = Lt).
    { apply (proj1 (Qlt_alt _ _)). rewrite <- Zlt_Qlt. exact Hneg. }
    rewrite C.
    assert (A : Qabs (inject_Z n) = inject_Z (- n)).
    { unfold Qabs, inject_Z. rewrite Z.abs_neq by lia. reflexivity. }
    rewrite A.
    destruct (round_steps (- n)) as [B V]; [lia|]. cbv zeta in B, V.
    rewrite B. unfold numZ. f_equal.
    rewrite Qred_opp, (Qred_int _ _ V). unfold Qopp, inject_Z. cbn [Qnum Qden].
    now rewrite Z.opp_involutive.
  - reflexivity.
  - unfold round_double.
    assert (C : Qcompare (inject_Z n) (inject_Z 0) = Gt).
    { apply (proj1 (Qgt_alt _ _)). rewrite <- Zlt_Qlt. exact Hpos. }
    rewrite C.
    assert (A : Qabs (inject_Z n) = inject_Z n).
    { unfold Qabs, inject_Z. rewrite Z.abs_eq by lia. reflexivity. }
    rewrite A.
    destruct (round_steps n) as [B V]; [lia|]. cbv zeta in B, V.
    rewrite B. unfold numZ. f_equal. now apply Qred_int.
Qed.

(** Sums and products of integers that stay below 2^53 are exact. *)
Lemma Qplus_inject (a b : Z) : Qplus (inject_Z a) (inject_Z b) = inject_Z (a + b).
Proof. unfold Qplus, inject_Z. cbn [Qnum Qden]. f_equal. lia. Qed.

Lemma Qmult_inject (a b : Z) : Qmult (inject_Z a) (inject_Z b) = inject_Z (a * b).
Proof. reflexivity. Qed.

Lemma num_add_int (a b : Z) :
  Z.abs (a + b) < 2 ^ 53 -> num_add (numZ a) (numZ b) = numZ (a + b).
Proof.
  intros H. unfold numZ at 1 2. cbn [num_add]. rewrite Qplus_inject.
  now apply round_double_int.
Qed.

Lemma num_mul_int (a b : Z) :
  Z.abs (a * b) < 2 ^ 53 -> num_mul (numZ a) (numZ b) = numZ (a * b).
Proof.
  intros H. unfold numZ at 1 2. cbn [num_mul]. rewrite Qmult_inject.
  now apply round_double_int.
Qed.

End NumFacts.

(** ** Headers and records of a worksheet (lib/xlsxUtils) *)

Module SheetFacts.
Import XlsxUtils JSFacts HeaderFacts MaterializeFacts.

Lemma mapi_from_Forall {A B} (P : B -> Prop) (f : A -> nat -> B) (i : nat) (l : list A) :
  (forall x j, P (f x j)) -> Forall P (mapi_from f i l).
Proof.
  intros H. revert i; induction l as [|x l IH]; intros i; simpl; constructor; auto.
Qed.

Lemma fallbackName_nonempty (prefix : JsString) (i : nat) : fallbackName prefix i <> [].
Proof.
  unfold fallbackName. intros E. apply app_eq_nil in E as [_ E]. discriminate.
Qed.

Lemma normalizeHeader_nonempty (h : Host) (header : JsValue) (i : nat) (prefix : JsString) :
  normalizeHeader h header i prefix <> [].
Proof.
  unfold normalizeHeader. destruct (isNullish header); [apply fallbackName_nonempty|].
  destruct (str_eqb (trim (ToString h header)) []) eqn:E; simpl.
  - apply fallbackName_nonempty.
  - destruct (str_eqb _ (str "undefined")); [apply fallbackName_nonempty|].
    now apply str_eqb_neq.
Qed.

(** Reading back what a run of assignments stored: the last assignment to
    the key decides. *)
Lemma assignAll_app {X} (key : X -> JsString) (val : X -> JsValue)
    (l1 l2 : list X) (o : JsObject) :
  assignAll key val (l1 ++ l2) o = assignAll key val l2 (assignAll key val l1 o).
Proof. unfold assignAll. apply fold_left_app. Qed.

Lemma assignAll_get_other {X} (key : X -> JsString) (val : X -> JsValue)
    (l : list X) (o : JsObject) (k : JsString) :
  ~ In k (map key l) -> obj_get (assignAll key val l o) k = obj_get o k.
Proof.
  unfold assignAll. revert o. induction l as [|x l IH]; intros o Hn; simpl; [reflexivity|].
  rewrite IH by (intros H; apply Hn; now right).
  apply obj_get_set_other. intros E. apply Hn. now left.
Qed.

Lemma assignAll_get_last {X} (key : X -> JsString) (val : X -> JsValue)
    (l1 l2 : list X) (x : X) (o : JsObject) :
  key x <> protoKey ->
  ~ In (key x) (map key l2) ->
  obj_get (assignAll key val (l1 ++ x :: l2) o) (key x) = val x.
Proof.
  intros Hp Hn. rewrite assignAll_app. change (x :: l2) with ([x] ++ l2).
  rewrite assignAll_app, assignAll_get_other by exact Hn.
  unfold assignAll. simpl. apply obj_get_set_same. now left.
Qed.

Lemma indexed_from_app {A} (l1 l2 : list A) (a : nat) :
  combine (l1 ++ l2) (seq a (List.length (l1 ++ l2)))
  = combine l1 (seq a (List.length l1))
    ++ combine l2 (seq (a + List.length l1) (List.length l2)).
Proof.
  revert a; induction l1 as [|x l1 IH]; intros a; simpl.
  - now rewrite Nat.add_0_r.
  - f_equal. rewrite IH. do 3 f_equal. lia.
Qed.

Lemma indexed_keys_from {A} (l : list A) (a : nat) :
  map fst (combine l (seq a (List.length l))) = l.
Proof.
  revert a; induction l as [|x l IH]; intros a; simpl; [reflexivity|]. now rewrite IH.
Qed.

Lemma nth_error_split_at {A} (l : list A) (j : nat) (x : A) :
  nth_error l j = Some x ->
  exists l1 l2, l = l1 ++ x :: l2 /\ List.length l1 = j.
Proof.
  intros H. exists (firstn j l), (skipn (S j) l). split.
  - symmetry. now apply firstn_skipn_middle.
  - apply firstn_length_le. apply Nat.lt_le_incl. apply nth_error_Some. congruence.
Qed.

Section WithHost.
Variable h : Host.

(** Two rows that give the same text at every header position give the same
    record. *)
Lemma makeRowObject_ext (headers : list JsString) (row row' : list JsValue) :
  (forall i, (i < List.length headers)%nat ->
             cellText h (nth i row JUndefined) = cellText h (nth i row' JUndefined)) ->
  makeRowObject h headers row = makeRowObject h headers row'.
Proof.
  intros H. unfold makeRowObject, indexed.
  assert (G : forall (l : list JsString) (a : nat) (o : JsObject),
             (forall i, (a <= i < a + List.length l)%nat ->
                        cellText h (nth i row JUndefined)
                        = cellText h (nth i row' JUndefined)) ->
             fold_left (fun rowObject hi =>
                          obj_set rowObject (fst hi) (cellText h (nth (snd hi) row JUndefined)))
               (combine l (seq a (List.length l))) o
             = fold_left (fun rowObject hi =>
                            obj_set rowObject (fst hi) (cellText h (nth (snd hi) row' JUndefined)))
                 (combine l (seq a (List.length l))) o).
  { induction l as [|x l IH]; intros a o Hi; simpl; [reflexivity|].
    simpl in Hi. rewrite (Hi a) by lia. apply IH. intros i Hb. apply Hi. lia. }
  apply G. intros i Hi. apply H. lia.
Qed.

Lemma materialize_length (headers : list JsString) (skip : bool)
    (rows : list (list JsValue)) :
  List.length (materialize h headers skip rows)
  = if skip then List.length (filter (hasData h) rows) else List.length rows.
Proof.
  induction rows as [|row rows IH]; simpl; [now destruct skip|].
  destruct skip; simpl in *.
  - destruct (hasData h row); simpl; now rewrite IH.
  - now rewrite IH.
Qed.

(** The header found is the normalized row at the returned index. *)
Lemma discoverHeader_row (rawData : list (list JsValue)) (minColumns maxRows : Z)
    (prefix : JsString) (index : Z) (headers : list JsString) :
  rawData <> [] ->
  discoverHeader h rawData minColumns maxRows prefix = (index, headers) ->
  exists row, nth_error rawData (Z.to_nat index) = Some row
              /\ 0 <= index /\ headers = normalizeRow h prefix row.
Proof.
  intros Hne E. unfold discoverHeader in E.
  destruct (findHeaderRow h minColumns 0 _) as [[k row]|] eqn:F.
  - injection E as <- <-.
    apply findHeaderRow_Some in F as (i & -> & Hn & _). simpl.
    exists row. rewrite Nat2Z.id. split; [|split; [lia | reflexivity]].
    rewrite window_nth in Hn.
    destruct (Z.of_nat i <? _); [exact Hn | discriminate].
  - destruct rawData as [|firstRow rest]; [contradiction|].
    injection E as <- <-. exists firstRow. repeat split. lia.
Qed.

Lemma finalColumns_incl (headers : list JsString) (rows : list JsObject) (c : JsString) :
  In c (finalColumns h headers rows) -> In c headers.
Proof.
  unfold finalColumns. destruct (columnsWithData h headers rows) eqn:W; [tauto|].
  rewrite <- W. intros H. now apply columnsWithData_In in H.
Qed.

(** The result of parseWorksheetRobust, case by case. *)
Lemma parse_cases (rawData : list (list JsValue)) (options : XLSXParseOptions) :
  let result := parseWorksheetRobust h rawData options in
  (headerRowIndex result = -1 /\ data result = [] /\ columns result = [])
  \/ (exists index headers,
         rawData <> [] /\ headers <> []
         /\ discoverHeader h rawData (orDefault (minHeaderColumns options) 2)
              (orDefault (maxHeaderSearchRows options) 20)
              (orDefault (fallbackColumnPrefix options) (str "Column"))
            = (index, headers)
         /\ headerRowIndex result = index).
Proof.
  intros result. unfold result, parseWorksheetRobust.
  destruct rawData as [|r0 rest]; [left; repeat split|].
  destruct (discoverHeader _ _ _ _ _) as [index headers] eqn:E.
  destruct headers as [|c cs]; [left; repeat split|].
  right. exists index, (c :: cs). repeat split; discriminate.
Qed.
(** A value of a returned record under a returned column is trimmed text;
    under any other name the record has nothing of its own.  Under
    __proto__ a record has no property and reads the prototype. *)
Lemma result_value_trimmed (rawData : list (list JsValue)) (options : XLSXParseOptions)
    (r : JsObject) (c : JsString) :
  In r (data (parseWorksheetRobust h rawData options)) ->
  In c (columns (parseWorksheetRobust h rawData options)) ->
  c <> protoKey ->
  trimmedText (obj_get r c).
Proof.
  intros Hr Hc Hp.
  destruct (parse_cases rawData options) as [(_ & Hd & _) | (index & headers & Hraw & Hh & E & _)].
  - rewrite Hd in Hr. contradiction.
  - destruct (parse_stages h rawData options index headers Hraw Hh E) as [Hcols Hdata].
    rewrite Hdata in Hr.
    apply in_map_iff in Hr as (r0 & <- & Hr0).
    rewrite Hcols in Hc.
    rewrite (proj1 (cleanRow_get _ r0 c Hp) Hc).
    destruct (materialized_cell h headers _ _ r0 c Hr0 (finalColumns_incl _ _ _ Hc) Hp)
      as (t & Ht & Htrim).
    exists t. rewrite Ht. split; [reflexivity | exact Htrim].
Qed.

Lemma result_value_proto (rawData : list (list JsValue)) (options : XLSXParseOptions)
    (r : JsObject) :
  In r (data (parseWorksheetRobust h rawData options)) ->
  ~ In protoKey (obj_keys r) /\ obj_get r protoKey = JMember MProto.
Proof.
  intros Hr. destruct (parse_result_shape h rawData options) as [rows E].
  rewrite E in Hr. apply in_map_iff in Hr as (r0 & <- & _).
  rewrite obj_keys_In. apply cleanRow_proto.
Qed.

Lemma result_value_absent (rawData : list (list JsValue)) (options : XLSXParseOptions)
    (r : JsObject) (c : JsString) :
  In r (data (parseWorksheetRobust h rawData options)) ->
  ~ In c (columns (parseWorksheetRobust h rawData options)) ->
  obj_get r c = match inherited c with Some m => JMember m | None => JUndefined end.
Proof.
  intros Hr Hc.
  destruct (list_eq_dec N.eq_dec c protoKey) as [-> | Hp].
  - now rewrite (proj2 (result_value_proto rawData options r Hr)).
  - destruct (parse_result_shape h rawData options) as [rows E].
    rewrite E in Hr. apply in_map_iff in Hr as (r0 & <- & _).
    now apply cleanRow_get.
Qed.

(** What a returned record holds under any name: text, nothing, or an
    inherited member; never a number. *)
Lemma result_value_kinds (rawData : list (list JsValue)) (options : XLSXParseOptions)
    (r : JsObject) (k : JsString) :
  In r (data (parseWorksheetRobust h rawData options)) ->
  (exists t, obj_get r k = JStr t /\ trim t = t)
  \/ obj_get r k = JUndefined
  \/ exists m, obj_get r k = JMember m.
Proof.
  intros Hr.
  destruct (list_eq_dec N.eq_dec k protoKey) as [-> | Hp].
  - right. right. exists MProto. apply (result_value_proto rawData options r Hr).
  - destruct (in_dec (list_eq_dec N.eq_dec) k
                (columns (parseWorksheetRobust h rawData options))) as [Hc | Hc].
    + left. exact (result_value_trimmed rawData options r k Hr Hc Hp).
    + rewrite (result_value_absent rawData options r k Hr Hc).
      destruct (inherited k) as [m|]; [right; right; now exists m | right; now left].
Qed.

Lemma result_keys (rawData : list (list JsValue)) (options : XLSXParseOptions)
    (r : JsObject) (k : JsString) :
  In r (data (parseWorksheetRobust h rawData options)) ->
  In k (obj_keys r)
  <-> In k (columns (parseWorksheetRobust h rawData options)) /\ k <> protoKey.
Proof.
  intros Hr. destruct (parse_result_shape h rawData options) as [rows E].
  rewrite E in Hr. apply in_map_iff in Hr as (r0 & <- & _).
  rewrite obj_keys_In. apply cleanRow_keys.
Qed.

(** A record read under a header name. *)
Lemma makeRowObject_value (headers : list JsString) (row : list JsValue) (j : nat)
    (name : JsString) :
  nth_error headers j = Some name ->
  (forall j', (j < j')%nat -> nth_error headers j' <> Some name) ->
  name <> protoKey ->
  obj_get (makeRowObject h headers row) name = cellText h (nth j row JUndefined).
Proof.
  intros Hj Hlast Hp.
  destruct (nth_error_split_at headers j name Hj) as (l1 & l2 & -> & Hlen).
  unfold makeRowObject, indexed.
  rewrite (indexed_from_app l1 (name :: l2) 0). simpl combine. simpl Nat.add.
  rewrite Hlen.
  apply (assignAll_get_last fst (fun hi => cellText h (nth (snd hi) row JUndefined))
           (combine l1 (seq 0 j)) (combine l2 (seq (S j) (List.length l2))) (name, j) []);
    [exact Hp|].
  simpl. rewrite indexed_keys_from. intros Hin.
  apply In_nth_error in Hin as [i Hi].
  apply (Hlast (List.length l1 + S i)%nat); [lia|].
  rewrite nth_error_app2 by lia.
  replace (List.length l1 + S i - List.length l1)%nat with (S i) by lia.
  exact Hi.
Qed.
End WithHost.

End SheetFacts.

Section SheetProperties.
Import XlsxUtils JSFacts HeaderFacts MaterializeFacts SheetFacts.
Variable h : Host.

(** X1: normalizing a header row gives one name per cell, and no name is the
    empty string, whatever the cell and the fallback prefix are. *)
Theorem header_names_are_never_blank (row : list JsValue) (prefix : JsString) :
  List.length (normalizeRow h prefix row) = List.length row
  /\ Forall (fun name => name <> []) (normalizeRow h prefix row).
Proof.
  split.
  - apply mapi_from_length.
  - apply mapi_from_Forall. intros x j. apply normalizeHeader_nonempty.
Qed.

(** X2: a materialized record holds, under a header name other than
    __proto__, the trimmed text of the cell at the position of that name in
    the header row (the empty string when the row has no such cell or the
    cell is null); when the name occurs more than once, the cell at its
    last position.  Under __proto__ the record gets no property: reading it
    gives the prototype object, whatever the cells hold. *)
Theorem record_holds_the_cell_under_its_header
    (headers : list JsString) (row : list JsValue) (j : nat) (name : JsString) :
  nth_error headers j = Some name ->
  (forall j', (j < j')%nat -> nth_error headers j' <> Some name) ->
  (name <> protoKey ->
   obj_get (makeRowObject h headers row) name = cellText h (nth j row JUndefined))
  /\ obj_get (makeRowObject h headers row) protoKey = JMember MProto
  /\ ~ In protoKey (obj_keys (makeRowObject h headers row)).
Proof.
  intros Hj Hlast. split; [|split].
  - now apply makeRowObject_value.
  - apply makeRowObject_proto.
  - rewrite obj_keys_In, makeRowObject_keys. tauto.
Qed.

(** X3: only the cells under the header count: cells beyond the header
    width are ignored, and a row that is too short gives the same record as
    the row filled up with empty cells. *)
Theorem ragged_rows_are_cut_and_padded
    (headers : list JsString) (row extra : list JsValue) (k : nat) :
  makeRowObject h headers (firstn (List.length headers) row) = makeRowObject h headers row
  /\ ((List.length headers <= List.length row)%nat ->
      makeRowObject h headers (row ++ extra) = makeRowObject h headers row)
  /\ makeRowObject h headers (row ++ repeat (JStr []) k) = makeRowObject h headers row.
Proof.
  split; [|split].
  - apply makeRowObject_ext. intros i Hi. f_equal.
    rewrite <- (firstn_skipn (List.length headers) row) at 2.
    destruct (Nat.lt_ge_cases i (List.length (firstn (List.length headers) row))) as [L|L].
    + now rewrite app_nth1.
    + rewrite (nth_overflow (firstn _ _)) by exact L.
      rewrite length_firstn in L.
      rewrite nth_overflow; [reflexivity|].
      rewrite length_app, length_firstn, length_skipn. lia.
  - intros Hlen. apply makeRowObject_ext. intros i Hi. f_equal.
    apply app_nth1. lia.
  - apply makeRowObject_ext. intros i Hi.
    destruct (Nat.lt_ge_cases i (List.length row)) as [L|L].
    + now rewrite app_nth1.
    + rewrite app_nth2 by exact L. rewrite (nth_overflow row) by exact L.
      destruct (Nat.lt_ge_cases (i - List.length row) k) as [M|M].
      * rewrite (nth_indep _ JUndefined (JStr [])) by now rewrite repeat_length.
        now rewrite nth_repeat.
      * rewrite nth_overflow by now rewrite repeat_length. reflexivity.
Qed.

(** X4: parseWorksheetRobust counts the raw rows; it returns the index -1
    exactly when it returns no column, and then no record either; any other
    index is that of a row of the grid, and every returned column is a name
    of the normalized header row at that index. *)
Theorem header_index_and_columns_go_together
    (rawData : list (list JsValue)) (options : XLSXParseOptions) :
  let result := parseWorksheetRobust h rawData options in
  totalRawRows result = Z.of_nat (List.length rawData)
  /\ (headerRowIndex result = -1 <-> columns result = [])
  /\ (headerRowIndex result = -1 -> data result = [])
  /\ (headerRowIndex result <> -1 ->
      exists row,
        nth_error rawData (Z.to_nat (headerRowIndex result)) = Some row
        /\ 0 <= headerRowIndex result < totalRawRows result
        /\ forall c, In c (columns result) ->
                     In c (normalizeRow h
                             (orDefault (fallbackColumnPrefix options) (str "Column")) row)).
Proof.
  intros result.
  assert (Htotal : totalRawRows result = Z.of_nat (List.length rawData)).
  { unfold result, parseWorksheetRobust. destruct rawData; [reflexivity|].
    destruct (discoverHeader _ _ _ _ _) as [i hs]. now destruct hs. }
  split; [exact Htotal|].
  destruct (parse_cases h rawData options) as [(Hi & Hd & Hc) | (index & headers & Hr & Hh & E & Hi)];
    fold result in Hi.
  - fold result in Hd, Hc. split; [tauto|]. split; [tauto|]. intros Hn. contradiction.
  - destruct (parse_stages h rawData options index headers Hr Hh E) as [Hc Hd].
    fold result in Hc, Hd.
    destruct (discoverHeader_row h rawData _ _ _ index headers Hr E) as (row & Hn & H0 & Hrow).
    assert (Hcols : columns result <> []).
    { rewrite Hc. unfold finalColumns.
      destruct (columnsWithData h headers _); [exact Hh | discriminate]. }
    split; [split; [intros Hm; lia | intros Hm; contradiction]|].
    split; [intros Hm; lia|].
    intros _. exists row. rewrite Hi. split; [exact Hn|]. split.
    + split; [exact H0|]. rewrite Htotal.
      assert (Z.to_nat index < List.length rawData)%nat
        by (apply nth_error_Some; congruence). lia.
    + intros c Hin. rewrite Hc in Hin. apply finalColumns_incl in Hin. now rewrite <- Hrow.
Qed.

(** X5: every value of every returned record, under every returned column
    other than __proto__, is a string without white space at either end.
    Under a returned column __proto__ no record has a property, and reading
    it gives the prototype object. *)
Theorem record_values_are_trimmed_text
    (rawData : list (list JsValue)) (options : XLSXParseOptions)
    (r : JsObject) (c : JsString) :
  let result := parseWorksheetRobust h rawData options in
  In r (data result) -> In c (columns result) ->
  (c <> protoKey -> exists t, obj_get r c = JStr t /\ trim t = t)
  /\ (c = protoKey -> ~ In c (obj_keys r) /\ obj_get r c = JMember MProto).
Proof.
  intros result Hr Hc. split.
  - intros Hp. exact (result_value_trimmed h rawData options r c Hr Hc Hp).
  - intros ->. exact (result_value_proto h rawData options r Hr).
Qed.

(** X6: when a header is found there is one record for every row after the
    header row that has a cell with text; with skipEmptyRows off, one for
    every row after the header row. *)
Theorem one_record_per_row_with_data
    (rawData : list (list JsValue)) (options : XLSXParseOptions) :
  let result := parseWorksheetRobust h rawData options in
  let after := skipn (Z.to_nat (headerRowIndex result + 1)) rawData in
  headerRowIndex result <> -1 ->
  List.length (data result)
  = if orDefault (skipEmptyRows options) true
    then List.length (filter (hasData h) after)
    else List.length after.
Proof.
  intros result after Hfound.
  destruct (parse_cases h rawData options) as [(Hi & _) | (index & headers & Hraw & Hh & E & Hi)];
    fold result in Hi; [contradiction|].
  destruct (parse_stages h rawData options index headers Hraw Hh E) as [_ Hdata].
  fold result in Hdata. rewrite Hdata, length_map, materialize_length.
  unfold after. now rewrite Hi.
Qed.
End SheetProperties.

(** ** Filtering, typing and ingestion (lib/xlsxParser) *)

Module ParserFacts.
Import XlsxParser JSFacts.

Lemma filter_idem {A} (f : A -> bool) (l : list A) : filter f (filter f l) = filter f l.
Proof.
  induction l as [|x l IH]; simpl; [reflexivity|].
  destruct (f x) eqn:E; simpl; [rewrite E; now f_equal | exact IH].
Qed.

Lemma filter_both {A} (f g : A -> bool) (l : list A) :
  filter g (filter f l) = filter (fun x => f x && g x) l.
Proof.
  induction l as [|x l IH]; simpl; [reflexivity|].
  destruct (f x); simpl; [destruct (g x); [now f_equal | exact IH] | exact IH].
Qed.

Lemma filter_none {A} (f : A -> bool) (l : list A) :
  (forall x, In x l -> f x = false) -> filter f l = [].
Proof.
  induction l as [|x l IH]; simpl; intros H; [reflexivity|].
  rewrite (H x) by now left. apply IH. intros y Hy. apply H. now right.
Qed.


(** The loop of detectColumnType does not depend on the order of the values. *)
Lemma tallyStep_swap (h : Host) (t : Tally) (a b : JsValue) :
  tallyStep h (tallyStep h t a) b = tallyStep h (tallyStep h t b) a.
Proof.
  unfold tallyStep.
  repeat match goal with
         | |- context [if ?c then _ else _] => destruct c
         | |- context [match ?v with JUndefined => _ | _ => _ end] => destruct v
         end; reflexivity.
Qed.

Lemma tally_perm (h : Host) (l l' : list JsValue) :
  Permutation l l' -> forall t, fold_left (tallyStep h) l t = fold_left (tallyStep h) l' t.
Proof.
  induction 1 as [| x l l' _ IH | x y l | l l' l'' _ IH1 _ IH2]; intros t; simpl.
  - reflexivity.
  - apply IH.
  - now rewrite tallyStep_swap.
  - now rewrite IH1.
Qed.

Lemma filter_perm {A} (f : A -> bool) (l l' : list A) :
  Permutation l l' -> Permutation (filter f l) (filter f l').
Proof.
  induction 1 as [| x l l' _ IH | x y l | l l' l'' _ IH1 _ IH2]; simpl.
  - constructor.
  - destruct (f x); [now constructor | exact IH].
  - destruct (f x), (f y); try reflexivity. apply perm_swap.
  - now transitivity (filter f l').
Qed.

End ParserFacts.

Section ParserProperties.
Import XlsxParser JSFacts ParserFacts SheetFacts IngestFacts.
Variable h : Host.

(** X7: a constraint that is a bare number asks for a field that is that
    very number; the records of a parsed worksheet hold text only (and read
    undefined or an inherited member under any other name), so filtering
    them by any numeric constraint returns nothing. *)
Theorem number_constraint_matches_no_sheet_record
    (rawData : list (list JsValue)) (options : XlsxUtils.XLSXParseOptions)
    (filters : list (JsString * FilterValue)) (key : JsString) (n : JsNum) :
  In (key, FValue (JNum n)) filters ->
  filterData h (XlsxUtils.data (XlsxUtils.parseWorksheetRobust h rawData options)) filters
  = [].
Proof.
  intros Hin. unfold filterData. apply filter_none. intros r Hr.
  apply not_true_is_false. intros Hall.
  rewrite forallb_forall in Hall. specialize (Hall _ Hin). simpl in Hall.
  destruct (result_value_kinds h rawData options r key Hr)
    as [(t & Ht & _) | [Hu | (m & Hm)]].
  - rewrite Ht in Hall. discriminate.
  - rewrite Hu in Hall. discriminate.
  - rewrite Hm in Hall. discriminate.
Qed.

(** X8: filtering twice by the same constraints is filtering once; filtering
    by two lists of constraints one after the other is filtering by both at
    once; a constraint that is null, undefined, the empty string, a boolean,
    a Date, or an object without min or without max filters nothing. *)
Theorem filters_compose (rows : list JsObject) (filters more : list (JsString * FilterValue)) :
  filterData h (filterData h rows filters) filters = filterData h rows filters
  /\ filterData h (filterData h rows filters) more = filterData h rows (filters ++ more)
  /\ filterData h rows [] = rows
  /\ forall (key : JsString) (value : FilterValue),
       match value with
       | FValue (JNum _) => False
       | FValue (JStr s) => s = []
       | FValue _ => True
       | FObject min max => min = JUndefined \/ max = JUndefined
       end ->
       filterData h rows ((key, value) :: filters) = filterData h rows filters.
Proof.
  unfold filterData. split; [apply filter_idem|]. split; [|split].
  - rewrite filter_both. apply filter_ext. intros r. now rewrite forallb_app.
  - simpl. induction rows as [|r rows IH]; simpl; [reflexivity | now f_equal].
  - intros key value Hv. apply filter_ext. intros r. simpl.
    replace (passes h r key value) with true; [reflexivity|].
    destruct value as [[| |b|n|s|t|m] | min max]; simpl; try reflexivity.
    + contradiction.
    + now subst s.
    + destruct Hv as [-> | ->]; [reflexivity | now destruct min].
Qed.

(** X9: the inferred type of a column does not depend on the order of its
    values. *)
Theorem column_type_ignores_order (values values' : list JsValue) :
  Permutation values values' ->
  detectColumnType h values = detectColumnType h values'.
Proof.
  intros P. unfold detectColumnType.
  pose proof (filter_perm nonNull _ _ P) as Pf.
  pose proof (Permutation_length Pf) as Hlen.
  assert (Ht : tally h (filter nonNull values) = tally h (filter nonNull values')).
  { unfold tally. now apply tally_perm. }
  destruct (filter nonNull values) as [|v vs] eqn:E1;
    destruct (filter nonNull values') as [|v' vs'] eqn:E2; try discriminate.
  - reflexivity.
  - rewrite Ht, Hlen. reflexivity.
Qed.


(** X11: whatever the file and however the library calls end, the outcome
    of parseExcelFile counts its own records and columns in its metadata;
    an outcome with an error has no record and no column; no returned
    record is empty throughout; and there are columns only when there are
    records. *)
Theorem parse_outcome_is_consistent
    (csv : Completion (list JsObject)) (xlsx : Completion (list (list JsValue)))
    (file : JsString) :
  let outcome := parseExcelFile h csv xlsx file in
  totalRows (metadata outcome) = List.length (data outcome)
  /\ totalColumns (metadata outcome) = List.length (columns outcome)
  /\ (error outcome <> None -> data outcome = [] /\ columns outcome = [])
  /\ (forall r, In r (data outcome) ->
        exists v, In v (obj_values r) /\ nonNull v = true)
  /\ (data outcome = [] -> columns outcome = []).
Proof.
  intros outcome.
  assert (Hfinish : forall rows,
    let o := {| data := filter rowNotEmpty rows;
                columns := analyzeColumns h (filter rowNotEmpty rows);
                metadata := {| fileName := file; fileType := extensionOf h file;
                               totalRows := List.length (filter rowNotEmpty rows);
                               totalColumns :=
                                 List.length (analyzeColumns h (filter rowNotEmpty rows)) |};
                error := None |} in
    totalRows (metadata o) = List.length (data o)
    /\ totalColumns (metadata o) = List.length (columns o)
    /\ (error o <> None -> data o = [] /\ columns o = [])
    /\ (forall r, In r (data o) ->
          exists v, In v (obj_values r) /\ nonNull v = true)
    /\ (data o = [] -> columns o = [])).
  { intros rows o. cbn [data columns metadata error totalRows totalColumns o].
    repeat split; try reflexivity; try congruence.
    - intros r Hr. apply filter_In in Hr as [_ Hr]. unfold rowNotEmpty in Hr.
      apply existsb_exists in Hr as (v & Hv & Hn).
      now exists v.
    - intros E. now rewrite E. }
  assert (Hfail : forall message,
    let o := failure h file message in
    totalRows (metadata o) = List.length (data o)
    /\ totalColumns (metadata o) = List.length (columns o)
    /\ (error o <> None -> data o = [] /\ columns o = [])
    /\ (forall r, In r (data o) ->
          exists v, In v (obj_values r) /\ nonNull v = true)
    /\ (data o = [] -> columns o = [])).
  { intros message o. cbn. repeat split; try reflexivity. intros r []. }
  unfold outcome, parseExcelFile.
  destruct (str_eqb (extensionOf h file) (str "csv")).
  - destruct csv as [rows | m]; [apply Hfinish | apply Hfail].
  - destruct (str_eqb _ (str "xlsx") || str_eqb _ (str "xls")).
    + destruct xlsx as [rawData | m]; [apply Hfinish | apply Hfail].
    + apply Hfail.
Qed.
End ParserProperties.

(** ** Sorting by a numeric key *)

Module OrderFacts.
Import SortFacts.

Lemma sink_ext_in {A} (c c' : A -> A -> JsNum) (x : A) (l : list A) :
  (forall y, In y l -> negative (c x y) = negative (c' x y)) ->
  sink c x l = sink c' x l.
Proof.
  induction l as [|y l IH]; simpl; intros H; [reflexivity|].
  rewrite (H y) by now left.
  destruct (negative (c' x y)); [|reflexivity].
  f_equal. apply IH. intros z Hz. apply H. now right.
Qed.

Lemma sinks_ext_in {A} (c c' : A -> A -> JsNum) (l acc : list A) :
  (forall x y, In x (l ++ acc) -> In y (l ++ acc) ->
               negative (c x y) = negative (c' x y)) ->
  fold_left (fun s x => sink c x s) l acc = fold_left (fun s x => sink c' x s) l acc.
Proof.
  revert acc. induction l as [|x l IH]; intros acc H; simpl; [reflexivity|].
  rewrite (sink_ext_in c c' x acc).
  - apply IH. intros a b Ha Hb.
    assert (Hscope : forall z, In z (l ++ sink c' x acc) -> In z ((x :: l) ++ acc)).
    { intros z Hz. apply in_app_or in Hz as [Hz | Hz].
      - simpl. right. apply in_or_app. now left.
      - apply (Permutation_in _ (sink_perm c' x acc)) in Hz as [-> | Hz].
        + now left.
        + simpl. right. apply in_or_app. now right. }
    apply H; now apply Hscope.
  - intros y Hy. apply H; [now left|]. simpl. right. apply in_or_app. now right.
Qed.

(** Only the comparisons between elements of the array matter. *)
Lemma sort_ext_in {A} (c c' : A -> A -> JsNum) (l : list A) :
  (forall x y, In x l -> In y l -> negative (c x y) = negative (c' x y)) ->
  sort c l = sort c' l.
Proof.
  intros H. unfold sort. f_equal. apply sinks_ext_in.
  intros x y. rewrite app_nil_r. apply H.
Qed.

Lemma sorted_impl_in {A} (R R' : A -> A -> Prop) (l : list A) :
  (forall a b, In a l -> In b l -> R a b -> R' a b) ->
  StronglySorted R l -> StronglySorted R' l.
Proof.
  intros H Hs. induction Hs as [|x l Hs IH Hall]; constructor.
  - apply IH. intros a b Ha Hb. apply H; now right.
  - rewrite Forall_forall in *. intros y Hy. apply H; [now left | now right | now apply Hall].
Qed.

Section KeyedOn.
Context {A : Type} (comparefn : A -> A -> JsNum) (key : A -> JsNum) (l : list A).
Hypothesis key_number : forall x, In x l -> isNaN (key x) = false.
Hypothesis compare_key :
  forall x y, In x l -> In y l -> negative (comparefn x y) = num_lt (key x) (key y).

(** When the comparator orders the elements of the array by a key that is a
    number on each of them, the sorted array ascends in that key. *)
Lemma sort_ascending_on :
  StronglySorted (fun a b => num_lt (key b) (key a) = false) (sort comparefn l).
Proof.
  set (key' := fun x => if isNaN (key x) then numZ 0 else key x).
  set (comparefn' := fun x y => num_sub (key' x) (key' y)).
  assert (Hk : forall x, In x l -> key' x = key x).
  { intros x Hx. unfold key'. now rewrite key_number. }
  assert (Hn : forall x, isNaN (key' x) = false).
  { intros x. unfold key'. destruct (isNaN (key x)) eqn:E; [reflexivity | exact E]. }
  rewrite (sort_ext_in comparefn comparefn').
  - apply (sorted_impl_in (notAbove key')).
    + intros a b Ha Hb. unfold notAbove.
      apply (Permutation_in _ (sort_perm comparefn' l)) in Ha, Hb.
      now rewrite !Hk.
    + apply (sort_ascending comparefn' key' Hn).
      intros x y. unfold comparefn'. now apply negative_sub.
  - intros x y Hx Hy. rewrite compare_key by assumption.
    unfold comparefn'. rewrite negative_sub by apply Hn. now rewrite !Hk.
Qed.
End KeyedOn.

Lemma num_lt_neg (x y : JsNum) : num_lt (num_neg x) (num_neg y) = num_lt y x.
Proof.
  destruct x as [| |a|], y as [| |b|]; simpl; try reflexivity.
  apply eq_true_iff_eq. change (num_lt (Fin (- a)) (Fin (- b)) = true <-> num_lt (Fin b) (Fin a) = true).
  rewrite !num_lt_Fin. split; intros H.
  - apply Qopp_lt_compat in H. now rewrite !Qopp_involutive in H.
  - now apply Qopp_lt_compat.
Qed.

Lemma negative_neg_sub (x y : JsNum) :
  isNaN x = false -> isNaN y = false ->
  negative (num_neg (num_sub x y)) = num_lt y x.
Proof.
  intros Hx Hy.
  destruct x as [| |a|], y as [| |b|]; try discriminate; try reflexivity.
  unfold negative. simpl num_sub. simpl num_neg.
  apply eq_true_iff_eq. unfold numZ. rewrite !num_lt_Fin.
  unfold Qlt, Qopp, Qminus, Qplus, Qopp, inject_Z; cbn [Qnum Qden]. split; intros H; nia.
Qed.

(** A comparator that always answers 0 leaves the array as it is. *)
Lemma sort_indifferent {A} (comparefn : A -> A -> JsNum) (l : list A) :
  (forall x y, In x l -> In y l -> negative (comparefn x y) = false) ->
  sort comparefn l = l.
Proof.
  intros H. rewrite (sort_ext_in comparefn (fun _ _ => numZ 0)) by (intros; now apply H).
  unfold sort.
  assert (G : forall l acc : list A,
             fold_left (fun s x => sink (fun _ _ => numZ 0) x s) l acc = rev l ++ acc).
  { clear. induction l as [|x l IH]; intros acc; simpl; [reflexivity|].
    rewrite IH, <- app_assoc. f_equal. now destruct acc. }
  now rewrite G, app_nil_r, rev_involutive.
Qed.

End OrderFacts.

Module UploadFacts.
Import XlsxUtils JSFacts HeaderFacts MaterializeFacts SheetFacts.

(** A header row was found exactly when the result names columns. *)
Lemma found_header_has_columns (h : Host) (rawData : list (list JsValue))
    (options : XLSXParseOptions) :
  headerRowIndex (parseWorksheetRobust h rawData options) = -1
  <-> columns (parseWorksheetRobust h rawData options) = [].
Proof.
  destruct (parse_cases h rawData options)
    as [(Hi & Hd & Hc) | (index & headers & Hr & Hh & E & Hi)].
  - tauto.
  - destruct (parse_stages h rawData options index headers Hr Hh E) as [Hc Hd].
    destruct (discoverHeader_row h rawData _ _ _ index headers Hr E) as (row & Hn & H0 & Hrow).
    assert (Hcols : columns (parseWorksheetRobust h rawData options) <> []).
    { rewrite Hc. unfold finalColumns.
      destruct (columnsWithData h headers _); [exact Hh | discriminate]. }
    split; [intros Hm; lia | intros Hm; contradiction].
Qed.

Lemma no_header_no_data (h : Host) (rawData : list (list JsValue))
    (options : XLSXParseOptions) :
  headerRowIndex (parseWorksheetRobust h rawData options) = -1 ->
  data (parseWorksheetRobust h rawData options) = [].
Proof.
  intros Hm.
  destruct (parse_cases h rawData options)
    as [(Hi & Hd & Hc) | (index & headers & Hr & Hh & E & Hi)]; [exact Hd|].
  destruct (discoverHeader_row h rawData _ _ _ index headers Hr E) as (row & Hn & H0 & Hrow).
  lia.
Qed.

End UploadFacts.

Section RouteProperties.
Import XlsxParser CsvParser Routes JSFacts SheetFacts UploadFacts OrderFacts.
Variable h : Host.

(** X12: the upload's parseFile.  An outcome with an error carries neither
    records nor columns.  For a spreadsheet that could be read, the error
    is reported exactly when no header row was found; otherwise there is at
    least one column, every record has exactly the reported columns other
    than __proto__ as its keys, and every value under such a column is a
    trimmed string; under __proto__ no record has a property. *)
Theorem upload_outcome (name : JsString) (xlsx : Completion (list (list JsValue)))
    (csv : Completion (list JsObject) + JsString) :
  let outcome := parseFile h name xlsx csv in
  let spreadsheet :=
    endsWith (toLowerCase h name) (str ".xlsx")
    || endsWith (toLowerCase h name) (str ".xls") in
  (problem outcome <> None -> records outcome = [] /\ columnNames outcome = [])
  /\ forall rawData, spreadsheet = true -> xlsx = Returns rawData ->
       let result :=
         XlsxUtils.parseWorksheetRobust h rawData
           {| XlsxUtils.minHeaderColumns := Some 2;
              XlsxUtils.maxHeaderSearchRows := Some 20;
              XlsxUtils.skipEmptyRows := Some true;
              XlsxUtils.fallbackColumnPrefix := Some (str "Column") |} in
       (problem outcome = Some (str "No valid data found in file")
        <-> XlsxUtils.headerRowIndex result = -1)
       /\ (problem outcome = None <-> XlsxUtils.headerRowIndex result <> -1)
       /\ (problem outcome = None ->
           columnNames outcome <> []
           /\ forall r, In r (records outcome) ->
                (forall k, In k (obj_keys r)
                           <-> In k (columnNames outcome) /\ k <> protoKey)
                /\ (forall c, In c (columnNames outcome) -> c <> protoKey ->
                      trimmedText (obj_get r c))
                /\ obj_get r protoKey = JMember MProto).
Proof.
  intros outcome spreadsheet. split.
  - unfold outcome, parseFile.
    destruct (endsWith _ (str ".xlsx") || endsWith _ (str ".xls")).
    + destruct xlsx as [rawData | m]; [|now split].
      destruct ((_ =? 0)%nat && _); [now split | intros H; now contradiction H].
    + destruct (endsWith _ (str ".csv")); [|now split].
      destruct csv as [[rows | m] | message]; now split.
  - intros rawData Hs -> result. unfold outcome, parseFile.
    fold spreadsheet. rewrite Hs. fold result.
    pose proof (found_header_has_columns h rawData _ : _ <-> XlsxUtils.columns result = []) as Hcols.
    pose proof (no_header_no_data h rawData _ : _ -> XlsxUtils.data result = []) as Hdata.
    destruct (XlsxUtils.headerRowIndex result =? -1) eqn:E.
    + apply Z.eqb_eq in E. rewrite (Hdata E). cbn.
      split; [tauto|]. split; [split; [discriminate | intros; contradiction]|].
      discriminate.
    + apply Z.eqb_neq in E. rewrite andb_false_r. cbn [problem records columnNames].
      split; [split; [discriminate | intros; contradiction]|].
      split; [tauto|]. intros _. split; [tauto|].
      intros r Hr. split; [|split].
      * intros k. now apply result_keys.
      * intros c Hc Hp. exact (result_value_trimmed h _ _ r c Hr Hc Hp).
      * exact (proj2 (result_value_proto h _ _ r Hr)).
Qed.

(** X13: when every record holds under the sort key a value that is
    neither null nor undefined and that converts to a number, sortData
    rearranges the records into ascending order of these numbers, or
    descending order when asked so. *)
Theorem numeric_column_sorts_by_value (rows : list JsObject) (sortBy : JsString) :
  (forall r, In r rows ->
     isNullish (obj_get r sortBy) = false
     /\ isNaN (ToNumber (obj_get r sortBy)) = false) ->
  let value r := ToNumber (obj_get r sortBy) in
  Permutation (sortData h rows sortBy asc) rows
  /\ Permutation (sortData h rows sortBy desc) rows
  /\ StronglySorted (fun a b => num_lt (value b) (value a) = false)
       (sortData h rows sortBy asc)
  /\ StronglySorted (fun a b => num_lt (value a) (value b) = false)
       (sortData h rows sortBy desc).
Proof.
  intros Hrows value. unfold sortData.
  split; [apply SortFacts.sort_perm|]. split; [apply SortFacts.sort_perm|].
  assert (Hcmp : forall d x y, In x rows -> In y rows ->
     compareRecords h sortBy d x y
     = match d with
       | asc => num_sub (value x) (value y)
       | desc => num_neg (num_sub (value x) (value y))
       end).
  { intros d x y Hx Hy. unfold compareRecords.
    destruct (Hrows x Hx) as [Nx Vx], (Hrows y Hy) as [Ny Vy].
    rewrite Nx, Ny, Vx, Vy. reflexivity. }
  split.
  - apply (sort_ascending_on _ value).
    + intros x Hx. apply Hrows, Hx.
    + intros x y Hx Hy. rewrite (Hcmp asc) by assumption.
      apply SortFacts.negative_sub; apply Hrows; assumption.
  - apply (sorted_impl_in
             (fun a b => num_lt (num_neg (value b)) (num_neg (value a)) = false)).
    + intros a b _ _. now rewrite num_lt_neg.
    + apply (sort_ascending_on _ (fun r => num_neg (value r))).
      * intros x Hx. destruct (Hrows x Hx) as [_ V]. fold (value x) in V.
        now destruct (value x).
      * intros x y Hx Hy. rewrite (Hcmp desc) by assumption.
        rewrite num_lt_neg. apply negative_neg_sub; apply Hrows; assumption.
Qed.
End RouteProperties.

(** ** Vehicles (lib/csvParser) *)

Module VehicleFacts.
Import CsvParser JSFacts NumFacts QueryFacts.

(** The text of a number given by its decimal digits. *)
Definition decimal (ds : list Z) : JsString := map (fun d => Z.to_N (d + 48)) ds.

Definition isDigit (d : Z) : Prop := 0 <= d <= 9.

(** A text that does not go on with a digit. *)
Definition noDigitAhead (rest : JsString) : Prop :=
  forall c t, rest = c :: t -> digitVal c = None.

Lemma digit_cases (d : Z) :
  isDigit d ->
  d = 0 \/ d = 1 \/ d = 2 \/ d = 3 \/ d = 4 \/ d = 5 \/ d = 6 \/ d = 7 \/ d = 8 \/ d = 9.
Proof. unfold isDigit. lia. Qed.

Lemma digitVal_decimal (d : Z) : isDigit d -> digitVal (Z.to_N (d + 48)) = Some d.
Proof. intros H. apply digit_cases in H. intuition (subst; reflexivity). Qed.

Lemma lead_digit (d : Z) (t : JsString) :
  isDigit d ->
  trimStart (Z.to_N (d + 48) :: t) = Z.to_N (d + 48) :: t
  /\ takeSign (Z.to_N (d + 48) :: t) = (1, Z.to_N (d + 48) :: t).
Proof. intros H. apply digit_cases in H. intuition (subst; split; reflexivity). Qed.

Lemma digit_not_k (d : Z) :
  isDigit d -> N.eqb (asciiLower (Z.to_N (d + 48))) 107 = false.
Proof. intros H. apply digit_cases in H. intuition (subst; reflexivity). Qed.

Lemma spanDigits_cons (dv : N -> option Z) (c : N) (t : JsString) :
  spanDigits dv (c :: t)
  = match dv c with
    | Some d => let (ds, r) := spanDigits dv t in (d :: ds, r)
    | None => ([], c :: t)
    end.
Proof. reflexivity. Qed.

Lemma spanDigits_decimal (ds : list Z) (rest : JsString) :
  Forall isDigit ds -> noDigitAhead rest ->
  spanDigits digitVal (decimal ds ++ rest) = (ds, rest).
Proof.
  intros Hds Hrest. induction Hds as [|d ds Hd _ IH].
  - destruct rest as [|c t]; [reflexivity|].
    change (decimal [] ++ c :: t) with (c :: t).
    now rewrite spanDigits_cons, (Hrest c t).
  - change (decimal (d :: ds) ++ rest) with (Z.to_N (d + 48) :: (decimal ds ++ rest)).
    rewrite spanDigits_cons, digitVal_decimal by exact Hd. now rewrite IH.
Qed.

Lemma digitsValue_from (ds : list Z) (a : Z) :
  Forall isDigit ds -> 0 <= a -> 0 <= fold_left (fun a d => a * 10 + d) ds a.
Proof.
  intros Hds. revert a. induction Hds as [|d ds Hd _ IH]; simpl; intros a Ha; [exact Ha|].
  apply IH. unfold isDigit in Hd. lia.
Qed.

Lemma digitsValue_nonneg (ds : list Z) : Forall isDigit ds -> 0 <= digitsValue 10 ds.
Proof. intros H. unfold digitsValue. apply digitsValue_from; [exact H | lia]. Qed.

(** parseInt(_, 10) of digits followed by anything but a digit. *)
Lemma parseInt10_decimal (ds : list Z) (rest : JsString) :
  ds <> [] -> Forall isDigit ds -> noDigitAhead rest ->
  digitsValue 10 ds < 2 ^ 53 ->
  parseInt10 (decimal ds ++ rest) = numZ (digitsValue 10 ds).
Proof.
  intros Hne Hds Hrest Hsmall.
  pose proof (digitsValue_nonneg ds Hds) as Hpos.
  pose proof (spanDigits_decimal ds rest Hds Hrest) as Hspan.
  destruct ds as [|d ds']; [contradiction|].
  inversion Hds as [|? ? Hd Hds']; subst.
  change (decimal (d :: ds') ++ rest)
    with (Z.to_N (d + 48) :: (decimal ds' ++ rest)) in *.
  destruct (lead_digit d (decimal ds' ++ rest) Hd) as [Ht Hsg].
  unfold parseInt10. rewrite Ht, Hsg, Hspan, Z.mul_1_l.
  apply round_double_int. lia.
Qed.

Lemma orZero_numZ (n : Z) : orZero (numZ n) = numZ n.
Proof. destruct n; reflexivity. Qed.

Lemma removeFirstKm_cons (c1 : N) (t1 : JsString) :
  removeFirstKm (c1 :: t1)
  = match t1 with
    | c2 :: t2 =>
        if N.eqb (asciiLower c1) 107 && N.eqb (asciiLower c2) 109 then t2
        else c1 :: removeFirstKm t1
    | [] => [c1]
    end.
Proof. reflexivity. Qed.

Lemma removeFirstKm_decimal (ds : list Z) (rest : JsString) :
  Forall isDigit ds ->
  removeFirstKm (decimal ds ++ rest) = decimal ds ++ removeFirstKm rest.
Proof.
  induction 1 as [|d ds Hd _ IH]; [reflexivity|].
  change (decimal (d :: ds) ++ rest) with (Z.to_N (d + 48) :: (decimal ds ++ rest)).
  change (decimal (d :: ds) ++ removeFirstKm rest)
    with (Z.to_N (d + 48) :: (decimal ds ++ removeFirstKm rest)).
  rewrite removeFirstKm_cons, <- IH.
  destruct (decimal ds ++ rest) as [|c2 t2]; [reflexivity|].
  now rewrite digit_not_k.
Qed.

Section WithHost.
Variable h : Host.

Lemma trimOr_shape (v : JsValue) (fallback t : JsString) :
  trim fallback = fallback ->
  trimOr v fallback = Some t ->
  trim t = t /\ (fallback <> [] -> t <> []).
Proof.
  intros Hf. unfold trimOr.
  destruct v as [| |b|n|s|d|m]; try discriminate.
  - intros [= <-]. tauto.
  - intros [= <-]. tauto.
  - destruct (trim s) as [|c u] eqn:E; intros [= <-].
    + tauto.
    + rewrite <- E. split; [apply trim_idem | rewrite E; discriminate].
Qed.

Lemma parsePrice_number (priceStr : option JsString) : isNaN (parsePrice priceStr) = false.
Proof.
  destruct priceStr as [[|c s]|]; try reflexivity. apply orZero_number.
Qed.

(** What transformVehicleData has checked when it returns a vehicle. *)
Lemma transform_Some (row : JsObject) (v : Vehicle) :
  transformVehicleData h row = Some v ->
  exists number name price mileage colour fuel gear grade,
    obj_get row key출품번호 = JStr number /\ number <> []
    /\ obj_get row key차량명 = JStr name /\ name <> []
    /\ parsePriceOf (obj_get row key출품가) = Some price
    /\ trimOr (obj_get row key주행거리) (str "0 Km") = Some mileage
    /\ trimOr (obj_get row key색상) [] = Some colour
    /\ trimOr (obj_get row key연료) [] = Some fuel
    /\ trimOr (obj_get row key변속기) [] = Some gear
    /\ trimOr (obj_get row key평가점) [] = Some grade
    /\ v = {| 출품번호 := trim number; 차량명 := trim name; 출품가 := price;
              연식 := orZero (parseInt10 (ToString h (obj_get row key연식)));
              주행거리 := mileage; 색상 := colour; 연료 := fuel;
              변속기 := Some gear; 평가점 := grade |}.
Proof.
  unfold transformVehicleData.
  destruct (negb (truthy (obj_get row key출품번호))
            || negb (truthy (obj_get row key차량명))) eqn:G; [discriminate|].
  apply orb_false_elim in G as [G1 G2]. apply negb_false_iff in G1, G2.
  destruct (obj_get row key출품번호) as [| |b1|n1|number|d1|m1] eqn:E1; try discriminate.
  destruct (obj_get row key차량명) as [| |b2|n2|name|d2|m2] eqn:E2; try discriminate.
  cbn [trimOf].
  destruct (parsePriceOf _) as [price|] eqn:Ep; [|discriminate].
  destruct (trimOr (obj_get row key주행거리) _) as [mileage|] eqn:Em; [|discriminate].
  destruct (trimOr (obj_get row key색상) _) as [colour|] eqn:Ec; [|discriminate].
  destruct (trimOr (obj_get row key연료) _) as [fuel|] eqn:Ef; [|discriminate].
  destruct (trimOr (obj_get row key변속기) _) as [gear|] eqn:Eg; [|discriminate].
  destruct (trimOr (obj_get row key평가점) _) as [grade|] eqn:Er; [|discriminate].
  intros [= <-].
  exists number, name, price, mileage, colour, fuel, gear, grade.
  repeat split; try reflexivity.
  - intros ->. discriminate.
  - intros ->. discriminate.
Qed.

Lemma transform_numbers (row : JsObject) (v : Vehicle) :
  transformVehicleData h row = Some v ->
  isNaN (출품가 v) = false /\ isNaN (연식 v) = false.
Proof.
  intros H. apply transform_Some in H
    as (number & name & price & mileage & colour & fuel & gear & grade
        & _ & _ & _ & _ & Hp & _ & _ & _ & _ & _ & ->).
  cbn. split; [|apply orZero_number].
  unfold parsePriceOf in Hp.
  destruct (negb (truthy (obj_get row key출품가))); [now injection Hp as <-|].
  destruct (obj_get row key출품가); try discriminate.
  injection Hp as <-. exact (parsePrice_number (Some s)).
Qed.

Lemma toVehicles_In (rows : list JsObject) (v : Vehicle) :
  In v (toVehicles h rows) <->
  exists row, In row rows /\ transformVehicleData h row = Some v.
Proof.
  induction rows as [|row rows IH]; simpl.
  - split; [intros [] | intros (r & [] & _)].
  - destruct (transformVehicleData h row) as [w|] eqn:E; simpl; rewrite IH; split.
    + intros [<- | (r & Hr & Ht)]; [exists row; tauto | exists r; tauto].
    + intros (r & [<- | Hr] & Ht); [left; congruence | right; exists r; tauto].
    + intros (r & Hr & Ht). exists r; tauto.
    + intros (r & [<- | Hr] & Ht); [congruence | exists r; tauto].
Qed.

End WithHost.
End VehicleFacts.

Module PipelineFacts.
Import XlsxParser CsvParser JSFacts VehicleFacts SheetFacts.

(** Under the names that transformVehicleData reads, none of which is
    inherited, the records of a worksheet hold text or nothing, so it never
    throws on them. *)
Lemma sheet_record_transform
    (h : Host) (rawData : list (list JsValue)) (options : XlsxUtils.XLSXParseOptions)
    (r : JsObject) :
  In r (XlsxUtils.data (XlsxUtils.parseWorksheetRobust h rawData options)) ->
  (transformVehicleData h r = None
   <-> truthy (obj_get r key출품번호) && truthy (obj_get r key차량명) = false)
  /\ forall v, transformVehicleData h r = Some v ->
       obj_get r key출품번호 = JStr (출품번호 v)
       /\ obj_get r key차량명 = JStr (차량명 v).
Proof.
  intros Hr.
  assert (Htext : forall k, inherited k = None ->
             obj_get r k = JUndefined \/ exists t, obj_get r k = JStr t /\ trim t = t).
  { intros k Hk.
    assert (Hp : k <> protoKey) by (intros ->; discriminate).
    destruct (in_dec (list_eq_dec N.eq_dec) k
                (XlsxUtils.columns (XlsxUtils.parseWorksheetRobust h rawData options)))
      as [Hc | Hc].
    - right. exact (result_value_trimmed h _ _ r k Hr Hc Hp).
    - left. rewrite (result_value_absent h _ _ r k Hr Hc), Hk. reflexivity. }
  split.
  - split.
    + unfold transformVehicleData.
      destruct (negb (truthy (obj_get r key출품번호))
                || negb (truthy (obj_get r key차량명))) eqn:G.
      * intros _. apply orb_true_iff in G as [G | G]; apply negb_true_iff in G;
          rewrite G; [reflexivity | apply andb_false_r].
      * apply orb_false_elim in G as [G1 G2]. apply negb_false_iff in G1, G2.
        unfold parsePriceOf.
        destruct (Htext key출품번호 eq_refl) as [E | (t & E & _)]; rewrite E in *; [discriminate|].
        destruct (Htext key차량명 eq_refl) as [E2 | (t2 & E2 & _)]; rewrite E2 in *; [discriminate|].
        destruct (Htext key출품가 eq_refl) as [E3 | (t3 & E3 & _)]; rewrite E3;
          destruct (Htext key주행거리 eq_refl) as [E4 | (t4 & E4 & _)]; rewrite E4;
          destruct (Htext key색상 eq_refl) as [E5 | (t5 & E5 & _)]; rewrite E5;
          destruct (Htext key연료 eq_refl) as [E6 | (t6 & E6 & _)]; rewrite E6;
          destruct (Htext key변속기 eq_refl) as [E7 | (t7 & E7 & _)]; rewrite E7;
          destruct (Htext key평가점 eq_refl) as [E8 | (t8 & E8 & _)]; rewrite E8;
          cbn [trimOf trimOr truthy negb]; try discriminate;
          destruct (negb (str_eqb t3 [])); discriminate.
    + intros G. unfold transformVehicleData.
      apply andb_false_iff in G as [G | G]; rewrite G; [reflexivity|].
      cbn [negb]. now rewrite orb_true_r.
  - intros v Hv. apply transform_Some in Hv
      as (number & name & price & mileage & colour & fuel & gear & grade
          & E1 & _ & E2 & _ & _ & _ & _ & _ & _ & _ & ->).
    cbn.
    destruct (Htext key출품번호 eq_refl) as [E | (t & E & Ht)]; [congruence|].
    destruct (Htext key차량명 eq_refl) as [E' | (t' & E' & Ht')]; [congruence|].
    rewrite E1 in E. rewrite E2 in E'. injection E as ->. injection E' as ->.
    rewrite Ht, Ht'. now rewrite E1, E2.
Qed.

End PipelineFacts.

Section VehicleProperties.
Import XlsxParser CsvParser JSFacts NumFacts QueryFacts VehicleFacts OrderFacts SheetFacts PipelineFacts.
Variable h : Host.

(** X14: parseMileage reads a mileage written with separators: when the
    text without its commas and white space is a run of decimal digits,
    below 2^53 in value, followed by anything that after the removal of the
    first km does not go on with a digit, the result is the number those
    digits denote. *)
Theorem mileage_reads_grouped_digits (s : JsString) (ds : list Z) (rest : JsString) :
  ds <> [] -> Forall isDigit ds -> digitsValue 10 ds < 2 ^ 53 ->
  stripSeparators s = decimal ds ++ rest ->
  noDigitAhead (removeFirstKm rest) ->
  parseMileage (Some s) = numZ (digitsValue 10 ds).
Proof.
  intros Hne Hds Hsmall Hs Hrest. unfold parseMileage.
  destruct s as [|c s'].
  - destruct ds; [contradiction | discriminate].
  - rewrite Hs, removeFirstKm_decimal by exact Hds.
    rewrite parseInt10_decimal by assumption. apply orZero_numZ.
Qed.

(** X15: parsePrice reads a price written with commas: when the text
    without its commas is a run of decimal digits, below 2^53 in value,
    followed by anything but a digit, the result is the number those digits
    denote. *)
Theorem price_reads_grouped_digits (s : JsString) (ds : list Z) (rest : JsString) :
  ds <> [] -> Forall isDigit ds -> digitsValue 10 ds < 2 ^ 53 ->
  filter (fun c => negb (N.eqb c 44)) s = decimal ds ++ rest ->
  noDigitAhead rest ->
  parsePrice (Some s) = numZ (digitsValue 10 ds).
Proof.
  intros Hne Hds Hsmall Hs Hrest. unfold parsePrice.
  destruct s as [|c s'].
  - destruct ds; [contradiction | discriminate].
  - rewrite Hs. rewrite parseInt10_decimal by assumption. apply orZero_numZ.
Qed.

(** X16: a vehicle that transformVehicleData returns comes from a row
    whose 출품번호 and 차량명 are non-empty strings, of which it holds the
    trimmed text; its price and its year are numbers, never NaN; its
    mileage text is not empty; its transmission is present; and none of its
    texts has white space at either end. *)
Theorem vehicle_fields_are_normalised (row : JsObject) (v : Vehicle) :
  transformVehicleData h row = Some v ->
  (exists number name,
      obj_get row key출품번호 = JStr number /\ number <> []
      /\ obj_get row key차량명 = JStr name /\ name <> []
      /\ 출품번호 v = trim number /\ 차량명 v = trim name)
  /\ isNaN (출품가 v) = false /\ isNaN (연식 v) = false
  /\ 주행거리 v <> []
  /\ (exists gear, 변속기 v = Some gear /\ trim gear = gear)
  /\ Forall (fun s => trim s = s)
       [출품번호 v; 차량명 v; 주행거리 v; 색상 v; 연료 v; 평가점 v].
Proof.
  intros H. pose proof (transform_numbers h row v H) as [Hp Hy].
  apply transform_Some in H
    as (number & name & price & mileage & colour & fuel & gear & grade
        & E1 & N1 & E2 & N2 & _ & Hm & Hc & Hf & Hg & Hr & ->).
  cbn in *.
  apply trimOr_shape in Hm as [Tm Nm]; [|reflexivity].
  apply trimOr_shape in Hc as [Tc _]; [|reflexivity].
  apply trimOr_shape in Hf as [Tf _]; [|reflexivity].
  apply trimOr_shape in Hg as [Tg _]; [|reflexivity].
  apply trimOr_shape in Hr as [Tr _]; [|reflexivity].
  split; [exists number, name; tauto|].
  split; [exact Hp|]. split; [exact Hy|].
  split; [apply Nm; discriminate|].
  split; [exists gear; tauto|].
  repeat constructor; try assumption; apply trim_idem.
Qed.

(** X17: of the records that parseWorksheetRobust returns,
    transformVehicleData drops exactly those whose 출품번호 or 차량명 is
    missing or empty; no other record is lost to an exception.  A vehicle it
    returns holds the record's 출품번호 and 차량명 as they are. *)
Theorem sheet_records_become_vehicles
    (rawData : list (list JsValue)) (options : XlsxUtils.XLSXParseOptions)
    (r : JsObject) :
  In r (XlsxUtils.data (XlsxUtils.parseWorksheetRobust h rawData options)) ->
  (transformVehicleData h r = None
   <-> truthy (obj_get r key출품번호) && truthy (obj_get r key차량명) = false)
  /\ forall v, transformVehicleData h r = Some v ->
       obj_get r key출품번호 = JStr (출품번호 v)
       /\ obj_get r key차량명 = JStr (차량명 v).
Proof. apply sheet_record_transform. Qed.

(** X18: the vehicles made from any rows sort by price and by year: the
    result of sortVehicles on 출품가 or on 연식 is in ascending order of that
    number, or in descending order when asked so. *)
Theorem made_vehicles_sort_by_number (rows : list JsObject) :
  let vehicles := toVehicles h rows in
  StronglySorted (fun a b => num_lt (출품가 b) (출품가 a) = false)
    (sortVehicles h vehicles K출품가 asc)
  /\ StronglySorted (fun a b => num_lt (출품가 a) (출품가 b) = false)
       (sortVehicles h vehicles K출품가 desc)
  /\ StronglySorted (fun a b => num_lt (연식 b) (연식 a) = false)
       (sortVehicles h vehicles K연식 asc)
  /\ StronglySorted (fun a b => num_lt (연식 a) (연식 b) = false)
       (sortVehicles h vehicles K연식 desc).
Proof.
  intros vehicles.
  assert (Hnum : forall v, In v vehicles ->
                           isNaN (출품가 v) = false /\ isNaN (연식 v) = false).
  { intros v Hv. apply toVehicles_In in Hv as (row & _ & Ht).
    exact (transform_numbers h row v Ht). }
  unfold sortVehicles. repeat split.
  - apply (sort_ascending_on _ 출품가).
    + intros x Hx. apply Hnum, Hx.
    + intros x y Hx Hy. apply SortFacts.negative_sub; apply Hnum; assumption.
  - apply (sorted_impl_in
             (fun a b => num_lt (num_neg (출품가 b)) (num_neg (출품가 a)) = false)).
    + intros a b _ _. now rewrite num_lt_neg.
    + apply (sort_ascending_on _ (fun v => num_neg (출품가 v))).
      * intros x Hx. destruct (Hnum x Hx) as [V _]. now destruct (출품가 x).
      * intros x y Hx Hy. rewrite num_lt_neg.
        apply negative_neg_sub; apply Hnum; assumption.
  - apply (sort_ascending_on _ 연식).
    + intros x Hx. apply Hnum, Hx.
    + intros x y Hx Hy. apply SortFacts.negative_sub; apply Hnum; assumption.
  - apply (sorted_impl_in
             (fun a b => num_lt (num_neg (연식 b)) (num_neg (연식 a)) = false)).
    + intros a b _ _. now rewrite num_lt_neg.
    + apply (sort_ascending_on _ (fun v => num_neg (연식 v))).
      * intros x Hx. destruct (Hnum x Hx) as [_ V]. now destruct (연식 x).
      * intros x y Hx Hy. rewrite num_lt_neg.
        apply negative_neg_sub; apply Hnum; assumption.
Qed.
End VehicleProperties.

(** ** Statistics and filters of vehicles *)

Module StatsFacts.
Import CsvParser JSFacts SortFacts.

(** vehicle.연식 > 0 *)
Definition dated (v : Vehicle) : bool := num_gt (연식 v) (numZ 0).

Lemma num_lt_irrefl (x : JsNum) : num_lt x x = false.
Proof.
  destruct (num_lt x x) eqn:E; [|reflexivity].
  pose proof (num_lt_asym _ _ E). congruence.
Qed.

Lemma num_lt_trans (x y z : JsNum) :
  isNaN z = false -> num_lt x y = true -> num_lt y z = true -> num_lt x z = true.
Proof.
  intros Hz Hxy Hyz.
  destruct (num_lt_cotrans x z y Hz Hxy) as [H | H]; [exact H|].
  pose proof (num_lt_asym _ _ Hyz). congruence.
Qed.

Lemma num_eq_PosInf (x : JsNum) : num_eq x PosInf = true <-> x = PosInf.
Proof. destruct x; simpl; split; congruence. Qed.

Lemma dated_number (v : Vehicle) :
  dated v = true ->
  isNaN (연식 v) = false /\ num_lt NegInf (연식 v) = true
  /\ (연식 v = PosInf \/ num_lt (연식 v) PosInf = true).
Proof.
  unfold dated, num_gt. destruct (연식 v); simpl; try discriminate; intros _; tauto.
Qed.

Section WithHost.
Variable h : Host.

Lemma range_tell (r : Running) (x : Vehicle) :
  range (tellVehicle h r x)
  = if dated x
    then {| min := mathMin (min (range r)) (연식 x);
            max := mathMax (max (range r)) (연식 x) |}
    else range r.
Proof. reflexivity. Qed.

(** What the year range holds after the vehicles [seen]. *)
Definition covers (seen : list Vehicle) (rg : YearRange) : Prop :=
  isNaN (min rg) = false /\ isNaN (max rg) = false
  /\ (forall v, In v seen -> dated v = true ->
        num_lt (연식 v) (min rg) = false /\ num_lt (max rg) (연식 v) = false)
  /\ ((rg = {| min := PosInf; max := NegInf |}
       /\ forall v, In v seen -> dated v = false)
      \/ ((exists v, In v seen /\ dated v = true /\ min rg = 연식 v)
          /\ (exists v, In v seen /\ dated v = true /\ max rg = 연식 v))).

Lemma covers_step (seen : list Vehicle) (r : Running) (x : Vehicle) :
  covers seen (range r) -> covers (seen ++ [x]) (range (tellVehicle h r x)).
Proof.
  intros (Hmin & Hmax & Hbound & Hhit). rewrite range_tell.
  destruct (dated x) eqn:D.
  - destruct (dated_number x D) as (Hy & Hlow & Hhigh).
    unfold covers, mathMin, mathMax. cbn [min max].
    rewrite Hmin, Hmax, Hy. cbn [orb].
    split; [now destruct (num_lt (연식 x) (min (range r)))|].
    split; [now destruct (num_lt (max (range r)) (연식 x))|].
    split.
    + intros v Hv Dv. apply in_app_or in Hv as [Hv | [<- | []]].
      * destruct (Hbound v Hv Dv) as [B1 B2].
        destruct (dated_number v Dv) as (Hvn & _ & _). split.
        -- destruct (num_lt (연식 x) (min (range r))) eqn:E; [|exact B1].
           destruct (num_lt (연식 v) (연식 x)) eqn:E'; [|reflexivity].
           rewrite (num_lt_trans _ _ _ Hmin E' E) in B1. discriminate.
        -- destruct (num_lt (max (range r)) (연식 x)) eqn:E; [|exact B2].
           destruct (num_lt (연식 x) (연식 v)) eqn:E'; [|reflexivity].
           rewrite (num_lt_trans _ _ _ Hvn E E') in B2. discriminate.
      * split.
        -- destruct (num_lt (연식 x) (min (range r))) eqn:E;
             [apply num_lt_irrefl | exact E].
        -- destruct (num_lt (max (range r)) (연식 x)) eqn:E;
             [apply num_lt_irrefl | exact E].
    + right. split.
      * destruct (num_lt (연식 x) (min (range r))) eqn:E.
        -- exists x. split; [apply in_or_app; right; now left | tauto].
        -- destruct Hhit as [[Hrg _] | [(v & Hv & Dv & Ev) _]].
           ++ exists x. split; [apply in_or_app; right; now left|].
              split; [exact D|]. rewrite Hrg in *. cbn [min] in *.
              destruct Hhigh as [-> | Hlt]; [reflexivity | congruence].
           ++ exists v. split; [apply in_or_app; now left | tauto].
      * destruct (num_lt (max (range r)) (연식 x)) eqn:E.
        -- exists x. split; [apply in_or_app; right; now left | tauto].
        -- destruct Hhit as [[Hrg _] | [_ (v & Hv & Dv & Ev)]].
           ++ rewrite Hrg in E. cbn [max] in E. congruence.
           ++ exists v. split; [apply in_or_app; now left | tauto].
  - split; [exact Hmin|]. split; [exact Hmax|]. split.
    + intros v Hv Dv. apply in_app_or in Hv as [Hv | [<- | []]];
        [now apply Hbound | congruence].
    + destruct Hhit as [[Hrg Hnone] | [(v & Hv & Dv & Ev) (w & Hw & Dw & Ew)]].
      * left. split; [exact Hrg|].
        intros v Hv. apply in_app_or in Hv as [Hv | [<- | []]]; [now apply Hnone | exact D].
      * right. split; [exists v | exists w]; (split; [apply in_or_app; now left | tauto]).
Qed.

Lemma covers_fold (vs seen : list Vehicle) (r : Running) :
  covers seen (range r) -> covers (seen ++ vs) (range (fold_left (tellVehicle h) vs r)).
Proof.
  revert seen r. induction vs as [|x vs IH]; intros seen r H; simpl.
  - now rewrite app_nil_r.
  - replace (seen ++ x :: vs) with ((seen ++ [x]) ++ vs)
      by (rewrite <- app_assoc; reflexivity).
    apply IH. now apply covers_step.
Qed.

Lemma covers_start (r : Running) :
  range r = {| min := PosInf; max := NegInf |} -> covers [] (range r).
Proof.
  intros ->. split; [reflexivity|]. split; [reflexivity|].
  split; [intros v []|]. left. split; [reflexivity | intros v []].
Qed.

(** *** The count tables *)

(** One turn of table[k] = (table[k] || 0) + 1, on the value read. *)
Definition bump (v : JsValue) : JsValue := plusOne h (orZeroValue v).

(** What a count reads as: nothing before the first vehicle, then a
    number. *)
Definition countValue (n : nat) : JsValue :=
  match n with
  | O => JUndefined
  | S _ => JNum (numZ (Z.of_nat n))
  end.

(** The names counted, in the order of the vehicles. *)
Definition fuelNames (vs : list Vehicle) : list JsString :=
  filter (fun name => negb (str_eqb name [])) (map 연료 vs).

Definition gearNames (vs : list Vehicle) : list JsString :=
  flat_map (fun v => match 변속기 v with
                     | Some (c :: gear) => [c :: gear]
                     | _ => []
                     end) vs.

Definition occurrences (k : JsString) (names : list JsString) : nat :=
  List.length (filter (fun name => str_eqb name k) names).

(** v.변속기 === gear *)
Definition hasGear (gear : JsString) (v : Vehicle) : bool :=
  match 변속기 v with Some own => str_eqb own gear | None => false end.

Lemma countUp_get_same (table : JsObject) (k : JsString) :
  k <> protoKey -> obj_get (countUp h table k) k = bump (obj_get table k).
Proof. intros Hk. unfold countUp. apply obj_get_set_same. now left. Qed.

Lemma countUp_get_other (table : JsObject) (k k' : JsString) :
  k' <> k -> obj_get (countUp h table k) k' = obj_get table k'.
Proof. intros Hk. unfold countUp. now apply obj_get_set_other. Qed.

Lemma tally_get (names : list JsString) (table : JsObject) (k : JsString) :
  k <> protoKey ->
  obj_get (fold_left (countUp h) names table) k
  = Nat.iter (occurrences k names) bump (obj_get table k).
Proof.
  intros Hk. revert table. induction names as [|x names IH]; intros table; simpl;
    [reflexivity|].
  rewrite IH. unfold occurrences. simpl.
  destruct (str_eqb x k) eqn:E.
  - apply str_eqb_eq in E. subst x. rewrite countUp_get_same by exact Hk.
    simpl List.length. now rewrite Nat.iter_succ_r.
  - apply str_eqb_neq in E. rewrite countUp_get_other by congruence. reflexivity.
Qed.

Lemma tally_keys (names : list JsString) (table : JsObject) (k : JsString) :
  In k (own_keys (fold_left (countUp h) names table))
  <-> In k (own_keys table) \/ (In k names /\ k <> protoKey).
Proof.
  revert table. induction names as [|x names IH]; intros table; simpl; [tauto|].
  rewrite IH. unfold countUp. rewrite own_keys_set. intuition congruence.
Qed.

Lemma fuels_fold (vs : list Vehicle) (r : Running) :
  fuels (fold_left (tellVehicle h) vs r) = fold_left (countUp h) (fuelNames vs) (fuels r).
Proof.
  revert r. induction vs as [|x vs IH]; intros r; [reflexivity|].
  simpl fold_left at 1. rewrite IH. unfold fuelNames. simpl.
  now destruct (연료 x).
Qed.

Lemma gears_fold (vs : list Vehicle) (r : Running) :
  gears (fold_left (tellVehicle h) vs r) = fold_left (countUp h) (gearNames vs) (gears r).
Proof.
  revert r. induction vs as [|x vs IH]; intros r; [reflexivity|].
  simpl fold_left at 1. rewrite IH. unfold gearNames. simpl.
  now destruct (변속기 x) as [[|c g]|].
Qed.

Lemma occurrences_fuels (k : JsString) (vs : list Vehicle) :
  k <> [] ->
  occurrences k (fuelNames vs)
  = List.length (filter (fun v => str_eqb (연료 v) k) vs).
Proof.
  intros Hk. unfold occurrences, fuelNames.
  induction vs as [|x vs IH]; [reflexivity|]. simpl.
  destruct (str_eqb (연료 x) []) eqn:E; simpl.
  - apply str_eqb_eq in E. rewrite E.
    replace (str_eqb [] k) with false; [exact IH|].
    symmetry. apply str_eqb_neq. congruence.
  - destruct (str_eqb (연료 x) k); simpl; now rewrite IH.
Qed.

Lemma occurrences_gears (k : JsString) (vs : list Vehicle) :
  k <> [] ->
  occurrences k (gearNames vs) = List.length (filter (hasGear k) vs).
Proof.
  intros Hk. destruct k as [|c0 k0]; [contradiction|]. unfold occurrences, gearNames.
  induction vs as [|x vs IH]; [reflexivity|].
  simpl flat_map. simpl (filter (hasGear _) _). unfold hasGear at 1.
  destruct (변속기 x) as [[|c g]|]; simpl; try exact IH.
  destruct ((c =? c0)%N && str_eqb g k0); simpl; now rewrite IH.
Qed.

Lemma names_nonempty (vs : list Vehicle) :
  ~ In [] (fuelNames vs) /\ ~ In [] (gearNames vs).
Proof.
  split.
  - unfold fuelNames. rewrite filter_In. intros [_ H]. discriminate.
  - unfold gearNames. rewrite in_flat_map. intros (v & _ & H).
    destruct (변속기 v) as [[|c g]|]; try contradiction.
    destruct H as [H | []]. discriminate.
Qed.

Lemma truthy_count (n : nat) : truthy (JNum (numZ (Z.of_nat (S n)))) = true.
Proof.
  cbn [truthy isNaN numZ orb]. unfold num_eq, numZ.
  replace (Qeq_bool (inject_Z (Z.of_nat (S n))) (inject_Z 0)) with false; [reflexivity|].
  symmetry. apply not_true_is_false. intros E. apply Qeq_bool_iff in E.
  unfold Qeq, inject_Z in E. cbn [Qnum Qden] in E. lia.
Qed.

(** Under a name that is not inherited the count is a number. *)
Lemma bump_count (n : nat) :
  Z.of_nat n < 2 ^ 53 -> Nat.iter n bump JUndefined = countValue n.
Proof.
  induction n as [|n IH]; intros Hn; [reflexivity|].
  simpl Nat.iter. rewrite IH by lia.
  destruct n as [|n'].
  - reflexivity.
  - unfold bump, orZeroValue, countValue. rewrite truthy_count. cbn [plusOne].
    rewrite NumFacts.num_add_int by lia.
    do 2 f_equal. lia.
Qed.

(** Under the name of an inherited function the first read finds the
    function, and every turn appends "1" to its text. *)
Lemma bump_member (m : Member) (n : nat) :
  m <> MProto ->
  Nat.iter (S n) bump (JMember m) = JStr (functionToString h m ++ repeat 49%N (S n)).
Proof.
  intros Hm. induction n as [|n IH].
  - simpl. unfold bump, orZeroValue. simpl. now destruct m.
  - change (Nat.iter (S (S n)) bump (JMember m))
      with (bump (Nat.iter (S n) bump (JMember m))).
    rewrite IH. unfold bump, orZeroValue.
    assert (T : truthy (JStr (functionToString h m ++ repeat 49%N (S n))) = true).
    { cbn [truthy]. rewrite str_eqb_nil.
      destruct (functionToString h m ++ repeat 49%N (S n)) eqn:E; [|reflexivity].
      apply app_eq_nil in E as [_ E]. discriminate. }
    rewrite T. cbn [plusOne]. f_equal. rewrite <- app_assoc. f_equal.
    change (str "1") with [49%N]. now rewrite <- repeat_cons.
Qed.

(** x <= y between numbers. *)
Definition num_le (x y : JsNum) : Prop := num_lt x y = true \/ num_eq x y = true.

Lemma num_lt_total (x y : JsNum) :
  isNaN x = false -> isNaN y = false -> num_lt x y = false -> num_le y x.
Proof.
  unfold num_le.
  destruct x as [| |a|], y as [| |b|]; simpl; try discriminate; try tauto.
  intros _ _ H.
  destruct (Qcompare a b) eqn:C; try discriminate.
  - right. apply Qeq_bool_iff. symmetry. now apply Qeq_alt.
  - left. rewrite <- Qcompare_antisym, C. reflexivity.
Qed.

End WithHost.

End StatsFacts.

Section StatsProperties.
Import CsvParser JSFacts SortFacts QueryFacts StatsFacts ParserFacts.
Variable h : Host.

(** X19: the year range of calculateStats.  For no vehicle at all it is
    left at Infinity and -Infinity.  Otherwise only the years above 0
    count: when there is none (or none that is finite) the range is 0 to 0;
    when there is a finite one, the minimum and the maximum are years of
    such vehicles, and every year above 0 lies between them. *)
Theorem year_range_spans_the_positive_years (vehicles : list Vehicle) :
  let found := yearRange (calculateStats h vehicles) in
  (vehicles = [] -> found = {| min := PosInf; max := NegInf |})
  /\ (vehicles <> [] ->
      (forall v, In v vehicles -> dated v = true -> 연식 v = PosInf) ->
      found = {| min := numZ 0; max := numZ 0 |})
  /\ forall w, In w vehicles -> dated w = true -> 연식 w <> PosInf ->
       (exists v, In v vehicles /\ dated v = true /\ min found = 연식 v)
       /\ (exists v, In v vehicles /\ dated v = true /\ max found = 연식 v)
       /\ forall v, In v vehicles -> dated v = true ->
            num_lt (연식 v) (min found) = false
            /\ num_lt (max found) (연식 v) = false.
Proof.
  intros found. split; [intros ->; reflexivity|].
  destruct vehicles as [|v0 vs]; [split; [intros H; contradiction | intros w []]|].
  set (vehicles := v0 :: vs) in *.
  set (start := {| totalPrice := numZ 0; totalMileage := numZ 0;
                   range := {| min := PosInf; max := NegInf |};
                   fuels := []; gears := [] |}).
  pose proof (covers_fold h vehicles [] start (covers_start start eq_refl))
    as (Hmin & Hmax & Hbound & Hhit).
  cbn [app] in Hbound, Hhit.
  assert (Hfound : found = if num_eq (min (range (fold_left (tellVehicle h) vehicles start))) PosInf
                           then {| min := numZ 0; max := numZ 0 |}
                           else range (fold_left (tellVehicle h) vehicles start))
    by reflexivity.
  split.
  - intros _ Hall. rewrite Hfound.
    replace (num_eq _ PosInf) with true; [reflexivity|].
    symmetry. apply num_eq_PosInf.
    destruct Hhit as [[-> _] | [(v & Hv & Dv & ->) _]]; [reflexivity | now apply Hall].
  - intros w Hw Dw Hfin.
    assert (Hkeep : num_eq (min (range (fold_left (tellVehicle h) vehicles start))) PosInf = false).
    { destruct (num_eq _ PosInf) eqn:E; [|reflexivity].
      apply num_eq_PosInf in E.
      destruct (Hbound w Hw Dw) as [B _]. rewrite E in B.
      destruct (dated_number w Dw) as (_ & _ & [F | F]); congruence. }
    rewrite Hfound, Hkeep.
    destruct Hhit as [[_ Hnone] | [Hlo Hhi]]; [rewrite (Hnone w Hw) in Dw; discriminate|].
    split; [exact Hlo|]. split; [exact Hhi | exact Hbound].
Qed.

(** X20: calculateStats counts the vehicles.  Under a fuel or
    transmission name that is not empty and that objects do not inherit, the
    table holds the number of vehicles with exactly that name (nothing when
    there is none), for fewer than 2^53 vehicles.  Under the name of an
    inherited function (constructor, toString, ...) the first read finds
    the function, so the table holds its text followed by one "1" per
    vehicle, not a number.  The empty string and __proto__ are never keys
    of a table. *)
Theorem stats_count_fuels_and_transmissions (vehicles : list Vehicle) :
  let stats := calculateStats h vehicles in
  let withFuel (name : JsString) :=
    List.length (filter (fun v => str_eqb (연료 v) name) vehicles) in
  let withGear (name : JsString) := List.length (filter (hasGear name) vehicles) in
  totalVehicles stats = List.length vehicles
  /\ (Z.of_nat (List.length vehicles) < 2 ^ 53 ->
      forall name, name <> [] -> inherited name = None ->
        obj_get (fuelTypes stats) name = countValue (withFuel name)
        /\ obj_get (transmissionTypes stats) name = countValue (withGear name))
  /\ (forall m n, m <> MProto ->
        (withFuel (memberName m) = S n ->
         obj_get (fuelTypes stats) (memberName m)
         = JStr (functionToString h m ++ repeat 49%N (S n)))
        /\ (withGear (memberName m) = S n ->
            obj_get (transmissionTypes stats) (memberName m)
            = JStr (functionToString h m ++ repeat 49%N (S n))))
  /\ (forall name, name = [] \/ name = protoKey ->
        ~ In name (obj_keys (fuelTypes stats))
        /\ ~ In name (obj_keys (transmissionTypes stats))).
Proof.
  intros stats withFuel withGear.
  set (start := {| totalPrice := numZ 0; totalMileage := numZ 0;
                   range := {| min := PosInf; max := NegInf |};
                   fuels := []; gears := [] |}).
  assert (Hfuel : fuelTypes stats = fold_left (countUp h) (fuelNames vehicles) []).
  { destruct vehicles as [|v0 vs]; [reflexivity|].
    exact (fuels_fold h (v0 :: vs) start). }
  assert (Hgear : transmissionTypes stats = fold_left (countUp h) (gearNames vehicles) []).
  { destruct vehicles as [|v0 vs]; [reflexivity|].
    exact (gears_fold h (v0 :: vs) start). }
  assert (Hlen : forall f, Z.of_nat (List.length (filter f vehicles))
                           <= Z.of_nat (List.length vehicles)).
  { intros f. apply inj_le, filter_length_le. }
  split; [now destruct vehicles|]. split; [|split].
  - intros Hsmall name Hne Hin.
    assert (Hp : name <> protoKey) by (intros ->; discriminate).
    rewrite Hfuel, Hgear, !tally_get by exact Hp.
    rewrite occurrences_fuels, occurrences_gears by exact Hne.
    simpl obj_get. rewrite Hin.
    split; apply bump_count; exact (Z.le_lt_trans _ _ _ (Hlen _) Hsmall).
  - intros m n Hm.
    assert (Hp : memberName m <> protoKey) by (destruct m; try discriminate; contradiction).
    assert (Hne : memberName m <> []) by (destruct m; discriminate).
    rewrite Hfuel, Hgear, !tally_get by exact Hp.
    rewrite occurrences_fuels, occurrences_gears by exact Hne.
    simpl obj_get. rewrite inherited_member.
    split; intros E; fold (withFuel (memberName m)) (withGear (memberName m));
      rewrite E; now apply bump_member.
  - intros name Hname. rewrite !obj_keys_In, Hfuel, Hgear, !tally_keys.
    destruct (names_nonempty vehicles) as [Hf Hg].
    destruct Hname as [-> | ->]; simpl; tauto.
Qed.

(** X21: filterVehicles.  Without filters, or with only empty strings for
    the search term, the fuel and the transmission, every vehicle stays.
    Filtering twice by the same filters is filtering once, and two filters
    can be applied in either order.  A vehicle that stays is one of the
    given vehicles; the search term is found in its name or its number,
    case folded; its fuel and transmission are the named ones; and against
    each bound that is present its price and its year pass the test the
    code makes: the comparison is false.  So a price or year that is a
    number lies within the bounds that are numbers, while one that is NaN
    passes every bound. *)
Theorem vehicle_filters_are_conjunctive (vehicles : list Vehicle) (f g : VehicleFilters) :
  filterVehicles h vehicles noFilters = vehicles
  /\ filterVehicles h vehicles
       {| searchTerm := Some []; minPrice := None; maxPrice := None;
          minYear := None; maxYear := None; fuelType := Some [];
          transmission := Some [] |} = vehicles
  /\ filterVehicles h (filterVehicles h vehicles f) f = filterVehicles h vehicles f
  /\ filterVehicles h (filterVehicles h vehicles f) g
     = filterVehicles h (filterVehicles h vehicles g) f
  /\ (forall v, In v (filterVehicles h vehicles f) ->
       In v vehicles
       /\ (forall term, searchTerm f = Some term -> term <> [] ->
             includes (toLowerCase h (차량명 v)) (toLowerCase h term) = true
             \/ includes (toLowerCase h (출품번호 v)) (toLowerCase h term) = true)
       /\ (forall bound, minPrice f = Some bound ->
             num_lt (출품가 v) bound = false
             /\ (isNaN (출품가 v) = false -> isNaN bound = false ->
                 num_le bound (출품가 v)))
       /\ (forall bound, maxPrice f = Some bound ->
             num_lt bound (출품가 v) = false
             /\ (isNaN (출품가 v) = false -> isNaN bound = false ->
                 num_le (출품가 v) bound))
       /\ (forall bound, minYear f = Some bound ->
             num_lt (연식 v) bound = false
             /\ (isNaN (연식 v) = false -> isNaN bound = false ->
                 num_le bound (연식 v)))
       /\ (forall bound, maxYear f = Some bound ->
             num_lt bound (연식 v) = false
             /\ (isNaN (연식 v) = false -> isNaN bound = false ->
                 num_le (연식 v) bound))
       /\ (forall fuel, fuelType f = Some fuel -> fuel <> [] -> 연료 v = fuel)
       /\ (forall gear, transmission f = Some gear -> gear <> [] ->
             변속기 v = Some gear))
  /\ forall v low high,
       In v vehicles -> isNaN (출품가 v) = true -> isNaN (연식 v) = true ->
       In v (filterVehicles h vehicles
               {| searchTerm := None; minPrice := Some low; maxPrice := Some high;
                  minYear := Some low; maxYear := Some high; fuelType := None;
                  transmission := None |}).
Proof.
  unfold filterVehicles.
  assert (Hall : forall l : list Vehicle, filter (fun _ => true) l = l).
  { induction l as [|x l IH]; simpl; [reflexivity | now f_equal]. }
  split; [apply Hall|]. split; [apply Hall|].
  split; [apply filter_idem|]. split; [|split].
  - rewrite !filter_both. apply filter_ext. intros v. apply andb_comm.
  - intros v Hv. apply filter_In in Hv as [Hin Hk]. split; [exact Hin|].
    unfold keepVehicle in Hk.
    repeat (apply andb_prop in Hk; destruct Hk as [Hk ?]).
    assert (Hbound : forall x y, negb (num_lt x y) = true ->
              num_lt x y = false
              /\ (isNaN x = false -> isNaN y = false -> num_le y x)).
    { intros x y Hn. apply negb_true_iff in Hn. split; [exact Hn|].
      intros Hx Hy. now apply num_lt_total. }
    assert (Hbound' : forall x y, negb (num_gt x y) = true ->
              num_lt y x = false
              /\ (isNaN x = false -> isNaN y = false -> num_le x y)).
    { intros x y Hn. apply negb_true_iff in Hn. unfold num_gt in Hn.
      split; [exact Hn|]. intros Hx Hy. now apply num_lt_total. }
    split; [|split; [|split; [|split; [|split; [|split]]]]].
    + intros term E Hne. rewrite E in Hk. destruct term as [|c t]; [contradiction|].
      now apply orb_prop.
    + intros bound E. rewrite E in *. now apply Hbound.
    + intros bound E. rewrite E in *. now apply Hbound'.
    + intros bound E. rewrite E in *. now apply Hbound.
    + intros bound E. rewrite E in *. now apply Hbound'.
    + intros fuel E Hne. rewrite E in *. destruct fuel as [|c t]; [contradiction|].
      now apply str_eqb_eq.
    + intros gear E Hne. rewrite E in *. destruct gear as [|c t]; [contradiction|].
      destruct (변속기 v) as [own|]; [|discriminate].
      f_equal. now apply str_eqb_eq.
  - intros v low high Hin Hp Hy. apply filter_In. split; [exact Hin|].
    unfold keepVehicle, num_gt. cbn.
    destruct (출품가 v); try discriminate. destruct (연식 v); try discriminate.
    cbn. now rewrite !num_lt_NaN_r.
Qed.
End StatsProperties.

(** ** The page of the cars route *)

Module PageFacts.
Import XlsxParser CsvParser Routes NumFacts.

Lemma toInteger_numZ (a : Z) : toInteger (numZ a) = inl a.
Proof. unfold toInteger, numZ, inject_Z. cbn [Qnum Qden]. now rewrite Z.quot_1_r. Qed.

(** slice(a, b) for whole numbers 0 <= a <= b: the b - a elements after the
    first a, as far as there are any. *)
Lemma slice_window {A} (l : list A) (a b : Z) :
  0 <= a <= b ->
  slice l (numZ a) (numZ b) = firstn (Z.to_nat (b - a)) (skipn (Z.to_nat a) l).
Proof.
  intros H. unfold slice, relativeIndex. rewrite !toInteger_numZ.
  destruct (a <? 0) eqn:Ea; [apply Z.ltb_lt in Ea; lia|].
  destruct (b <? 0) eqn:Eb; [apply Z.ltb_lt in Eb; lia|].
  set (len := Z.of_nat (List.length l)).
  destruct (Z.le_gt_cases a len) as [Hal | Hal].
  - rewrite (Z.min_l a len) by exact Hal.
    destruct (Z.le_gt_cases b len) as [Hbl | Hbl].
    + now rewrite (Z.min_l b len).
    + rewrite (Z.min_r b len) by lia.
      rewrite !firstn_all2; [reflexivity | |]; rewrite length_skipn; unfold len; lia.
  - rewrite (Z.min_r a len), (Z.min_r b len) by lia.
    rewrite !skipn_all2 by (unfold len in *; lia).
    now rewrite !firstn_nil.
Qed.

Lemma slice_empty {A} (l : list A) (x : JsNum) : slice l x x = [].
Proof. unfold slice. now rewrite Z.sub_diag. Qed.

Lemma slice_until_zero {A} (l : list A) (a : Z) :
  a <= 0 -> slice l (numZ a) (numZ 0) = [].
Proof.
  intros H. unfold slice, relativeIndex. rewrite !toInteger_numZ.
  change (0 <? 0) with false. cbv iota.
  match goal with |- firstn ?n _ = _ => replace n with 0%nat end; [reflexivity|].
  destruct (a <? 0) eqn:E; [|apply Z.ltb_ge in E]; lia.
Qed.

Section WithHost.
Variable h : Host.

(** filteredCars of GET after the sort. *)
Definition arrangedCars (cars : list Vehicle)
    (sortByParam sortOrderParam searchParam : option JsString) : list Vehicle :=
  let filteredCars :=
    filterVehicles h cars
      {| searchTerm := Some (paramOr searchParam []); minPrice := None;
         maxPrice := None; minYear := None; maxYear := None; fuelType := None;
         transmission := None |} in
  let direction :=
    if str_eqb (paramOr sortOrderParam (str "asc")) (str "asc") then asc else desc in
  match keyNamed (paramOr sortByParam key출품번호) with
  | Some key => sortVehicles h filteredCars key direction
  | None => sort (fun _ _ => numZ 0) filteredCars
  end.

Lemma getCars_parts (cars : list Vehicle)
    (pageParam limitParam sortByParam sortOrderParam searchParam : option JsString) :
  let page := parseIntAuto (paramOr pageParam (str "1")) in
  let limit := parseIntAuto (paramOr limitParam (str "20")) in
  let arranged := arrangedCars cars sortByParam sortOrderParam searchParam in
  let startIndex := num_mul (num_add page (numZ (-1))) limit in
  getCars h cars pageParam limitParam sortByParam sortOrderParam searchParam
  = {| data := slice arranged startIndex (num_add startIndex limit);
       total := List.length arranged;
       page := page;
       limit := limit;
       totalPages :=
         mathCeil (num_div (numZ (Z.of_nat (List.length arranged))) limit
                     (parsesNegativeZero (paramOr limitParam (str "20")))) |}.
Proof. reflexivity. Qed.

Lemma arrangedCars_perm (cars : list Vehicle)
    (sortByParam sortOrderParam searchParam : option JsString) :
  Permutation (arrangedCars cars sortByParam sortOrderParam searchParam)
    (filterVehicles h cars
       {| searchTerm := Some (paramOr searchParam []); minPrice := None;
          maxPrice := None; minYear := None; maxYear := None; fuelType := None;
          transmission := None |}).
Proof.
  unfold arrangedCars. destruct (keyNamed _); apply SortFacts.sort_perm.
Qed.

Lemma getCars_window (cars : list Vehicle)
    (pageParam limitParam sortByParam sortOrderParam searchParam : option JsString)
    (p L : Z) :
  parseIntAuto (paramOr pageParam (str "1")) = numZ p ->
  parseIntAuto (paramOr limitParam (str "20")) = numZ L ->
  1 <= p -> 1 <= L -> p * L < 2 ^ 53 ->
  data (getCars h cars pageParam limitParam sortByParam sortOrderParam searchParam)
  = firstn (Z.to_nat L)
      (skipn (Z.to_nat ((p - 1) * L))
         (arrangedCars cars sortByParam sortOrderParam searchParam)).
Proof.
  intros Hp HL Hp1 HL1 Hsmall. rewrite getCars_parts. cbn [data].
  rewrite Hp, HL.
  rewrite (num_add_int p (-1)) by nia.
  rewrite (num_mul_int (p + -1) L) by nia.
  rewrite (num_add_int ((p + -1) * L) L) by nia.
  rewrite slice_window by nia.
  do 2 f_equal; f_equal; lia.
Qed.

End WithHost.
End PageFacts.

Section PageProperties.
Import XlsxParser CsvParser Routes JSFacts NumFacts PageFacts OrderFacts.
Variable h : Host.

(** X22: GET answers with a window of the filtered and sorted cars.  When
    the page is the whole number p >= 1 and the limit the whole number
    L >= 1, the data are the L cars after the first (p - 1) * L of an
    arrangement of the cars that the search keeps, as far as there are any,
    and total is the number of all of them. *)
Theorem page_is_a_window_of_the_sorted_cars (cars : list Vehicle)
    (pageParam limitParam sortByParam sortOrderParam searchParam : option JsString)
    (p L : Z) :
  parseIntAuto (paramOr pageParam (str "1")) = numZ p ->
  parseIntAuto (paramOr limitParam (str "20")) = numZ L ->
  1 <= p -> 1 <= L -> p * L < 2 ^ 53 ->
  let answer :=
    getCars h cars pageParam limitParam sortByParam sortOrderParam searchParam in
  exists arranged,
    Permutation arranged
      (filterVehicles h cars
         {| searchTerm := Some (paramOr searchParam []); minPrice := None;
            maxPrice := None; minYear := None; maxYear := None; fuelType := None;
            transmission := None |})
    /\ total answer = List.length arranged
    /\ data answer
       = firstn (Z.to_nat L) (skipn (Z.to_nat ((p - 1) * L)) arranged)
    /\ (List.length (data answer) <= Z.to_nat L)%nat
    /\ page answer = numZ p /\ limit answer = numZ L.
Proof.
  intros Hp HL Hp1 HL1 Hsmall answer.
  exists (arrangedCars h cars sortByParam sortOrderParam searchParam).
  split; [apply arrangedCars_perm|]. split; [reflexivity|].
  assert (Hdata := getCars_window h cars pageParam limitParam sortByParam
                     sortOrderParam searchParam p L Hp HL Hp1 HL1 Hsmall).
  fold answer in Hdata. split; [exact Hdata|].
  split; [rewrite Hdata; apply firstn_le_length|].
  split; [exact Hp | exact HL].
Qed.

(** X23: GET returns no car at all when the page or the limit is not a
    number, when the page is 0, and when the limit is 0.  With the limit 0
    the number of pages that is computed is NaN when there is no car and
    else an infinity, negative when the limit was written -0; the served
    body has null there in each case, as it has for a page or a limit that
    is not a number.  A result of the parser that carries an error is
    answered with status 500. *)
Theorem pages_outside_the_list_are_empty (cars : list Vehicle)
    (pageParam limitParam sortByParam sortOrderParam searchParam : option JsString) :
  let answer :=
    getCars h cars pageParam limitParam sortByParam sortOrderParam searchParam in
  let page := parseIntAuto (paramOr pageParam (str "1")) in
  let limit := parseIntAuto (paramOr limitParam (str "20")) in
  (page = NaN ->
   data answer = [] /\ jsonField (jsonBody answer) (str "page") = Some JsonNull)
  /\ (limit = NaN ->
      data answer = []
      /\ jsonField (jsonBody answer) (str "limit") = Some JsonNull
      /\ jsonField (jsonBody answer) (str "totalPages") = Some JsonNull)
  /\ (forall L, page = numZ 0 -> limit = numZ L -> 1 <= L < 2 ^ 53 ->
        data answer = [])
  /\ (limit = numZ 0 ->
      data answer = []
      /\ totalPages answer
         = match total answer with
           | O => NaN
           | S _ =>
               if parsesNegativeZero (paramOr limitParam (str "20"))
               then NegInf else PosInf
           end
      /\ jsonField (jsonBody answer) (str "totalPages") = Some JsonNull)
  /\ (forall (result : VehicleFile.ParseResult) (c : N) (message : JsString),
        VehicleFile.error result = Some (c :: message) ->
        status (GET h result pageParam limitParam sortByParam sortOrderParam searchParam)
        = 500)
  /\ (forall result : VehicleFile.ParseResult,
        VehicleFile.error result = None \/ VehicleFile.error result = Some [] ->
        VehicleFile.data result = cars ->
        GET h result pageParam limitParam sortByParam sortOrderParam searchParam
        = {| status := 200; body := jsonBody answer |}).
Proof.
  intros answer page limit.
  assert (Hserved : forall result : VehicleFile.ParseResult,
            VehicleFile.error result = None \/ VehicleFile.error result = Some [] ->
            VehicleFile.data result = cars ->
            GET h result pageParam limitParam sortByParam sortOrderParam searchParam
            = {| status := 200; body := jsonBody answer |}).
  { intros result E <-. unfold GET. now destruct E as [-> | ->]. }
  assert (Hparts := getCars_parts h cars pageParam limitParam sortByParam
                      sortOrderParam searchParam).
  cbv zeta in Hparts. fold answer page limit in Hparts.
  clearbody answer page limit.
  set (arranged := arrangedCars h cars sortByParam sortOrderParam searchParam) in *.
  clearbody arranged. subst answer. cbn [data total Routes.page Routes.limit totalPages].
  unfold jsonBody, jsonField.
  cbn [find fst snd str_eqb data total Routes.page Routes.limit totalPages].
  assert (Hzero : forall x, num_mul x (numZ 0) = NaN \/ num_mul x (numZ 0) = numZ 0).
  { intros [| |a|]; cbn; try tauto.
    right. unfold round_double.
    replace (Qcompare (Qmult a (inject_Z 0)) (inject_Z 0)) with Eq; [reflexivity|].
    symmetry. apply Qeq_alt. unfold Qeq, Qmult, inject_Z. cbn [Qnum Qden]. lia. }
  assert (Hpages : forall z,
            mathCeil (num_div (numZ (Z.of_nat (List.length arranged))) (numZ 0) z)
            = match List.length arranged with
              | O => NaN
              | S _ => if z then NegInf else PosInf
              end).
  { intros z. destruct (List.length arranged) as [|n]; [reflexivity|].
    unfold num_div, numZ, signOf.
    replace (Qcompare (inject_Z 0) (inject_Z 0)) with Eq by reflexivity.
    replace (Qcompare (inject_Z (Z.of_nat (S n))) (inject_Z 0)) with Gt.
    - now destruct z.
    - symmetry. apply Qgt_alt. unfold Qlt, inject_Z. cbn [Qnum Qden]. lia. }
  split; [|split; [|split; [|split; [|split]]]].
  - intros ->. split; [apply slice_empty | reflexivity].
  - intros ->. split; [|split].
    + destruct (num_add page (numZ (-1))); apply slice_empty.
    + reflexivity.
    + now destruct (numZ _).
  - intros L -> -> HL.
    rewrite (num_add_int 0 (-1)) by (cbn; lia).
    rewrite (num_mul_int (0 + -1) L) by lia.
    rewrite (num_add_int ((0 + -1) * L) L) by lia.
    replace ((0 + -1) * L + L) with 0 by lia.
    apply slice_until_zero. lia.
  - intros ->. split; [|split].
    + destruct (Hzero (num_add page (numZ (-1)))) as [-> | ->];
        [apply slice_empty | apply (slice_until_zero _ 0); lia].
    + apply Hpages.
    + rewrite Hpages. destruct (List.length arranged); [reflexivity|].
      now destruct (parsesNegativeZero _).
  - intros result c message E. unfold GET. now rewrite E.
  - exact Hserved.
Qed.

(** X24: a sortBy that names no field of a vehicle leaves the cars in the
    order of the file; with no search term either, GET pages through the
    cars as they were read. *)
Theorem unknown_sort_key_keeps_the_order (cars : list Vehicle)
    (pageParam limitParam sortByParam sortOrderParam searchParam : option JsString)
    (p L : Z) :
  keyNamed (paramOr sortByParam key출품번호) = None ->
  paramOr searchParam [] = [] ->
  parseIntAuto (paramOr pageParam (str "1")) = numZ p ->
  parseIntAuto (paramOr limitParam (str "20")) = numZ L ->
  1 <= p -> 1 <= L -> p * L < 2 ^ 53 ->
  let answer :=
    getCars h cars pageParam limitParam sortByParam sortOrderParam searchParam in
  total answer = List.length cars
  /\ data answer = firstn (Z.to_nat L) (skipn (Z.to_nat ((p - 1) * L)) cars).
Proof.
  intros Hkey Hsearch Hp HL Hp1 HL1 Hsmall answer.
  assert (Harr : arrangedCars h cars sortByParam sortOrderParam searchParam = cars).
  { unfold arrangedCars. rewrite Hkey, Hsearch.
    rewrite sort_indifferent by reflexivity.
    unfold filterVehicles. cbn.
    induction cars as [|c cs IH]; simpl; [reflexivity | now f_equal]. }
  split.
  - unfold answer. rewrite getCars_parts. cbn [total]. now rewrite Harr.
  - unfold answer. rewrite (getCars_window h cars _ _ _ _ _ p L) by assumption.
    now rewrite Harr.
Qed.
End PageProperties.

(** ** The text handed to the CSV reader, and the vehicles of a sheet *)

Module CsvTextFacts.
Import XlsxParser JSFacts.

Lemma dropWhile_split {A} (p : A -> bool) (l : list A) :
  exists pre, l = pre ++ dropWhile p l /\ Forall (fun x => p x = true) pre.
Proof.
  induction l as [|x l (pre & IH & Hpre)]; simpl.
  - exists []. split; [reflexivity | constructor].
  - destruct (p x) eqn:E.
    + exists (x :: pre). split; [simpl; now f_equal | now constructor].
    + exists []. split; [reflexivity | constructor].
Qed.

Lemma stripTrailingCommas_cases (line : JsString) :
  stripTrailingCommas line
  = match dropWhile isWhiteSpace (rev line) with
    | c :: r => if N.eqb c 44 then rev (dropWhile (N.eqb 44) r) else line
    | [] => line
    end.
Proof.
  unfold stripTrailingCommas.
  destruct (dropWhile isWhiteSpace (rev line)) as [|c r]; [reflexivity|].
  destruct (N.eqb_spec c 44) as [-> | Hne]; [reflexivity|].
  destruct c as [|p]; [reflexivity|].
  repeat (destruct p as [p|p|]; try reflexivity).
  contradiction.
Qed.

(** Only commas that end the line, and white space behind them, are cut. *)
Lemma stripTrailingCommas_shape (line : JsString) :
  exists commas ws,
    line = stripTrailingCommas line ++ commas ++ ws
    /\ Forall (fun c => c = 44%N) commas
    /\ Forall (fun c => isWhiteSpace c = true) ws
    /\ (commas = [] -> ws = []).
Proof.
  rewrite stripTrailingCommas_cases.
  destruct (dropWhile_split isWhiteSpace (rev line)) as (w & Hw & Hws).
  destruct (dropWhile isWhiteSpace (rev line)) as [|c r] eqn:E.
  - exists [], []. rewrite !app_nil_r. repeat split; constructor.
  - destruct (N.eqb_spec c 44) as [-> | Hne].
    + destruct (dropWhile_split (N.eqb 44) r) as (cs & Hcs & Hcommas).
      exists (rev cs ++ [44%N]), (rev w).
      split; [|split; [|split]].
      * rewrite <- (rev_involutive line), Hw, Hcs at 1.
        rewrite rev_app_distr. simpl. rewrite rev_app_distr, <- !app_assoc. reflexivity.
      * apply Forall_app. split; [|now repeat constructor].
        apply Forall_rev. eapply Forall_impl; [|exact Hcommas].
        intros a Ha. apply N.eqb_eq in Ha. congruence.
      * now apply Forall_rev.
      * intros Hnil. now destruct (rev cs).
    + exists [], []. rewrite !app_nil_r. repeat split; constructor.
Qed.

Lemma endsWith_comma (s : JsString) :
  endsWith s [44%N] = match rev s with c :: _ => N.eqb 44 c | [] => false end.
Proof.
  unfold endsWith. simpl. destruct (rev s) as [|c t]; [reflexivity|].
  simpl. apply andb_true_r.
Qed.

Lemma stripTrailingCommas_end (line : JsString) :
  endsWith (stripTrailingCommas line) [44%N] = false.
Proof.
  rewrite endsWith_comma, stripTrailingCommas_cases.
  pose proof (dropWhile_head isWhiteSpace (rev line)) as Hhead.
  destruct (dropWhile isWhiteSpace (rev line)) as [|c r] eqn:E.
  - destruct (rev line) as [|c t]; [reflexivity|].
    simpl in E. destruct (isWhiteSpace c) eqn:W; [|discriminate].
    destruct (N.eqb_spec 44 c) as [<- | Hne]; [discriminate | reflexivity].
  - destruct (N.eqb_spec c 44) as [-> | Hne].
    + rewrite rev_involutive.
      pose proof (dropWhile_head (N.eqb 44) r) as Hc.
      now destruct (dropWhile (N.eqb 44) r).
    + destruct (rev line) as [|c' t]; [reflexivity|].
      simpl in E. destruct (isWhiteSpace c') eqn:W.
      * destruct (N.eqb_spec 44 c') as [<- | Hne']; [discriminate | reflexivity].
      * injection E as -> _. apply N.eqb_neq. congruence.
Qed.

Lemma split_single (sep : N) (p : JsString) : ~ In sep p -> split sep p = [p].
Proof.
  induction p as [|c t IH]; simpl; intros H; [reflexivity|].
  destruct (N.eqb_spec c sep) as [-> | Hne]; [exfalso; apply H; now left|].
  rewrite IH; [reflexivity|]. intros Hin. apply H. now right.
Qed.

Lemma split_app_sep (sep : N) (p rest : JsString) :
  ~ In sep p -> split sep (p ++ sep :: rest) = p :: split sep rest.
Proof.
  induction p as [|c t IH]; simpl; intros H.
  - now rewrite N.eqb_refl.
  - destruct (N.eqb_spec c sep) as [-> | Hne]; [exfalso; apply H; now left|].
    rewrite IH; [reflexivity|]. intros Hin. apply H. now right.
Qed.

Lemma split_join (sep : N) (parts : list JsString) :
  parts <> [] -> Forall (fun p => ~ In sep p) parts ->
  split sep (join sep parts) = parts.
Proof.
  induction parts as [|p rest IH]; intros Hne Hall; [contradiction|].
  inversion Hall as [|? ? Hp Hrest]; subst.
  destruct rest as [|q rest'].
  - simpl. now apply split_single.
  - change (join sep (p :: q :: rest')) with (p ++ sep :: join sep (q :: rest')).
    rewrite split_app_sep by exact Hp. f_equal. apply IH; [discriminate | exact Hrest].
Qed.

Lemma split_parts (sep : N) (s : JsString) :
  split sep s <> [] /\ Forall (fun p => ~ In sep p) (split sep s).
Proof.
  induction s as [|c t [Hne Hall]]; simpl.
  - split; [discriminate | repeat constructor; intros []].
  - destruct (N.eqb_spec c sep) as [-> | Hc].
    + split; [discriminate | constructor; [intros [] | exact Hall]].
    + destruct (split sep t) as [|w ws]; [contradiction|].
      inversion Hall as [|? ? Hw Hws]; subst.
      split; [discriminate|]. constructor; [|exact Hws].
      intros [E | Hin]; [congruence | now apply Hw].
Qed.

Lemma lines_of_stripped (content : JsString) :
  split 10 (join 10 (map stripTrailingCommas (split 10 content)))
  = map stripTrailingCommas (split 10 content).
Proof.
  destruct (split_parts 10 content) as [Hne Hall].
  apply split_join.
  - now destruct (split 10 content).
  - apply Forall_map. eapply Forall_impl; [|exact Hall].
    intros line Hline Hin. apply Hline.
    destruct (stripTrailingCommas_shape line) as (commas & ws & E & _).
    rewrite E. apply in_or_app. now left.
Qed.

End CsvTextFacts.

Section FileProperties.
Import XlsxParser CsvParser VehicleFile JSFacts CsvTextFacts VehicleFacts PipelineFacts
  StatsFacts.
Variable h : Host.

(** X25: the removal of trailing commas cuts from a line only commas that
    end it and white space behind them; no line of the text that parseCSV
    hands to the CSV reader ends with a comma. *)
Theorem prepared_lines_end_without_comma :
  (forall line, exists commas ws,
      line = stripTrailingCommas line ++ commas ++ ws
      /\ Forall (fun c => c = 44%N) commas
      /\ Forall (fun c => isWhiteSpace c = true) ws
      /\ (commas = [] -> ws = []))
  /\ forall decoded,
       Forall (fun line => endsWith line [44%N] = false)
         (split 10 (csvContent decoded)).
Proof.
  split; [exact stripTrailingCommas_shape|].
  intros decoded. unfold csvContent. rewrite lines_of_stripped.
  apply Forall_map, Forall_forall. intros line _. apply stripTrailingCommas_end.
Qed.

(** X26: parseVehicleXLSX.  Its statistics count the vehicles it
    returns.  After an error there is no vehicle and the year range is 0
    to 0; a sheet that was read and gave no vehicle has the year range
    Infinity to -Infinity.  Every vehicle has a 출품번호 and a 차량명 that
    are not empty, and a price and a year that are numbers. *)
Theorem vehicles_of_a_sheet (xlsx : Completion (list (list JsValue))) :
  let outcome := parseVehicleXLSX h xlsx in
  totalVehicles (stats outcome) = List.length (data outcome)
  /\ (error outcome <> None ->
      data outcome = []
      /\ yearRange (stats outcome) = {| min := numZ 0; max := numZ 0 |})
  /\ (error outcome = None -> data outcome = [] ->
      yearRange (stats outcome) = {| min := PosInf; max := NegInf |})
  /\ forall v, In v (data outcome) ->
       출품번호 v <> [] /\ 차량명 v <> []
       /\ isNaN (출품가 v) = false /\ isNaN (연식 v) = false.
Proof.
  intros outcome. unfold outcome, parseVehicleXLSX.
  destruct xlsx as [rawData | m]; cbn [data stats error failed].
  - split; [now destruct (toVehicles h _)|].
    split; [intros H; now contradiction H|].
    split; [intros _ ->; reflexivity|].
    intros v Hv. apply toVehicles_In in Hv as (r & Hr & Ht).
    destruct (transform_numbers h r v Ht) as [Hp Hy].
    destruct (sheet_record_transform h rawData _ r Hr) as [Hnone Hsome].
    destruct (Hsome v Ht) as [E1 E2].
    assert (Htruthy : truthy (obj_get r key출품번호) && truthy (obj_get r key차량명) = true).
    { destruct (truthy _ && truthy _) eqn:G; [reflexivity|].
      rewrite (proj2 Hnone eq_refl) in Ht. discriminate. }
    apply andb_prop in Htruthy as [T1 T2]. rewrite E1 in T1. rewrite E2 in T2.
    cbn in T1, T2.
    repeat split; try assumption.
    + intros E. rewrite E in T1. discriminate.
    + intros E. rewrite E in T2. discriminate.
  - split; [reflexivity|]. split; [now split|]. split; [discriminate | intros v []].
Qed.
End FileProperties.

(** ** The further properties at concrete inputs *)

(** A raw row as the CSV reader gives it, and the vehicle made from it. *)
Definition sampleRow : JsObject :=
  [ (CsvParser.key출품번호, text " 0001 "); (CsvParser.key차량명, text "Avante");
    (CsvParser.key출품가, text "1,250"); (CsvParser.key연식, text "2020") ].

Definition sampleMade : CsvParser.Vehicle :=
  {| CsvParser.출품번호 := str "0001"; CsvParser.차량명 := str "Avante";
     CsvParser.출품가 := numZ 1250; CsvParser.연식 := numZ 2020;
     CsvParser.주행거리 := str "0 Km"; CsvParser.색상 := []; CsvParser.연료 := [];
     CsvParser.변속기 := Some []; CsvParser.평가점 := [] |}.

Definition sampleCars : list CsvParser.Vehicle :=
  [sampleVehicle "1 Km"; sampleVehicle "2 Km"; sampleVehicle "3 Km"].

Lemma record_holds_the_cell_under_its_header_witness :
  obj_get
    (XlsxUtils.makeRowObject AsciiHost.host [str "a"; str "b"; str "a"]
       [text "1"; text "2"; text " 3 "])
    (str "a")
  = text "3".
Proof.
  refine (proj1 (record_holds_the_cell_under_its_header AsciiHost.host
                   [str "a"; str "b"; str "a"] [text "1"; text "2"; text " 3 "] 2 (str "a")
                   _ _) _).
  - reflexivity.
  - intros j' Hj. do 3 (destruct j' as [|j']; [lia|]). destruct j'; discriminate.
  - discriminate.
Defined.

Lemma record_values_are_trimmed_text_witness :
  exists t,
    obj_get
      (hd [] (XlsxUtils.data
                (XlsxUtils.parseWorksheetRobust AsciiHost.host scenarioB XlsxUtils.noOptions)))
      (str "name")
    = JStr t
    /\ trim t = t.
Proof.
  refine (proj1 (record_values_are_trimmed_text AsciiHost.host scenarioB
                   XlsxUtils.noOptions _ (str "name") _ _) _).
  - vm_compute. left. reflexivity.
  - vm_compute. right. left. reflexivity.
  - discriminate.
Defined.

Lemma one_record_per_row_with_data_witness :
  List.length
    (XlsxUtils.data
       (XlsxUtils.parseWorksheetRobust AsciiHost.host scenarioB XlsxUtils.noOptions))
  = 1%nat.
Proof.
  apply (one_record_per_row_with_data AsciiHost.host scenarioB XlsxUtils.noOptions).
  vm_compute. discriminate.
Defined.

Lemma number_constraint_matches_no_sheet_record_witness :
  XlsxParser.filterData AsciiHost.host
    (XlsxUtils.data
       (XlsxUtils.parseWorksheetRobust AsciiHost.host scenarioB XlsxUtils.noOptions))
    [(str "price", XlsxParser.FValue (JNum (numZ 1000)))]
  = [].
Proof.
  apply (number_constraint_matches_no_sheet_record AsciiHost.host scenarioB
           XlsxUtils.noOptions _ (str "price") (numZ 1000)).
  left. reflexivity.
Defined.

Lemma column_type_ignores_order_witness :
  XlsxParser.detectColumnType AsciiHost.host [text "1"; JNull; text "x"]
  = XlsxParser.detectColumnType AsciiHost.host [text "x"; text "1"; JNull].
Proof.
  apply (column_type_ignores_order AsciiHost.host).
  apply perm_trans with [text "1"; text "x"; JNull].
  - apply perm_skip, perm_swap.
  - apply perm_swap.
Defined.

Lemma numeric_column_sorts_by_value_witness :
  let rows := [ [(str "n", text "10")]; [(str "n", text "9")]; [(str "n", text "100")] ] in
  StronglySorted
    (fun a b =>
       num_lt (ToNumber (obj_get b (str "n"))) (ToNumber (obj_get a (str "n"))) = false)
    (XlsxParser.sortData AsciiHost.host rows (str "n") XlsxParser.asc).
Proof.
  intros rows.
  refine (proj1 (proj2 (proj2
            (numeric_column_sorts_by_value AsciiHost.host rows (str "n") _)))).
  intros r [<- | [<- | [<- | []]]]; split; reflexivity.
Defined.

Lemma mileage_reads_grouped_digits_witness :
  CsvParser.parseMileage (Some (str "43,437 Km")) = numZ 43437.
Proof.
  apply (mileage_reads_grouped_digits (str "43,437 Km") [4; 3; 4; 3; 7] (str "Km")).
  - discriminate.
  - repeat constructor; unfold VehicleFacts.isDigit; lia.
  - reflexivity.
  - reflexivity.
  - intros c t H. vm_compute in H. discriminate.
Defined.

Lemma price_reads_grouped_digits_witness :
  CsvParser.parsePrice (Some (str "1,250")) = numZ 1250.
Proof.
  apply (price_reads_grouped_digits (str "1,250") [1; 2; 5; 0] []).
  - discriminate.
  - repeat constructor; unfold VehicleFacts.isDigit; lia.
  - reflexivity.
  - reflexivity.
  - intros c t H. discriminate.
Defined.

Lemma vehicle_fields_are_normalised_witness :
  CsvParser.주행거리 sampleMade <> []
  /\ isNaN (CsvParser.출품가 sampleMade) = false.
Proof.
  destruct (vehicle_fields_are_normalised AsciiHost.host sampleRow sampleMade)
    as (_ & Hprice & _ & Hmileage & _).
  - reflexivity.
  - split; [exact Hmileage | exact Hprice].
Defined.

Lemma sheet_records_become_vehicles_witness :
  CsvParser.transformVehicleData AsciiHost.host
    (hd [] (XlsxUtils.data
              (XlsxUtils.parseWorksheetRobust AsciiHost.host scenarioB XlsxUtils.noOptions)))
  = None.
Proof.
  destruct (sheet_records_become_vehicles AsciiHost.host scenarioB XlsxUtils.noOptions
              (hd [] (XlsxUtils.data
                        (XlsxUtils.parseWorksheetRobust AsciiHost.host scenarioB
                           XlsxUtils.noOptions))))
    as [Hnone _].
  - vm_compute. left. reflexivity.
  - apply Hnone. reflexivity.
Defined.

Lemma page_is_a_window_of_the_sorted_cars_witness :
  let answer :=
    Routes.getCars AsciiHost.host sampleCars (Some (str "2")) (Some (str "2"))
      None None None in
  exists arranged,
    Permutation arranged
      (CsvParser.filterVehicles AsciiHost.host sampleCars
         {| CsvParser.searchTerm := Some []; CsvParser.minPrice := None;
            CsvParser.maxPrice := None; CsvParser.minYear := None;
            CsvParser.maxYear := None; CsvParser.fuelType := None;
            CsvParser.transmission := None |})
    /\ Routes.total answer = List.length arranged
    /\ Routes.data answer = firstn 2 (skipn 2 arranged)
    /\ (List.length (Routes.data answer) <= 2)%nat
    /\ Routes.page answer = numZ 2 /\ Routes.limit answer = numZ 2.
Proof.
  apply (page_is_a_window_of_the_sorted_cars AsciiHost.host sampleCars
           (Some (str "2")) (Some (str "2")) None None None 2 2).
  - reflexivity.
  - reflexivity.
  - lia.
  - lia.
  - reflexivity.
Defined.

Lemma unknown_sort_key_keeps_the_order_witness :
  let answer :=
    Routes.getCars AsciiHost.host sampleCars (Some (str "2")) (Some (str "2"))
      (Some (str "colour")) None None in
  Routes.total answer = 3%nat
  /\ Routes.data answer = [sampleVehicle "3 Km"].
Proof.
  apply (unknown_sort_key_keeps_the_order AsciiHost.host sampleCars
           (Some (str "2")) (Some (str "2")) (Some (str "colour")) None None 2 2).
  - reflexivity.
  - reflexivity.
  - reflexivity.
  - reflexivity.
  - lia.
  - lia.
  - reflexivity.
Defined.
